(** * UCSC-Chess-Club: the tournament-rules pipeline (discover, archive, extract)

    A shallow embedding of the three API handlers of the repository

      - [run-ccl-search]   (discovery: search, citation filter, link buckets),
      - [upload-ccl-pdf]   (archival: drive link rewriting, blob upload),
      - [extract-ccl-info] (extraction: model call, JSON parse, record update),

    and of the store they share (the Firestore collection
    "ccl-tournament-info"); then of what surrounds them: the status lookup
    [get-ccl-status], the pages that call the handlers (the merge of the
    search page, the step flags of the manager page), the client-side
    search component, and the question-answering server with its cached
    index.

    Modelling decisions.
      - JavaScript strings are Rocq [string]s (sequences of 8-bit characters);
        [toLowerCase] folds the ASCII letters and leaves other characters
        alone.  The request fields [season] and [year] are strings, as the
        search page sends them; the empty string stands for a missing field.
      - The handlers are programs of a small state-and-exception monad over
        a [World] (the collection, the blob bucket, and the trace of every
        call made to the outside).  Whatever the outside answers (search
        provider, page fetch, blob store, language model, clock, document
        store failures) comes from an [Env] of oracles that see the current
        world, so an oracle may answer differently on each call. *)

From Stdlib Require Import Bool Arith NArith Lia List String Ascii DecimalString.
From Stdlib Require Import RelationClasses Permutation.
Import ListNotations.
Local Open Scope list_scope.
Local Open Scope string_scope.

(* ********************************************************************* *)
(** * Part I: the program                                                  *)
(* ********************************************************************* *)

(* ===================================================================== *)
(** ** JavaScript string primitives                                       *)
(* ===================================================================== *)

Module JS.

(** A value used as a condition: a string is truthy unless it is empty. *)
Definition truthy (s : string) : bool :=
  match s with
  | EmptyString => false
  | String _ _ => true
  end.

(** [a || b] on strings. *)
Definition or_else (a b : string) : string := if truthy a then a else b.

Definition is_upper (c : ascii) : bool :=
  ((65 <=? nat_of_ascii c)%nat && (nat_of_ascii c <=? 90)%nat)%bool.

Definition lower_ascii (c : ascii) : ascii :=
  if is_upper c then ascii_of_nat (nat_of_ascii c + 32) else c.

(** [s.toLowerCase()] *)
Fixpoint toLowerCase (s : string) : string :=
  match s with
  | EmptyString => EmptyString
  | String c s' => String (lower_ascii c) (toLowerCase s')
  end.

Definition is_lower (c : ascii) : bool :=
  ((97 <=? nat_of_ascii c)%nat && (nat_of_ascii c <=? 122)%nat)%bool.

Definition upper_ascii (c : ascii) : ascii :=
  if is_lower c then ascii_of_nat (nat_of_ascii c - 32) else c.

(** [s.toUpperCase()] *)
Fixpoint toUpperCase (s : string) : string :=
  match s with
  | EmptyString => EmptyString
  | String c s' => String (upper_ascii c) (toUpperCase s')
  end.

(** [s.charAt(0)] *)
Definition charAt0 (s : string) : string :=
  match s with
  | EmptyString => EmptyString
  | String c _ => String c EmptyString
  end.

(** [s.startsWith(t)] *)
Fixpoint startsWith (s t : string) {struct t} : bool :=
  match t, s with
  | EmptyString, _ => true
  | String _ _, EmptyString => false
  | String b t', String a s' => Ascii.eqb a b && startsWith s' t'
  end.

(** [s.includes(t)]: [t] occurs in [s] at some position. *)
Fixpoint includes (s t : string) : bool :=
  startsWith s t ||
  match s with
  | EmptyString => false
  | String _ s' => includes s' t
  end.

(** [s.slice(n)] for [0 <= n]. *)
Fixpoint slice (n : nat) (s : string) : string :=
  match n, s with
  | O, _ => s
  | S _, EmptyString => EmptyString
  | S k, String _ s' => slice k s'
  end.

(** [arr.includes(x)] on an array of strings. *)
Fixpoint arr_includes (arr : list string) (x : string) : bool :=
  match arr with
  | [] => false
  | y :: arr' => String.eqb y x || arr_includes arr' x
  end.

(** Decimal rendering of a non-negative integer, as in a template literal. *)
Definition show_nat (n : nat) : string := NilEmpty.string_of_uint (Nat.to_uint n).

Definition show_N (n : N) : string := NilEmpty.string_of_uint (N.to_uint n).

End JS.

(* ===================================================================== *)
(** ** Discovery: the citation filter                                     *)
(* ===================================================================== *)

Module Filter.
Import JS.

(** The predicate passed to [rawSources.filter] in [run-ccl-search]:
<<
      const lowerUrl = url.toLowerCase();
      const lowerSeason = season.toLowerCase();
      return lowerUrl.includes(year) && lowerUrl.includes(lowerSeason)
             && !lowerUrl.includes('india');
>> *)
Definition citation_filter (season year url : string) : bool :=
  let lowerUrl := toLowerCase url in
  let lowerSeason := toLowerCase season in
  includes lowerUrl year && includes lowerUrl lowerSeason
  && negb (includes lowerUrl "india").

Definition filteredSources (season year : string) (rawSources : list string) : list string :=
  filter (citation_filter season year) rawSources.

(** The words of the specification: [url] contains [tok] up to letter case
    when some substring of [url] equals [tok] once both are case-folded. *)
Definition contains_ci (url tok : string) : Prop :=
  exists pre w post, url = pre ++ w ++ post /\ toLowerCase w = toLowerCase tok.

End Filter.

(** The filter in the words of the specification, written on its own: no
    definition below uses the code's case folding. *)
Module FilterSpec.







End FilterSpec.

(* ===================================================================== *)
(** ** Discovery: link classification                                     *)
(* ===================================================================== *)

Module Scrape.
Import JS.

(** An [<a>] element as the scraper reads it: [$(el).attr('href')] (absent
    when the attribute is missing) and [$(el).text()]. *)
Record Anchor := { href : option string; text : string }.

(** The per-page [result] object with its five buckets. *)
Record result := {
  url : string;
  pdf : list string;
  instructions : list string;
  registration : list string;
  fairPlay : list string;
  platform : list string
}.

Definition empty_result (u : string) : result :=
  {| url := u; pdf := []; instructions := []; registration := [];
     fairPlay := []; platform := [] |}.

(** [addLink]: push unless already present. *)
Definition addLink (arr : list string) (link : string) : list string :=
  if arr_includes arr link then arr else (arr ++ [link])%list.

(** The site's own register and login pages, skipped before any bucket. *)
Definition excluded (lowerHref : string) : bool :=
  includes lowerHref "chess.com/register" || includes lowerHref "chess.com/login".

(** The five bucket conditions, on the lower-cased text and href. *)
Definition is_pdf (text lowerHref : string) : bool :=
  includes text "pdf" || includes lowerHref ".pdf"
  || includes lowerHref "drive.google.com"
  || (includes lowerHref "docs.google.com" && negb (includes lowerHref "/forms/")).

Definition is_instructions (text lowerHref : string) : bool :=
  includes text "instruction".

Definition is_registration (text lowerHref : string) : bool :=
  includes text "registration" || includes text "register"
  || includes text "sign up" || includes lowerHref "forms.gle"
  || includes lowerHref "docs.google.com/forms".

Definition is_fairPlay (text lowerHref : string) : bool :=
  includes lowerHref "fairplay-agreement"
  || (includes text "fair play" && negb (includes lowerHref "user-agreement")
      && negb (includes lowerHref "/cheating") && negb (includes lowerHref "legal")).

Definition is_platform (text lowerHref : string) : bool :=
  includes lowerHref "pcl.gg".

(** The callback of [$('a').each]. *)
Definition classify (r : result) (el : Anchor) : result :=
  match href el with
  | None => r
  | Some h =>
    if negb (truthy h) then r else
    let text := toLowerCase (text el) in
    let lowerHref := toLowerCase h in
    if excluded lowerHref then r else
    {| url := url r;
       pdf := if is_pdf text lowerHref then addLink (pdf r) h else pdf r;
       instructions :=
         if is_instructions text lowerHref then addLink (instructions r) h
         else instructions r;
       registration :=
         if is_registration text lowerHref then addLink (registration r) h
         else registration r;
       fairPlay :=
         if is_fairPlay text lowerHref then addLink (fairPlay r) h else fairPlay r;
       platform :=
         if is_platform text lowerHref then addLink (platform r) h else platform r |}
  end.

(** One page: every anchor in document order, from the empty result. *)
Definition scrape (u : string) (anchors : list Anchor) : result :=
  fold_left classify anchors (empty_result u).

(** The page yields a candidate when some bucket is non-empty. *)
Definition has_links (r : result) : bool :=
  (0 <? List.length (pdf r))%nat || (0 <? List.length (instructions r))%nat
  || (0 <? List.length (registration r))%nat || (0 <? List.length (fairPlay r))%nat
  || (0 <? List.length (platform r))%nat.

(** [arr[0] || ''] *)
Definition first_or_empty (arr : list string) : string :=
  match arr with
  | [] => ""
  | x :: _ => or_else x ""
  end.

End Scrape.

(* ===================================================================== *)
(** ** The document store                                                 *)
(* ===================================================================== *)

Module Store.

(** A parsed JSON value (what [JSON.parse] returns). *)
#[local] Unset Elimination Schemes.
Inductive json :=
| JNull
| JBool (b : bool)
| JNumber (n : nat)
| JString (s : string)
| JArray (items : list json)
| JObject (fields : list (string * json)).
#[local] Set Elimination Schemes.

(** The fields of a document of "ccl-tournament-info".  [tournamentInfo] is
    absent until extraction writes it. *)
Record TournamentData := {
  season : string;
  year : string;
  source : string;
  pdf : string;
  pdfStorageUrl : string;
  instructions : string;
  registration : string;
  fairPlay : string;
  platform : string;
  tournamentInfo : option json
}.

(** A document: its id and its data. *)
Record Doc := { id : string; data : TournamentData }.

(** The partial objects passed to [updateDoc]. *)
Inductive Patch :=
| SetPdfStorageUrl (u : string)
| SetTournamentInfo (info : json).

Definition apply_patch (p : Patch) (d : TournamentData) : TournamentData :=
  match p with
  | SetPdfStorageUrl u =>
      {| season := season d; year := year d; source := source d; pdf := pdf d;
         pdfStorageUrl := u;
         instructions := instructions d; registration := registration d;
         fairPlay := fairPlay d; platform := platform d;
         tournamentInfo := tournamentInfo d |}
  | SetTournamentInfo info =>
      {| season := season d; year := year d; source := source d; pdf := pdf d;
         pdfStorageUrl := pdfStorageUrl d;
         instructions := instructions d; registration := registration d;
         fairPlay := fairPlay d; platform := platform d;
         tournamentInfo := Some info |}
  end.

(** [where("season", "==", season), where("year", "==", year)] *)
Definition matches (s y : string) (d : Doc) : bool :=
  String.eqb (season (data d)) s && String.eqb (year (data d)) y.

Definition query (s y : string) (coll : list Doc) : list Doc :=
  filter (matches s y) coll.

Definition has_id (i : string) (d : Doc) : bool := String.eqb (id d) i.

(** The collection after [updateDoc] of the document [i]. *)
Definition update (i : string) (p : Patch) (coll : list Doc) : list Doc :=
  map (fun d => if has_id i d then {| id := id d; data := apply_patch p (data d) |} else d)
      coll.

(** The ids of a collection; Firestore keeps them pairwise distinct. *)
Definition ids (coll : list Doc) : list string := map id coll.

End Store.

(* ===================================================================== *)
(** ** The world the handlers run in                                      *)
(* ===================================================================== *)

Module Sys.
Import Store.

(** Every call a handler makes to the outside, in the order made.  An
    upload and its URL lookup carry the id of the document being processed,
    so that uploads can be counted per record. *)
Inductive Event :=
| EvGetDocs (season year : string)
| EvAddDoc (d : TournamentData)
| EvUpdateDoc (doc : string) (p : Patch)
| EvFetch (url : string) (post : option string)
| EvUploadBytes (doc : string) (path : string) (bytes : string)
| EvGetDownloadURL (doc : string) (path : string)
| EvInvoke (prompt : string)
| EvConsoleError (message : string).

Record World := {
  store : list Doc;                      (* the collection *)
  bucket : list (string * string);       (* the uploads made: path, bytes *)
  trace : list Event
}.

(** What an awaited call gives: a value, or a rejection with its message. *)
Inductive Answer (A : Type) :=
| Ok (a : A)
| Fails (message : string).
Arguments Ok {A} a.
Arguments Fails {A} message.

(** A [fetch] response: [ok], [status], [statusText], and what reading the
    body ([text()], [json()], [arrayBuffer()]) gives. *)
Record FetchResponse := {
  ok : bool;
  status : nat;
  statusText : string;
  body : Answer string
}.

(** The outside.  Each oracle sees the world at the time of the call (the
    call itself already on the trace). *)
Record Env := {
  (* Firestore: may reject; [addDoc] answers the id it assigned *)
  getDocs_answer : World -> Answer unit;
  addDoc_answer : World -> TournamentData -> Answer string;
  updateDoc_answer : World -> string -> Answer unit;
  (* the network *)
  fetch_answer : World -> string -> Answer FetchResponse;
  (* Storage *)
  uploadBytes_answer : World -> string -> Answer unit;
  getDownloadURL_answer : World -> string -> Answer string;
  (* the clock *)
  Date_now : World -> N;
  (* the language model *)
  invoke_answer : World -> string -> Answer string;
  (* pure library functions that are not modelled further *)
  perplexity_data : string -> Answer (string * list string); (* answer, citations *)
  cheerio_anchors : string -> list Scrape.Anchor;            (* load(html), $('a') *)
  pdf_text : string -> Answer string;                        (* pdf(buffer).text *)
  JSON_parse : string -> option json;
  (* the fixed instruction text of the extraction prompt *)
  prompt_text : string
}.

(** *** The monad: state, and exceptions carrying [error.message] *)

Inductive Outcome (A : Type) :=
| Returned (a : A)
| Thrown (message : string).
Arguments Returned {A} a.
Arguments Thrown {A} message.

Definition M (A : Type) : Type := World -> Outcome A * World.

Definition ret {A} (a : A) : M A := fun w => (Returned a, w).

Definition throw {A} (message : string) : M A := fun w => (Thrown message, w).

Definition bind {A B} (m : M A) (k : A -> M B) : M B :=
  fun w =>
    match m w with
    | (Returned a, w') => k a w'
    | (Thrown e, w') => (Thrown e, w')
    end.

(** [try { m } catch (e) { h e }] *)
Definition try_catch {A} (m : M A) (h : string -> M A) : M A :=
  fun w =>
    match m w with
    | (Returned a, w') => (Returned a, w')
    | (Thrown e, w') => h e w'
    end.

Declare Scope M_scope.
Delimit Scope M_scope with M.
Notation "x <- m ;; k" := (bind m (fun x => k))
  (at level 61, m at next level, right associativity) : M_scope.
Notation "m ;;; k" := (bind m (fun _ => k))
  (at level 61, right associativity) : M_scope.
Local Open Scope M_scope.

(** [for (const x of xs) { acc = body acc x }] *)
Fixpoint for_of {A S} (xs : list A) (body : S -> A -> M S) (acc : S) : M S :=
  match xs with
  | [] => ret acc
  | x :: xs' => acc' <- body acc x ;; for_of xs' body acc'
  end.

(** The world once a call is on the trace. *)
Definition logged (w : World) (e : Event) : World :=
  {| store := store w; bucket := bucket w; trace := (trace w ++ [e])%list |}.

Definition log (e : Event) : M unit := fun w => (Returned tt, logged w e).

(** Lift an answer of the outside into the monad. *)
Definition await {A} (a : Answer A) : M A :=
  match a with
  | Ok x => ret x
  | Fails e => throw e
  end.

Definition ask {A} (oracle : World -> Answer A) : M A :=
  fun w => await (oracle w) w.

Definition console_error (message : string) : M unit :=
  log (EvConsoleError message).

(** *** The calls *)

(** [getDocs(query(..., where season, where year))]: the matching documents,
    in the collection's order. *)
Definition getDocs (env : Env) (s y : string) : M (list Doc) :=
  log (EvGetDocs s y) ;;;
  ask (getDocs_answer env) ;;;
  fun w => (Returned (query s y (store w)), w).

(** [addDoc(tournamentsRef, d)].  The model puts the new document last; the
    store orders a query by document id, and the id it gives a new document
    is random, so where a statement depends on the place of a new document
    it is made for every arrangement of the collection. *)
Definition addDoc (env : Env) (d : TournamentData) : M unit :=
  log (EvAddDoc d) ;;;
  i <- ask (fun w => addDoc_answer env w d) ;;
  fun w => (Returned tt,
            {| store := (store w ++ [{| id := i; data := d |}])%list;
               bucket := bucket w; trace := trace w |}).

(** [updateDoc(doc(db, ..., i), p)]; Firestore rejects an update of a
    document that does not exist. *)
Definition updateDoc (env : Env) (i : string) (p : Patch) : M unit :=
  log (EvUpdateDoc i p) ;;;
  ask (fun w => updateDoc_answer env w i) ;;;
  fun w =>
    if existsb (has_id i) (store w)
    then (Returned tt,
          {| store := update i p (store w); bucket := bucket w; trace := trace w |})
    else (Thrown "No document to update", w).

(** [fetch(url)], and [fetch(url, { method: 'POST', body })] *)
Definition fetch_with (env : Env) (u : string) (post : option string) : M FetchResponse :=
  log (EvFetch u post) ;;;
  ask (fun w => fetch_answer env w u).

Definition fetch (env : Env) (u : string) : M FetchResponse := fetch_with env u None.

(** [uploadBytes(ref(storage, path), bytes, ...)], for the document [doc].
    The bucket records the uploads in order; an upload to a path that has
    an object replaces it, so the object at a path is the last upload to
    that path. *)
Definition uploadBytes (env : Env) (doc path bytes : string) : M unit :=
  log (EvUploadBytes doc path bytes) ;;;
  ask (fun w => uploadBytes_answer env w path) ;;;
  fun w => (Returned tt,
            {| store := store w; bucket := (bucket w ++ [(path, bytes)])%list;
               trace := trace w |}).

(** [getDownloadURL(ref(storage, path))] *)
Definition getDownloadURL (env : Env) (doc path : string) : M string :=
  log (EvGetDownloadURL doc path) ;;;
  ask (fun w => getDownloadURL_answer env w path).

(** [llm.invoke(prompt)], giving [result.content]. *)
Definition invoke (env : Env) (prompt : string) : M string :=
  log (EvInvoke prompt) ;;;
  ask (fun w => invoke_answer env w prompt).

Definition now (env : Env) : M N := fun w => (Returned (Date_now env w), w).

(** *** Requests and responses *)

(** A request whose body (for a GET, whose query) is an object: [season]
    and [year] are the strings sent, the empty string when the field is
    missing.  A POST whose body is not an object is [Wire.Incoming] below. *)
Record Request := { method : string; req_season : string; req_year : string }.

(** One entry of [updatedDocs]. *)
Record UpdatedDoc := {
  upd_id : string;
  upd_pdfStorageUrl : string;
  upd_message : option string;
  upd_exists : bool
}.

(** The JSON bodies the handlers send. *)
Inductive Body :=
| BMessage (message : string)
| BError (message error : string)
| BExists (message : string) (savedData : list TournamentData)
| BSearch (message answer : string) (sources : list string)
          (scrapedData : list Scrape.result) (savedData : list TournamentData)
| BUpload (message : string) (updatedDocs : list UpdatedDoc)
| BExtract (message : string) (info : json).

Record Response := { code : nat; json_body : Body }.

(** [res.status(c).json(b)] *)
Definition respond (c : nat) (b : Body) : M Response :=
  ret {| code := c; json_body := b |}.

(** The HTTP status a run ended with, if it answered. *)
Definition status_code (run : Outcome Response * World) : option nat :=
  match fst run with
  | Returned r => Some (code r)
  | Thrown _ => None
  end.

End Sys.

(* ===================================================================== *)
(** ** Archival: [upload-ccl-pdf]                                          *)
(* ===================================================================== *)

Module Archive.
Import JS Store Sys.
Local Open Scope M_scope.

(** [.] of a regular expression matches anything but a line terminator
    (line feed and carriage return, among 8-bit characters). *)
Definition is_line_terminator (c : ascii) : bool :=
  (nat_of_ascii c =? 10)%nat || (nat_of_ascii c =? 13)%nat.

(** The rest of the lazy group [(.+?)] after its first character: extend one
    character at a time until the next character is the closing [/]. *)
Fixpoint lazy_until_slash (s : string) : option string :=
  match s with
  | EmptyString => None
  | String c s' =>
      if Ascii.eqb c "/" then Some ""
      else if is_line_terminator c then None
      else option_map (String c) (lazy_until_slash s')
  end.

(** [(.+?)\/] on the text that follows [/d/]. *)
Definition group_at (s : string) : option string :=
  match s with
  | EmptyString => None
  | String c s' =>
      if is_line_terminator c then None
      else option_map (String c) (lazy_until_slash s')
  end.

(** [pdfLink.match(/\/d\/(.+?)\//)], giving the capture [driveIdMatch[1]] of
    the leftmost match. *)
Fixpoint driveIdMatch (pdfLink : string) : option string :=
  match (if startsWith pdfLink "/d/" then group_at (slice 3 pdfLink) else None) with
  | Some g => Some g
  | None =>
      match pdfLink with
      | EmptyString => None
      | String _ rest => driveIdMatch rest
      end
  end.

Definition downloadUrl (fileId : string) : string :=
  "https://drive.google.com/uc?export=download&id=" ++ fileId.

(** [if (driveIdMatch && driveIdMatch[1])]: the URL fetched for a document
    link, when one is. *)
Definition resolve (pdfLink : string) : option string :=
  match driveIdMatch pdfLink with
  | Some fileId => if truthy fileId then Some (downloadUrl fileId) else None
  | None => None
  end.

Definition fileName (season year : string) (t : N) : string :=
  "ccl/" ++ season ++ "/" ++ year ++ "/" ++ show_N t ++ "_ccl_" ++ season
  ++ "_" ++ year ++ ".pdf".

Definition uploaded (i u : string) : UpdatedDoc :=
  {| upd_id := i; upd_pdfStorageUrl := u; upd_message := None; upd_exists := false |}.

Definition already (i u : string) : UpdatedDoc :=
  {| upd_id := i; upd_pdfStorageUrl := u; upd_message := Some "Already exists";
     upd_exists := true |}.

(** From the response to the durable URL: read the bytes, upload them under
    a time-stamped name, ask for the URL. *)
Definition upload_pdf (env : Env) (season year : string) (document : Doc)
    (pdfResponse : FetchResponse) : M string :=
  pdfUint8Array <- await (body pdfResponse) ;;
  t <- now env ;;
  let file := fileName season year t in
  uploadBytes env (id document) file pdfUint8Array ;;;
  getDownloadURL env (id document) file.

(** The [try] block of the loop body, once the download URL is at hand. *)
Definition download_and_store (env : Env) (season year : string)
    (document : Doc) (url : string) (updatedDocs : list UpdatedDoc)
  : M (list UpdatedDoc) :=
  pdfResponse <- fetch env url ;;
  if ok pdfResponse then
    pdfStorageUrl <- upload_pdf env season year document pdfResponse ;;
    updateDoc env (id document) (SetPdfStorageUrl pdfStorageUrl) ;;;
    ret (updatedDocs ++ [uploaded (id document) pdfStorageUrl])%list
  else
    console_error ("Failed to download PDF from " ++ url) ;;;
    ret updatedDocs.

(** The body of [for (const document of querySnapshot.docs)]. *)
Definition archive_doc (env : Env) (season year : string)
    (updatedDocs : list UpdatedDoc) (document : Doc) : M (list UpdatedDoc) :=
  let data := data document in
  if truthy (pdf data) && negb (truthy (pdfStorageUrl data)) then
    try_catch
      (match resolve (pdf data) with
       | Some url => download_and_store env season year document url updatedDocs
       | None => ret updatedDocs
       end)
      (fun e => console_error ("Error processing PDF: " ++ e) ;;; ret updatedDocs)
  else if truthy (pdfStorageUrl data) then
    ret (updatedDocs ++ [already (id document) (pdfStorageUrl data)])%list
  else ret updatedDocs.

(** The [try] block of the handler. *)
Definition archive_all (env : Env) (season year : string) : M Response :=
  docs <- getDocs env season year ;;
  match docs with
  | [] =>
      respond 404
        (BMessage ("No tournament info found for " ++ season ++ " " ++ year ++ "."))
  | _ =>
      updatedDocs <- for_of docs (archive_doc env season year) [] ;;
      respond 200 (BUpload "PDF processing completed" updatedDocs)
  end.

Definition handler (env : Env) (req : Request) : M Response :=
  if negb (String.eqb (method req) "POST") then
    respond 405 (BMessage "Method not allowed")
  else
    let season := req_season req in
    let year := req_year req in
    if negb (truthy season) || negb (truthy year) then
      respond 400 (BMessage "Season and year are required")
    else
      try_catch
        (archive_all env season year)
        (fun e =>
           console_error e ;;;
           respond 500 (BError "Internal server error" e)).

End Archive.

(* ===================================================================== *)
(** ** Extraction: [extract-ccl-info]                                      *)
(* ===================================================================== *)

Module Extract.
Import JS Store Sys.
Local Open Scope M_scope.

(** [s.replace(/pat/g, '')] for a literal, non-empty [pat]: matches are
    taken left to right and do not overlap.  [skip] counts the characters of
    the current match still to drop. *)
Fixpoint remove_all (pat : string) (skip : nat) (s : string) : string :=
  match s with
  | EmptyString => EmptyString
  | String c s' =>
      match skip with
      | S k => remove_all pat k s'
      | O =>
          if startsWith s pat then remove_all pat (String.length pat - 1) s'
          else String c (remove_all pat 0 s')
      end
  end.

Definition is_space (c : ascii) : bool :=
  let n := nat_of_ascii c in
  ((9 <=? n) && (n <=? 13) || (n =? 32))%nat.

Fixpoint trimStart (s : string) : string :=
  match s with
  | EmptyString => EmptyString
  | String c s' => if is_space c then trimStart s' else s
  end.

Fixpoint trimEnd (s : string) : string :=
  match s with
  | EmptyString => EmptyString
  | String c s' =>
      match trimEnd s' with
      | EmptyString => if is_space c then EmptyString else String c EmptyString
      | t => String c t
      end
  end.

Definition trim (s : string) : string := trimEnd (trimStart s).

(** [result.content.replace(/```json/g, '').replace(/```/g, '').trim()] *)
Definition strip_fences (content : string) : string :=
  trim (remove_all "```" 0 (remove_all "```json" 0 content)).

Definition newline : string := String (ascii_of_nat 10) EmptyString.

(** The template literal: the fixed instructions, then the document text. *)
Definition prompt (env : Env) (fullText : string) : string :=
  prompt_text env ++ fullText ++ newline.

(** The inner [try]: clean the content and parse it; any failure is
    rethrown as one fixed error. *)
Definition parse_content (env : Env) (content : string) : M json :=
  match JSON_parse env (strip_fences content) with
  | Some info => ret info
  | None =>
      console_error "Failed to parse tournament info JSON" ;;;
      throw "Failed to parse LLM response"
  end.

(** Step 2: fetch the archived document and extract its text. *)
Definition fetch_text (env : Env) (url : string) : M string :=
  response <- fetch env url ;;
  if negb (ok response) then
    throw ("Failed to fetch PDF: " ++ statusText response)
  else
    buffer <- await (body response) ;;
    await (pdf_text env buffer).

(** Steps 3 and 4: one call of the model on the whole text, then the parse. *)
Definition query_model (env : Env) (fullText : string) : M json :=
  content <- invoke env (prompt env fullText) ;;
  parse_content env content.

(** Steps 2 to 5, for a document that has an archived copy. *)
Definition extract_and_save (env : Env) (docSnapshot : Doc) : M Response :=
  let docData := data docSnapshot in
  let docId := id docSnapshot in
  fullText <- fetch_text env (pdfStorageUrl docData) ;;
  tournamentInfo <- query_model env fullText ;;
  updateDoc env docId (SetTournamentInfo tournamentInfo) ;;;
  respond 200
    (BExtract "Tournament info extracted and saved successfully" tournamentInfo).

Definition handler (env : Env) (req : Request) : M Response :=
  if negb (String.eqb (method req) "POST") then
    respond 405 (BMessage "Method not allowed")
  else
    let season := req_season req in
    let year := req_year req in
    if negb (truthy season) || negb (truthy year) then
      respond 400 (BMessage "Season and year are required")
    else
      try_catch
        (docs <- getDocs env season year ;;
         match docs with
         | [] =>
             respond 404
               (BMessage ("No tournament info found for " ++ season ++ " " ++ year ++ "."))
         | docSnapshot :: _ =>
             let docData := data docSnapshot in
             if negb (truthy (pdfStorageUrl docData)) then
               respond 400 (BMessage "PDF has not been uploaded yet.")
             else extract_and_save env docSnapshot
         end)
        (fun e =>
           console_error ("Error extracting info: " ++ e) ;;;
           respond 500 (BError "Internal server error" e)).

End Extract.

(* ===================================================================== *)
(** ** Discovery: [run-ccl-search]                                         *)
(* ===================================================================== *)

Module Discover.
Import JS Store Sys.
Local Open Scope M_scope.

Definition searchQuery (season year : string) : string :=
  "Collegiate Chess League " ++ toUpperCase (charAt0 season) ++ slice 1 season
  ++ " " ++ year ++ " site:chess.com".

(** The body of [for (const url of filteredSources)]. *)
Definition scrape_source (env : Env) (results : list Scrape.result) (url : string)
  : M (list Scrape.result) :=
  try_catch
    (response <- fetch env url ;;
     if negb (ok response) then
       console_error ("Failed to fetch " ++ url ++ ": " ++ show_nat (status response)) ;;;
       ret results
     else
       html <- await (body response) ;;
       let result := Scrape.scrape url (cheerio_anchors env html) in
       if Scrape.has_links result then ret (results ++ [result])%list
       else ret results)
    (fun e => console_error ("Failed to scrape " ++ url ++ " " ++ e) ;;; ret results).

(** The record built from one page's buckets. *)
Definition tournamentData (season year : string) (result : Scrape.result)
  : TournamentData :=
  {| Store.season := season;
     Store.year := year;
     Store.source := Scrape.url result;
     Store.pdf := Scrape.first_or_empty (Scrape.pdf result);
     Store.pdfStorageUrl := "";
     Store.instructions := Scrape.first_or_empty (Scrape.instructions result);
     Store.registration := Scrape.first_or_empty (Scrape.registration result);
     Store.fairPlay := Scrape.first_or_empty (Scrape.fairPlay result);
     Store.platform := Scrape.first_or_empty (Scrape.platform result);
     Store.tournamentInfo := None |}.

(** The body of [for (const result of results)]. *)
Definition save (env : Env) (season year : string)
    (savedData : list TournamentData) (result : Scrape.result)
  : M (list TournamentData) :=
  let d := tournamentData season year result in
  addDoc env d ;;;
  ret (savedData ++ [d])%list.

Definition handler (env : Env) (req : Request) : M Response :=
  if negb (String.eqb (method req) "POST") then
    respond 405 (BMessage "Method not allowed")
  else
    let season := req_season req in
    let year := req_year req in
    if negb (truthy season) || negb (truthy year) then
      respond 400 (BMessage "Season and year are required")
    else
      try_catch
        (docs <- getDocs env season year ;;
         match docs with
         | _ :: _ =>
             respond 200
               (BExists ("Tournament info for " ++ season ++ " " ++ year
                         ++ " already exists.")
                        (map data docs))
         | [] =>
             perplexityResponse <-
               fetch_with env "https://api.perplexity.ai/chat/completions"
                          (Some (searchQuery season year)) ;;
             if negb (ok perplexityResponse) then
               throw ("Perplexity API error! status: "
                      ++ show_nat (status perplexityResponse))
             else
               text <- await (body perplexityResponse) ;;
               found <- await (perplexity_data env text) ;;
               let answer := fst found in
               let filtered := Filter.filteredSources season year (snd found) in
               results <- for_of filtered (scrape_source env) [] ;;
               savedData <- for_of results (save env season year) [] ;;
               respond 200
                 (BSearch "Search and save completed" answer filtered results savedData)
         end)
        (fun e =>
           console_error e ;;;
           respond 500 (BError "Internal server error" e)).

End Discover.

(* ===================================================================== *)
(** ** Sample worlds and environments                                     *)
(* ===================================================================== *)

Module Sample.
Import JS Store Sys.

Definition spring_2026 : Request :=
  {| method := "POST"; req_season := "spring"; req_year := "2026" |}.

Definition record (link archived : string) : TournamentData :=
  {| season := "spring"; year := "2026";
     source := "https://www.chess.com/clubs/ccl-spring-2026";
     pdf := link; pdfStorageUrl := archived;
     instructions := ""; registration := "https://forms.gle/abc";
     fairPlay := ""; platform := ""; tournamentInfo := None |}.

Definition drive_link : string :=
  "https://drive.google.com/file/d/XYZ789/view?usp=sharing".

Definition plain_link : string := "https://www.chess.com/ccl/rules-2026.pdf".

Definition blob_url : string := "https://storage.example/ccl/spring/2026/rules.pdf".

(** A discovered record with a drive link, not archived yet. *)
Definition fresh_doc : Doc := {| id := "doc1"; data := record drive_link "" |}.

(** A discovered record with a plain [.pdf] link, not archived yet. *)
Definition plain_doc : Doc := {| id := "doc2"; data := record plain_link "" |}.

(** An archived record. *)
Definition archived_doc : Doc := {| id := "doc3"; data := record drive_link blob_url |}.

Definition world_of (docs : list Doc) : World :=
  {| store := docs; bucket := []; trace := [] |}.

Definition pdf_bytes : string := "%PDF-1.7 rules".

(** A parser that knows the empty object only; it agrees with [JSON.parse]
    on the texts used below. *)
Definition parse_empty_object (s : string) : option json :=
  if String.eqb s "{}" then Some (JObject []) else None.

(** Everything answers; the model replies [reply]. *)
Definition env_with (reply : string) : Env :=
  {| getDocs_answer := fun _ => Ok tt;
     addDoc_answer := fun w _ => Ok ("new" ++ show_nat (List.length (store w)));
     updateDoc_answer := fun _ _ => Ok tt;
     fetch_answer := fun _ _ =>
       Ok {| ok := true; status := 200; statusText := "OK"; body := Ok pdf_bytes |};
     uploadBytes_answer := fun _ _ => Ok tt;
     getDownloadURL_answer := fun _ path => Ok ("https://storage.example/" ++ path);
     Date_now := fun _ => 1767225600000%N;
     invoke_answer := fun _ _ => Ok reply;
     perplexity_data := fun _ => Ok ("", []);
     cheerio_anchors := fun _ => [];
     pdf_text := fun _ => Ok "Collegiate Chess League rules";
     JSON_parse := parse_empty_object;
     prompt_text := "Extract the schedule as JSON. Context: " |}.

Definition fenced_reply : string :=
  "```json" ++ String (ascii_of_nat 10) "{}" ++ String (ascii_of_nat 10) "```".

Definition env_ok : Env := env_with fenced_reply.

(** The model replies with prose. *)
Definition env_prose : Env := env_with "I could not find a schedule.".

(** The blob store takes the upload but refuses to give its URL. *)
Definition env_no_url : Env :=
  {| getDocs_answer := getDocs_answer env_ok;
     addDoc_answer := addDoc_answer env_ok;
     updateDoc_answer := updateDoc_answer env_ok;
     fetch_answer := fetch_answer env_ok;
     uploadBytes_answer := uploadBytes_answer env_ok;
     getDownloadURL_answer := fun _ _ => Fails "storage/unauthorized";
     Date_now := Date_now env_ok;
     invoke_answer := invoke_answer env_ok;
     perplexity_data := perplexity_data env_ok;
     cheerio_anchors := cheerio_anchors env_ok;
     pdf_text := pdf_text env_ok;
     JSON_parse := JSON_parse env_ok;
     prompt_text := prompt_text env_ok |}.

End Sample.

(* ===================================================================== *)
(** ** The specification's words, as definitions                          *)
(* ===================================================================== *)

Module FirstWins.
Import JS Scrape.

(** The words of the specification: the first link of the page, in document
    order, that is matched into a bucket.  A link is considered when it has
    a non-empty href outside the site's register and login pages; [cond] is
    the bucket's condition.  The empty string when the page has none. *)
Fixpoint first_match (cond : string -> string -> bool) (anchors : list Anchor) : string :=
  match anchors with
  | [] => ""
  | el :: rest =>
      match href el with
      | Some h =>
          if truthy h && negb (excluded (toLowerCase h))
             && cond (toLowerCase (text el)) (toLowerCase h)
          then h
          else first_match cond rest
      | None => first_match cond rest
      end
  end.

(** What [classify] does to one bucket. *)
Definition bucket_step (cond : string -> string -> bool) (arr : list string)
    (el : Anchor) : list string :=
  match href el with
  | Some h =>
      if truthy h && negb (excluded (toLowerCase h))
         && cond (toLowerCase (text el)) (toLowerCase h)
      then addLink arr h
      else arr
  | None => arr
  end.

End FirstWins.

Module Shape.
Import JS Store Sys.

Fixpoint all_chars (p : ascii -> bool) (s : string) : bool :=
  match s with
  | EmptyString => true
  | String c s' => p c && all_chars p s'
  end.

(** A file identifier: a non-empty run of characters with no [/] and no
    line break in it. *)
Definition identifier (fid : string) : bool :=
  truthy fid
  && all_chars (fun c => negb (Ascii.eqb c "/") && negb (Archive.is_line_terminator c)) fid.

(** How many blobs the trace shows uploaded for the document [i]. *)
Fixpoint uploads_of (i : string) (t : list Event) : nat :=
  match t with
  | [] => 0
  | EvUploadBytes doc _ _ :: t' =>
      (if String.eqb doc i then 1 else 0) + uploads_of i t'
  | _ :: t' => uploads_of i t'
  end.

(** How many updates the trace shows for the document [i]. *)
Fixpoint updates_of (i : string) (t : list Event) : nat :=
  match t with
  | [] => 0
  | EvUpdateDoc doc _ :: t' =>
      (if String.eqb doc i then 1 else 0) + updates_of i t'
  | _ :: t' => updates_of i t'
  end.

(** The event is an upload or an update for the document [i]. *)
Definition touches (i : string) (e : Event) : bool :=
  match e with
  | EvUploadBytes doc _ _ => String.eqb doc i
  | EvUpdateDoc doc _ => String.eqb doc i
  | _ => false
  end.

Definition is_fetch (e : Event) : bool :=
  match e with
  | EvFetch _ _ => true
  | _ => false
  end.

Definition is_invoke (e : Event) : bool :=
  match e with
  | EvInvoke _ => true
  | _ => false
  end.

End Shape.

Module Frame.
Import Store Sys Shape.

(** A program keeps a relation between the world it starts in and the
    world it ends in, whatever it returns or throws. *)
Definition preserves (R : World -> World -> Prop) {A} (m : M A) : Prop :=
  forall w o w', m w = (o, w') -> R w w'.

(** The collection is the same. *)
Definition same_store (w w' : World) : Prop := store w' = store w.

(** The collection has the same documents, by id, in the same order. *)
Definition same_ids (w w' : World) : Prop := ids (store w') = ids (store w).

(** No upload and no update was made for the document [i]. *)
Definition untouched (i : string) (w w' : World) : Prop :=
  uploads_of i (trace w') = uploads_of i (trace w)
  /\ updates_of i (trace w') = updates_of i (trace w).

(** The calls made since are on the trace, and none of them is a fetch. *)
Definition no_fetch (w w' : World) : Prop :=
  exists evs, trace w' = (trace w ++ evs)%list /\ existsb is_fetch evs = false.

(** The collection holds the document an [updatedDocs] entry names, with
    the URL the entry gives. *)
Definition recorded (e : UpdatedDoc) (coll : list Doc) : Prop :=
  exists d, In d coll /\ id d = upd_id e
            /\ pdfStorageUrl (data d) = upd_pdfStorageUrl e.

(** The calls made since are on the trace, and every fetch among them asks
    for the archived document of [first]. *)
Definition fetches_of (first : option Doc) (w w' : World) : Prop :=
  exists evs,
    trace w' = (trace w ++ evs)%list
    /\ Forall (fun e => is_fetch e = true ->
                        exists d0, first = Some d0
                                   /\ e = EvFetch (pdfStorageUrl (data d0)) None)
              evs.

(** The calls made since are on the trace, and every fetch among them asks
    for the direct-download form of the viewer link of one of [docs] that
    has a link and no archived copy. *)
Definition fetches_resolved (docs : list Doc) (w w' : World) : Prop :=
  exists evs,
    trace w' = (trace w ++ evs)%list
    /\ Forall (fun e => is_fetch e = true ->
                        exists d fileId,
                          In d docs
                          /\ JS.truthy (pdf (data d)) = true
                          /\ pdfStorageUrl (data d) = ""
                          /\ Archive.driveIdMatch (pdf (data d)) = Some fileId
                          /\ e = EvFetch (Archive.downloadUrl fileId) None)
              evs.

(** All fields but [tournamentInfo] agree. *)
Definition same_but_info (a b : TournamentData) : Prop :=
  season a = season b /\ year a = year b /\ source a = source b
  /\ pdf a = pdf b /\ pdfStorageUrl a = pdfStorageUrl b
  /\ instructions a = instructions b /\ registration a = registration b
  /\ fairPlay a = fairPlay b /\ platform a = platform b.

End Frame.

(* ===================================================================== *)
(** ** Status lookup: [get-ccl-status]                                     *)
(* ===================================================================== *)

Module Status.
Import JS Store Sys.
Local Open Scope M_scope.

(** The JSON bodies of the status endpoint. *)
Inductive StatusBody :=
| SMessage (message : string)
| SError (message error : string)
| SMissing                          (* { exists: false } *)
| SFound (data : TournamentData).   (* { exists: true, data } *)

Record StatusResponse := { s_code : nat; s_body : StatusBody }.

Definition answer (c : nat) (b : StatusBody) : M StatusResponse :=
  ret {| s_code := c; s_body := b |}.

(** The handler; [season] and [year] come from [req.query]. *)
Definition handler (env : Env) (req : Request) : M StatusResponse :=
  if negb (String.eqb (method req) "GET") then
    answer 405 (SMessage "Method not allowed")
  else
    let season := req_season req in
    let year := req_year req in
    if negb (truthy season) || negb (truthy year) then
      answer 400 (SMessage "Season and year are required")
    else
      try_catch
        (docs <- getDocs env season year ;;
         match docs with
         | [] => answer 200 SMissing
         | first :: _ => answer 200 (SFound (data first))
         end)
        (fun e =>
           console_error e ;;;
           answer 500 (SError "Internal server error" e)).

End Status.

(* ===================================================================== *)
(** ** More relations between the world before and the world after        *)
(* ===================================================================== *)

Module Keeps.
Import Store Sys Shape.

Definition is_query_or_log (e : Event) : bool :=
  match e with
  | EvGetDocs _ _ => true
  | EvConsoleError _ => true
  | _ => false
  end.

(** Nothing was written, and the only calls made are queries and logs. *)
Definition reads_only (w w' : World) : Prop :=
  store w' = store w /\ bucket w' = bucket w
  /\ exists evs, trace w' = (trace w ++ evs)%list
                 /\ forallb is_query_or_log evs = true.

(** Nothing was written. *)
Definition same_data (w w' : World) : Prop :=
  store w' = store w /\ bucket w' = bucket w.

(** A record as discovery creates it for the key [(s, y)]. *)
Definition discovered (s y : string) (d : Doc) : Prop :=
  season (data d) = s /\ year (data d) = y
  /\ pdfStorageUrl (data d) = "" /\ tournamentInfo (data d) = None.

(** The collection was only appended to, with records discovered for
    [(s, y)]; the bucket is the same. *)
Definition appended (s y : string) (w w' : World) : Prop :=
  bucket w' = bucket w
  /\ exists new, store w' = (store w ++ new)%list /\ Forall (discovered s y) new.

(** The bucket was only appended to, with blobs named as the archive
    handler names them for [(s, y)]. *)
Definition blobs_added (s y : string) (w w' : World) : Prop :=
  exists new,
    bucket w' = (bucket w ++ new)%list
    /\ Forall (fun blob => exists t, fst blob = Archive.fileName s y t) new.

(** All fields but [pdfStorageUrl] agree. *)
Definition same_but_url (a b : TournamentData) : Prop :=
  season a = season b /\ year a = year b /\ source a = source b
  /\ pdf a = pdf b
  /\ instructions a = instructions b /\ registration a = registration b
  /\ fairPlay a = fairPlay b /\ platform a = platform b
  /\ tournamentInfo a = tournamentInfo b.

(** The collection after a list of URL updates, applied in order. *)
Fixpoint apply_updates (ups : list (string * string)) (coll : list Doc) : list Doc :=
  match ups with
  | [] => coll
  | (i, u) :: ups' => apply_updates ups' (update i (SetPdfStorageUrl u) coll)
  end.

(** Every link in a bucket is a non-empty href. *)
Definition all_truthy (arr : list string) : Prop :=
  Forall (fun h => JS.truthy h = true) arr.

(** One document after the URL updates that name it, applied in order. *)
Fixpoint patch_all (ups : list (string * string)) (d : Doc) : Doc :=
  match ups with
  | [] => d
  | (i, u) :: ups' =>
      patch_all ups'
        (if has_id i d
         then {| id := id d; data := apply_patch (SetPdfStorageUrl u) (data d) |}
         else d)
  end.

(** The update [(id, url)] names a document of [docs] that has no archived
    copy. *)
Definition names_unarchived (docs : list Doc) (iu : string * string) : Prop :=
  exists d, In d docs /\ id d = fst iu
            /\ JS.truthy (pdfStorageUrl (data d)) = false.

(** [html] is the body of a fetch of the page [u] that answered ok. *)
Definition page_body (env : Env) (u html : string) : Prop :=
  exists w0 resp,
    fetch_answer env w0 u = Ok resp /\ ok resp = true /\ body resp = Ok html.

(** [r] is the scrape of the page at its address, as fetched. *)
Definition scrape_of_page (env : Env) (r : Scrape.result) : Prop :=
  exists html,
    page_body env (Scrape.url r) html
    /\ r = Scrape.scrape (Scrape.url r) (cheerio_anchors env html).

(** Some link field of the record is set. *)
Definition has_some_link (d : TournamentData) : bool :=
  JS.truthy (pdf d) || JS.truthy (instructions d) || JS.truthy (registration d)
  || JS.truthy (fairPlay d) || JS.truthy (platform d).

End Keeps.

(* ===================================================================== *)
(** ** More sample worlds and environments                                *)
(* ===================================================================== *)

Module Sample2.
Import JS Store Sys.

Definition lookup_spring_2026 : Request :=
  {| method := "GET"; req_season := "spring"; req_year := "2026" |}.

Definition league_page : string := "https://www.chess.com/clubs/ccl-spring-2026".

Definition league_anchors : list Scrape.Anchor :=
  [ {| Scrape.href := Some "https://www.chess.com/login"; Scrape.text := "Log In" |};
    {| Scrape.href := Some Sample.drive_link; Scrape.text := "Rules (PDF)" |};
    {| Scrape.href := Some "https://forms.gle/abc"; Scrape.text := "Register" |} ].

(** The search provider cites the league page and two pages the filter
    drops; every page has the league page's anchors. *)
Definition env_search : Env :=
  {| getDocs_answer := getDocs_answer Sample.env_ok;
     addDoc_answer := addDoc_answer Sample.env_ok;
     updateDoc_answer := updateDoc_answer Sample.env_ok;
     fetch_answer := fun _ _ =>
       Ok {| ok := true; status := 200; statusText := "OK"; body := Ok "<html>" |};
     uploadBytes_answer := uploadBytes_answer Sample.env_ok;
     getDownloadURL_answer := getDownloadURL_answer Sample.env_ok;
     Date_now := Date_now Sample.env_ok;
     invoke_answer := invoke_answer Sample.env_ok;
     perplexity_data := fun _ =>
       Ok ("The Spring 2026 season starts in January.",
           [league_page;
            "https://www.chess.com/clubs/ccl-india-spring-2026";
            "https://www.chess.com/clubs/ccl-fall-2025"]);
     cheerio_anchors := fun _ => league_anchors;
     pdf_text := pdf_text Sample.env_ok;
     JSON_parse := JSON_parse Sample.env_ok;
     prompt_text := prompt_text Sample.env_ok |}.

Definition news_page : string :=
  "https://www.chess.com/news/view/ccl-spring-2026-rules".

Definition news_anchors : list Scrape.Anchor :=
  [ {| Scrape.href := Some Sample.plain_link; Scrape.text := "Season rules" |};
    {| Scrape.href := Some "https://www.pcl.gg/ccl"; Scrape.text := "Play" |} ].

(** The search provider cites two pages the filter keeps and one it drops;
    a page's body is its own address, and each page has its own anchors. *)
Definition env_search_two : Env :=
  {| getDocs_answer := getDocs_answer Sample.env_ok;
     addDoc_answer := addDoc_answer Sample.env_ok;
     updateDoc_answer := updateDoc_answer Sample.env_ok;
     fetch_answer := fun _ u =>
       Ok {| ok := true; status := 200; statusText := "OK"; body := Ok u |};
     uploadBytes_answer := uploadBytes_answer Sample.env_ok;
     getDownloadURL_answer := getDownloadURL_answer Sample.env_ok;
     Date_now := Date_now Sample.env_ok;
     invoke_answer := invoke_answer Sample.env_ok;
     perplexity_data := fun _ =>
       Ok ("The Spring 2026 season starts in January.",
           [league_page;
            "https://www.chess.com/clubs/ccl-india-spring-2026";
            news_page]);
     cheerio_anchors := fun html =>
       if String.eqb html league_page then league_anchors else news_anchors;
     pdf_text := pdf_text Sample.env_ok;
     JSON_parse := JSON_parse Sample.env_ok;
     prompt_text := prompt_text Sample.env_ok |}.

(** The record saved for the second page. *)
Definition news_record : TournamentData :=
  {| season := "spring"; year := "2026";
     source := news_page;
     pdf := Sample.plain_link; pdfStorageUrl := "";
     instructions := ""; registration := "";
     fairPlay := ""; platform := "https://www.pcl.gg/ccl"; tournamentInfo := None |}.

(** The search provider answers 503. *)
Definition env_search_down : Env :=
  {| getDocs_answer := getDocs_answer Sample.env_ok;
     addDoc_answer := addDoc_answer Sample.env_ok;
     updateDoc_answer := updateDoc_answer Sample.env_ok;
     fetch_answer := fun _ _ =>
       Ok {| ok := false; status := 503; statusText := "Service Unavailable";
             body := Ok "" |};
     uploadBytes_answer := uploadBytes_answer Sample.env_ok;
     getDownloadURL_answer := getDownloadURL_answer Sample.env_ok;
     Date_now := Date_now Sample.env_ok;
     invoke_answer := invoke_answer Sample.env_ok;
     perplexity_data := perplexity_data Sample.env_ok;
     cheerio_anchors := cheerio_anchors Sample.env_ok;
     pdf_text := pdf_text Sample.env_ok;
     JSON_parse := JSON_parse Sample.env_ok;
     prompt_text := prompt_text Sample.env_ok |}.

End Sample2.

(* ===================================================================== *)
(** ** Answered requests, and the cleaning of a model reply               *)
(* ===================================================================== *)

Module Answers.
Import Sys.

(** A run ended with a response whose status is one of [codes]. *)
Definition answered {R} (status : R -> nat) (codes : list nat)
    (run : Outcome R * World) : Prop :=
  exists r, fst run = Returned r /\ In (status r) codes.

(** Whenever the program returns, the value satisfies [P]. *)
Definition returns_only {A} (P : A -> Prop) (m : M A) : Prop :=
  forall w a w', m w = (Returned a, w') -> P a.

End Answers.

Module Clean.
Import JS Shape.

Definition backtick : ascii := "`"%char.

Definition is_backtick (c : ascii) : bool := Ascii.eqb c backtick.

Definition no_backtick (s : string) : bool :=
  all_chars (fun c => negb (is_backtick c)) s.

(** The length of the run of backticks the string starts with. *)
Fixpoint ticks (s : string) : nat :=
  match s with
  | EmptyString => 0
  | String c s' => if is_backtick c then S (ticks s') else 0
  end.

(** The second replacement of the cleaning: [s.replace(/```/g, '')]. *)
Definition strip3 (s : string) : string := Extract.remove_all "```" 0 s.

End Clean.

(* ===================================================================== *)
(** ** The pages that call the handlers                                    *)
(* ===================================================================== *)

Module Page.
Import JS Store Sys.

(** *** The search page: [handleSearch] *)

(** [pdfData.updatedDocs.find(doc => doc.pdfStorageUrl)] *)
Definition first_with_url (updatedDocs : list UpdatedDoc) : option UpdatedDoc :=
  find (fun doc => truthy (upd_pdfStorageUrl doc)) updatedDocs.

(** The callback of [data.savedData.map]:
    [{ ...item, pdfStorageUrl: updatedDoc.pdfStorageUrl }] when an entry was
    found and the item has a [pdf] link. *)
Definition merge_item (updatedDocs : list UpdatedDoc) (item : TournamentData)
  : TournamentData :=
  match first_with_url updatedDocs with
  | Some updatedDoc =>
      if truthy (pdf item)
      then apply_patch (SetPdfStorageUrl (upd_pdfStorageUrl updatedDoc)) item
      else item
  | None => item
  end.

Definition mergePdfData (savedData : list TournamentData)
    (updatedDocs : list UpdatedDoc) : list TournamentData :=
  map (merge_item updatedDocs) savedData.

(** *** The manager page: [checkStatus], [handleUpload] *)

Inductive StepStatus := Idle | Loading | Success | Failure.

(** The page's state: a status and the data shown for each of the three
    steps.  An entry of the upload data is a [pdfStorageUrl] and an
    [exists] flag. *)
Record Steps := {
  searchStatus : StepStatus;
  searchData : option (list TournamentData);
  uploadStatus : StepStatus;
  uploadData : option (list (string * bool));
  extractStatus : StepStatus;
  extractData : option json
}.

Definition reset : Steps :=
  {| searchStatus := Idle; searchData := None;
     uploadStatus := Idle; uploadData := None;
     extractStatus := Idle; extractData := None |}.

(** A JSON value used as a condition. *)
Definition json_truthy (j : json) : bool :=
  match j with
  | JNull => false
  | JBool b => b
  | JNumber n => negb (n =? 0)%nat
  | JString s => truthy s
  | JArray _ => true
  | JObject _ => true
  end.

Definition info_truthy (info : option json) : bool :=
  match info with
  | Some j => json_truthy j
  | None => false
  end.

(** [checkStatus], from what [fetch] and [res.json()] give: the states are
    reset, then set from the record the lookup found; a rejection is logged
    and leaves them reset. *)
Definition checkStatus (reply : Answer Status.StatusBody) : Steps :=
  match reply with
  | Ok (Status.SFound d) =>
      {| searchStatus := Success;
         searchData := Some [d];
         uploadStatus := if truthy (pdfStorageUrl d) then Success else Idle;
         uploadData :=
           if truthy (pdfStorageUrl d) then Some [(pdfStorageUrl d, true)] else None;
         extractStatus := if info_truthy (tournamentInfo d) then Success else Idle;
         extractData :=
           if info_truthy (tournamentInfo d) then tournamentInfo d else None |}
  | _ => reset
  end.

(** What the page receives from a run of the status endpoint. *)
Definition reply_of (run : Outcome Status.StatusResponse * World)
  : Answer Status.StatusBody :=
  match fst run with
  | Returned r => Ok (Status.s_body r)
  | Thrown e => Fails e
  end.

(** Step 3 takes clicks when step 2 is marked done. *)
Definition extract_enabled (p : Steps) : bool :=
  match uploadStatus p with
  | Success => true
  | _ => false
  end.

(** [data.updatedDocs.some(doc => doc.exists)] *)
Definition alreadyExists (updatedDocs : list UpdatedDoc) : bool :=
  existsb upd_exists updatedDocs.

(** The toast of [handleUpload] after a 200. *)
Definition upload_toast (updatedDocs : list UpdatedDoc) : string :=
  if alreadyExists updatedDocs then "PDF already uploaded."
  else "PDF uploaded successfully!".

End Page.

Module Invariant.
Import JS Store.

(** A record has extracted information only if it has an archived copy. *)
Definition info_needs_copy (d : Doc) : Prop :=
  tournamentInfo (data d) <> None -> truthy (pdfStorageUrl (data d)) = true.

End Invariant.

(* ===================================================================== *)
(** ** The question-answering server over the rules document              *)
(* ===================================================================== *)

Module Rag.
Import JS Store.
Import Sys(Answer, Ok, Fails, Outcome, Returned, Thrown).

(** The handle of a vector index, and a retrieval chain: the index it
    retrieves from and how many documents it retrieves. *)
Definition VectorStore := nat.

Record QAChain := { chain_store : VectorStore; chain_k : nat }.

Inductive PageRef := PageNo (n : nat) | Unknown.

Record SourceDoc := { pageContent : string; metadata_page : option nat }.

(** What [qaChain.call] gives. *)
Record ChainResult := { text : string; sourceDocuments : option (list SourceDoc) }.

(** The awaited calls, in the order made. *)
Inductive Call :=
| CLoad (path : string)
| CSplitDocuments
| CFromDocuments (texts : list string)
| CChainCall (chain : QAChain) (question : string)
| CGetRelevantDocuments (vs : VectorStore) (k : nat) (q : string)
| CInvoke (prompt : string).

(** The module's two globals, and the calls made so far.  Console output
    is left out. *)
Record State := {
  _vectorStore : option VectorStore;
  _qaChain : option QAChain;
  calls : list Call
}.

(** The state the module starts in. *)
Definition initial : State :=
  {| _vectorStore := None; _qaChain := None; calls := [] |}.

(** The libraries.  Each oracle sees the state at the time of the call.
    The fixed texts of the three structuring prompts are fields, each a
    prefix and a suffix around the interpolated context. *)
Record Lib := {
  loader_load : State -> string -> Answer (list string);
  splitDocuments : State -> list string -> Answer (list string);
  fromDocuments : State -> list string -> Answer VectorStore;
  chain_call : State -> QAChain -> string -> Answer ChainResult;
  getRelevantDocuments : State -> VectorStore -> nat -> string -> Answer (list SourceDoc);
  llm_invoke : State -> string -> Answer string;
  JSON_parse : string -> Answer json;
  schedule_prompt : string * string;
  division1_prompt : string * string;
  division2_prompt : string * string;
  requirements_prompt : string * string
}.

(** *** The monad: the module state, and exceptions *)

Definition P (A : Type) : Type := State -> Outcome A * State.

Definition ret {A} (a : A) : P A := fun s => (Returned a, s).

Definition throw {A} (message : string) : P A := fun s => (Thrown message, s).

Definition bind {A B} (m : P A) (k : A -> P B) : P B :=
  fun s =>
    match m s with
    | (Returned a, s') => k a s'
    | (Thrown e, s') => (Thrown e, s')
    end.

Definition try_catch {A} (m : P A) (h : string -> P A) : P A :=
  fun s =>
    match m s with
    | (Returned a, s') => (Returned a, s')
    | (Thrown e, s') => h e s'
    end.

Declare Scope P_scope.
Delimit Scope P_scope with P.
Notation "x <- m ;; k" := (bind m (fun x => k))
  (at level 61, m at next level, right associativity) : P_scope.
Notation "m ;;; k" := (bind m (fun _ => k))
  (at level 61, right associativity) : P_scope.
Local Open Scope P_scope.

Fixpoint for_of {A S} (xs : list A) (body : S -> A -> P S) (acc : S) : P S :=
  match xs with
  | [] => ret acc
  | x :: xs' => acc' <- body acc x ;; for_of xs' body acc'
  end.

Definition called (s : State) (c : Call) : State :=
  {| _vectorStore := _vectorStore s; _qaChain := _qaChain s;
     calls := (calls s ++ [c])%list |}.

(** An awaited call: it is put on the record, then the library answers. *)
Definition call {A} (c : Call) (oracle : State -> Answer A) : P A :=
  fun s =>
    match oracle (called s c) with
    | Ok a => (Returned a, called s c)
    | Fails e => (Thrown e, called s c)
    end.

Definition set_vectorStore (v : option VectorStore) : P unit :=
  fun s => (Returned tt,
            {| _vectorStore := v; _qaChain := _qaChain s; calls := calls s |}).

Definition set_qaChain (c : option QAChain) : P unit :=
  fun s => (Returned tt,
            {| _vectorStore := _vectorStore s; _qaChain := c; calls := calls s |}).

Definition is_null {A} (o : option A) : bool :=
  match o with
  | None => true
  | Some _ => false
  end.

Definition PDF_PATH : string := "CCLSpring2025.pdf".

(** [clearPdfCache] *)
Definition clearPdfCache : P unit :=
  set_vectorStore None ;;; set_qaChain None.

(** [initializePdfProcessing]: build the index and the chain unless both
    are there; give the two globals.  The awaited calls may reject; the
    constructors between them (splitter, embeddings, model, prompt
    template, chain) are taken not to throw. *)
Definition initializePdfProcessing (lib : Lib)
  : P (option VectorStore * option QAChain) :=
  (fun s =>
     if is_null (_vectorStore s) || is_null (_qaChain s) then
       (documents <- call (CLoad PDF_PATH) (fun s => loader_load lib s PDF_PATH) ;;
        texts <- call CSplitDocuments (fun s => splitDocuments lib s documents) ;;
        vs <- call (CFromDocuments texts) (fun s => fromDocuments lib s texts) ;;
        set_vectorStore (Some vs) ;;;
        set_qaChain (Some {| chain_store := vs; chain_k := 5 |})) s
     else ret tt s) ;;;
  fun s => (Returned (_vectorStore s, _qaChain s), s).

(** [arr.join(sep)] *)
Fixpoint join (sep : string) (arr : list string) : string :=
  match arr with
  | [] => ""
  | [x] => x
  | x :: rest => x ++ sep ++ join sep rest
  end.

Record PdfAnswer := {
  answer : string;
  context : string;
  sourcePages : list PageRef
}.

Definition page_of (doc : SourceDoc) : PageRef :=
  match metadata_page doc with
  | Some n => PageNo n
  | None => Unknown
  end.

(** [queryPdfWithLangchain]; calling a method of [null] throws. *)
Definition queryPdfWithLangchain (lib : Lib) (question : string) : P PdfAnswer :=
  cache <- initializePdfProcessing lib ;;
  match snd cache with
  | None => throw "Cannot read properties of null (reading 'call')"
  | Some qaChain =>
      result <- call (CChainCall qaChain question)
                     (fun s => chain_call lib s qaChain question) ;;
      let sourceDocs :=
        match sourceDocuments result with
        | Some docs => docs
        | None => []
        end in
      ret {| answer := text result;
             context := join " " (map pageContent sourceDocs);
             sourcePages := map page_of sourceDocs |}
  end.

(** *** The endpoints *)

Inductive RBody :=
| RError (error : string)
| RResponse (response : string)
| RAnswer (answer context_used : string) (source_pages : list PageRef)
| RJson (j : json).

Record Reply := { r_code : nat; r_body : RBody }.

Definition send (c : nat) (b : RBody) : P Reply :=
  ret {| r_code := c; r_body := b |}.

Definition invoke (lib : Lib) (prompt : string) : P string :=
  call (CInvoke prompt) (fun s => llm_invoke lib s prompt).

Definition parse (lib : Lib) (content : string) : P json :=
  match JSON_parse lib content with
  | Ok j => ret j
  | Fails e => throw e
  end.

Definition fill (template : string * string) (x : string) : string :=
  fst template ++ x ++ snd template.

(** [POST /query-openai] *)
Definition query_openai (lib : Lib) (prompt : string) : P Reply :=
  try_catch
    (if negb (truthy prompt) then send 400 (RError "Prompt is required")
     else
       aiResponse <- invoke lib prompt ;;
       send 200 (RResponse aiResponse))
    (fun e => send 500 (RError ("Error querying OpenAI: " ++ e))).

(** [POST /ask-question] *)
Definition ask_question (lib : Lib) (question : string) : P Reply :=
  try_catch
    (if negb (truthy question) then send 400 (RError "Question is required")
     else
       result <- queryPdfWithLangchain lib question ;;
       send 200 (RAnswer (answer result) (context result) (sourcePages result)))
    (fun e => send 500 (RError ("Error processing question: " ++ e))).

Definition questions : list string :=
  [ "What date does registration open?";
    "What date does registration close?";
    "When is the schedule released?";
    "List off all the events in the section 'schedule:  '";
    "What time of day are rounds scheduled for the regular season for group A teams?  Please list off only the time in PT." ].

Definition newline : string := String (ascii_of_nat 10) EmptyString.

(** The body of [for (const question of questions)]. *)
Definition ask_one (lib : Lib) (combinedAnswers : list string) (question : string)
  : P (list string) :=
  result <- queryPdfWithLangchain lib question ;;
  let entry := "Q:  " ++ question ++ newline ++ "A: " ++ answer result ++ newline in
  ret (combinedAnswers ++ [entry])%list.

(** [POST /ask-multiple-questions] *)
Definition ask_multiple_questions (lib : Lib) : P Reply :=
  try_catch
    (combinedAnswers <- for_of questions (ask_one lib) [] ;;
     let finalResponse := join newline combinedAnswers in
     response <- invoke lib (fill (schedule_prompt lib) finalResponse) ;;
     structuredResponse <- parse lib response ;;
     send 200 (RJson structuredResponse))
    (fun e => send 500 (RError ("Error processing multiple questions: " ++ e))).

Definition division1_question : string :=
  "What are the dates of the 3 rounds:  Quarterfinals, Semifinals, Final and 3rd Place Match.  There may be multiple schedules; please provide the first schedule.".

Definition division2_question : string :=
  "List off the dates for the final rounds; round 1, quarterfinal, semifinal, final/3rd place".

(** [POST /get-final-rounds]; [is_division_1] is [None] when the field is
    not a boolean. *)
Definition get_final_rounds (lib : Lib) (is_division_1 : option bool) : P Reply :=
  try_catch
    (match is_division_1 with
     | None => send 400 (RError "is_division_1 (boolean) is required")
     | Some division1 =>
         let question := if division1 then division1_question else division2_question in
         result <- queryPdfWithLangchain lib question ;;
         let systemPrompt :=
           if division1 then fill (division1_prompt lib) (answer result)
           else fill (division2_prompt lib) (answer result) in
         aiResponse <- invoke lib systemPrompt ;;
         structuredResponse <- parse lib aiResponse ;;
         send 200 (RJson structuredResponse)
     end)
    (fun e => send 500 (RError ("Error processing final rounds: " ++ e))).

Definition eligibility_query : string :=
  "player eligibility requirements minimum account age blitz games section 5. 4".

(** [POST /get-player-requirements] *)
Definition get_player_requirements (lib : Lib) : P Reply :=
  try_catch
    (cache <- initializePdfProcessing lib ;;
     match fst cache with
     | None => throw "Cannot read properties of null (reading 'asRetriever')"
     | Some vectorStore =>
         eligibilityDocs <-
           call (CGetRelevantDocuments vectorStore 8 eligibility_query)
                (fun s => getRelevantDocuments lib s vectorStore 8 eligibility_query) ;;
         let combinedContext := join " " (map pageContent eligibilityDocs) in
         response <- invoke lib (fill (requirements_prompt lib) combinedContext) ;;
         structuredResponse <- parse lib response ;;
         send 200 (RJson structuredResponse)
     end)
    (fun e => send 500 (RError ("Error retrieving player requirements: " ++ e))).

(** *** Runs of the module *)

(** One thing done to the module: a request to an endpoint, or a call of
    one of the two exported functions. *)
Inductive Op :=
| OQueryOpenai (prompt : string)
| OAskQuestion (question : string)
| OAskMultipleQuestions
| OGetFinalRounds (is_division_1 : option bool)
| OGetPlayerRequirements
| OInitializePdfProcessing
| OClearPdfCache.

Definition run_op (lib : Lib) (op : Op) (s : State) : State :=
  match op with
  | OQueryOpenai prompt => snd (query_openai lib prompt s)
  | OAskQuestion question => snd (ask_question lib question s)
  | OAskMultipleQuestions => snd (ask_multiple_questions lib s)
  | OGetFinalRounds b => snd (get_final_rounds lib b s)
  | OGetPlayerRequirements => snd (get_player_requirements lib s)
  | OInitializePdfProcessing => snd (initializePdfProcessing lib s)
  | OClearPdfCache => snd (clearPdfCache s)
  end.

(** The state after a sequence of operations, one at a time, each with the
    libraries of its moment. *)
Definition run (ops : list (Lib * Op)) (s : State) : State :=
  fold_left (fun s lo => run_op (fst lo) (snd lo) s) ops s.

(** The cache is empty, or it holds an index and a chain over that index. *)
Definition coherent (s : State) : Prop :=
  match _vectorStore s, _qaChain s with
  | None, None => True
  | Some vs, Some chain => chain_store chain = vs
  | _, _ => False
  end.

Definition full (s : State) : bool :=
  negb (is_null (_vectorStore s)) && negb (is_null (_qaChain s)).

Definition is_load (c : Call) : bool :=
  match c with
  | CLoad _ => true
  | _ => false
  end.

Definition loads (cs : list Call) : nat := List.length (filter is_load cs).

(** The questions put to a chain, in order. *)
Fixpoint asked (cs : list Call) : list string :=
  match cs with
  | [] => []
  | CChainCall _ q :: cs' => q :: asked cs'
  | _ :: cs' => asked cs'
  end.

(** A program keeps the cache coherent. *)
Definition keeps_coherent {A} (m : P A) : Prop :=
  forall s o s', coherent s -> m s = (o, s') -> coherent s'.

(** How many loads of the document the state still allows a request. *)
Definition budget (s : State) : nat := if full s then 0 else 1.

(** The calls a program makes are on the record; a full cache stays full;
    the document is loaded at most once, and not at all when the cache is
    full. *)
Definition bounded {A} (m : P A) : Prop :=
  forall s o s',
    m s = (o, s') ->
    exists cs,
      calls s' = (calls s ++ cs)%list
      /\ (full s = true -> full s' = true)
      /\ loads cs <= budget s.

(** [bounded], and when the program returns: what it loaded is paid from
    the budget, and the questions it put to a chain are [qs]. *)
Definition within (qs : list string) {A} (m : P A) : Prop :=
  forall s o s',
    m s = (o, s') ->
    exists cs,
      calls s' = (calls s ++ cs)%list
      /\ (full s = true -> full s' = true)
      /\ loads cs <= budget s
      /\ (forall a, o = Returned a ->
                    loads cs + budget s' <= budget s /\ asked cs = qs).

(** Libraries for the examples: everything answers. *)
Definition lib_ok : Lib :=
  {| loader_load := fun _ _ => Ok ["page one"; "page two"];
     splitDocuments := fun _ docs => Ok docs;
     fromDocuments := fun _ _ => Ok 1;
     chain_call := fun _ _ q =>
       Ok {| text := "On Monday.";
             sourceDocuments :=
               Some [{| pageContent := "Registration opens on Monday.";
                        metadata_page := Some 2 |}] |};
     getRelevantDocuments := fun _ _ _ _ => Ok [];
     llm_invoke := fun _ _ => Ok "{}";
     JSON_parse := fun s => if String.eqb s "{}" then Ok (JObject [])
                            else Fails "Unexpected token";
     schedule_prompt := ("Context: ", " The output must be a valid JSON object.");
     division1_prompt := ("Context: ", " Division 1.");
     division2_prompt := ("Context: ", " Division 2 and below.");
     requirements_prompt := ("Context: ", " Return ONLY a JSON object.") |}.

End Rag.

(* ===================================================================== *)
(** ** The client-side search component                                    *)
(* ===================================================================== *)

Module Client.
Import JS Store Sys.
Local Open Scope M_scope.

(** The client-side search of the [CCLSearch] component: what it does to
    the collection, the bucket and the network.  The component's own
    state, its toasts and [console.log] are left out.  No document exists
    yet when a file is uploaded, so uploads carry the empty id. *)

Definition proxyUrl (encodeURIComponent : string -> string) (url : string) : string :=
  "https://api.allorigins.win/raw?url=" ++ encodeURIComponent url.

(** The body of [for (const url of filteredSources)]. *)
Definition scrape_source (env : Env) (encodeURIComponent : string -> string)
    (results : list Scrape.result) (url : string) : M (list Scrape.result) :=
  try_catch
    (res <- fetch env (proxyUrl encodeURIComponent url) ;;
     if negb (ok res) then
       throw ("Failed to fetch via proxy: " ++ show_nat (status res))
     else
       html <- await (body res) ;;
       let result := Scrape.scrape url (cheerio_anchors env html) in
       if Scrape.has_links result then ret (results ++ [result])%list
       else ret results)
    (fun e => console_error ("Failed to scrape " ++ url ++ " " ++ e) ;;; ret results).

(** The [try] block that archives the first document link of a page. *)
Definition upload_link (env : Env) (season year pdfLink : string) : M string :=
  match Archive.resolve pdfLink with
  | Some downloadUrl =>
      response <- fetch env downloadUrl ;;
      pdfBlob <- await (body response) ;;
      t <- now env ;;
      let fileName := Archive.fileName season year t in
      uploadBytes env "" fileName pdfBlob ;;;
      getDownloadURL env "" fileName
  | None => ret ""
  end.

(** [pdfStorageUrl] for one page: empty unless the upload went through. *)
Definition archived_url (env : Env) (season year : string) (result : Scrape.result)
  : M string :=
  match Scrape.pdf result with
  | pdfLink :: _ =>
      if truthy pdfLink then
        try_catch
          (upload_link env season year pdfLink)
          (fun e => console_error ("Error uploading PDF: " ++ e) ;;; ret "")
      else ret ""
  | [] => ret ""
  end.

Definition tournamentData (season year pdfStorageUrl : string) (result : Scrape.result)
  : TournamentData :=
  {| Store.season := season;
     Store.year := year;
     Store.source := Scrape.url result;
     Store.pdf := Scrape.first_or_empty (Scrape.pdf result);
     Store.pdfStorageUrl := pdfStorageUrl;
     Store.instructions := Scrape.first_or_empty (Scrape.instructions result);
     Store.registration := Scrape.first_or_empty (Scrape.registration result);
     Store.fairPlay := Scrape.first_or_empty (Scrape.fairPlay result);
     Store.platform := Scrape.first_or_empty (Scrape.platform result);
     Store.tournamentInfo := None |}.

(** The body of [for (const result of results)]. *)
Definition save (env : Env) (season year : string) (_ : unit) (result : Scrape.result)
  : M unit :=
  pdfStorageUrl <- archived_url env season year result ;;
  try_catch
    (addDoc env (tournamentData season year pdfStorageUrl result))
    (fun e => console_error ("Error adding document: " ++ e)).

(** [search] *)
Definition search (env : Env) (encodeURIComponent : string -> string)
    (season year : string) : M unit :=
  try_catch
    (docs <- getDocs env season year ;;
     match docs with
     | _ :: _ => ret tt
     | [] =>
         response <-
           fetch_with env "https://api.perplexity.ai/chat/completions"
                      (Some (Discover.searchQuery season year)) ;;
         if negb (ok response) then
           throw ("HTTP error! status: " ++ show_nat (status response))
         else
           text <- await (body response) ;;
           found <- await (perplexity_data env text) ;;
           let filteredSources := Filter.filteredSources season year (snd found) in
           results <- for_of filteredSources (scrape_source env encodeURIComponent) [] ;;
           for_of results (save env season year) tt
     end)
    (fun e => console_error e).

(** A record as the client creates it for the key [(s, y)]. *)
Definition created (s y : string) (d : Doc) : Prop :=
  season (data d) = s /\ year (data d) = y /\ tournamentInfo (data d) = None.

(** The collection was only appended to, with records created for [(s, y)]. *)
Definition extended (s y : string) (w w' : World) : Prop :=
  exists new, store w' = (store w ++ new)%list /\ Forall (created s y) new.

End Client.

(* ===================================================================== *)
(** ** Requests as they arrive                                             *)
(* ===================================================================== *)

Module Wire.
Import JS Sys.

(** [req.body] of a POST: an object with its [season] and [year] (the empty
    string for a missing field), or [null].  An absent body behaves as
    [null] does, with "undefined" for "null" in the message. *)
Inductive ReqBody :=
| Fields (season year : string)
| Null.

Record Incoming := { in_method : string; in_body : ReqBody }.

(** What [const { season, year } = req.body] throws on [null]. *)
Definition destructure_error : string :=
  "Cannot destructure property 'season' of 'req.body' as it is null.".

(** A POST handler on any incoming request.  On an object body it is the
    handler as modelled on [Request].  On [null] only the lines above the
    [try] run: the method check, then the destructuring, which throws. *)
Definition receive (handler : Env -> Request -> M Response) (env : Env) (i : Incoming)
  : M Response :=
  match in_body i with
  | Fields season year =>
      handler env {| method := in_method i; req_season := season; req_year := year |}
  | Null =>
      if negb (String.eqb (in_method i) "POST") then
        respond 405 (BMessage "Method not allowed")
      else throw destructure_error
  end.

End Wire.

(* ********************************************************************* *)
(** * Part II: properties                                                  *)
(* ********************************************************************* *)

(* ===================================================================== *)
(** ** Facts about the string primitives                                  *)
(* ===================================================================== *)

Section StringFacts.

Import JS.

Lemma append_assoc (a b c : string) : (a ++ b) ++ c = a ++ (b ++ c).
Proof. induction a as [|x a IH]; simpl; [reflexivity | now rewrite IH]. Qed.

Lemma length_append (a b : string) :
  String.length (a ++ b) = String.length a + String.length b.
Proof. induction a as [|x a IH]; simpl; [reflexivity | now rewrite IH]. Qed.

Lemma toLowerCase_app (a b : string) :
  toLowerCase (a ++ b) = toLowerCase a ++ toLowerCase b.
Proof. induction a as [|x a IH]; simpl; [reflexivity | now rewrite IH]. Qed.

(** A split of the lower-cased string is the image of a split of the string. *)
Lemma toLowerCase_split (s p q : string) :
  toLowerCase s = p ++ q ->
  exists a b, s = a ++ b /\ toLowerCase a = p /\ toLowerCase b = q.
Proof.
  revert s; induction p as [|x p IH]; intros s H.
  - exists "", s. simpl in *. auto.
  - destruct s as [|c s]; simpl in H; [discriminate|].
    injection H as Hc Hs.
    destruct (IH _ Hs) as (a & b & -> & Ha & Hb).
    exists (String c a), b. simpl. rewrite Hc, Ha. auto.
Qed.

Lemma startsWith_spec (s t : string) :
  startsWith s t = true <-> exists post, s = t ++ post.
Proof.
  revert s; induction t as [|b t IH]; intros s; simpl.
  - split; [intros _; now exists s | reflexivity].
  - destruct s as [|a s].
    + split; [discriminate | intros [post H]; discriminate].
    + rewrite andb_true_iff, Ascii.eqb_eq, IH. split.
      * intros [-> [post ->]]. now exists post.
      * intros [post H]. injection H as -> ->. split; [reflexivity | now exists post].
Qed.

Lemma includes_spec (s t : string) :
  includes s t = true <-> exists pre post, s = pre ++ t ++ post.
Proof.
  induction s as [|c s IH]; simpl.
  - rewrite orb_false_r, startsWith_spec. split.
    + intros [post H]. now exists "", post.
    + intros (pre & post & H). destruct pre; simpl in H.
      * now exists post.
      * discriminate.
  - rewrite orb_true_iff, startsWith_spec, IH. split.
    + intros [[post H] | (pre & post & H)].
      * now exists "", post.
      * exists (String c pre), post. simpl. now rewrite H.
    + intros (pre & post & H). destruct pre as [|x pre]; simpl in H.
      * left. now exists post.
      * right. injection H as _ H. now exists pre, post.
Qed.

End StringFacts.

(* ===================================================================== *)
(** ** The citation filter                                                *)
(* ===================================================================== *)

Section FilterFacts.
Import JS Filter.

Lemma includes_lower_ci (url tok : string) :
  includes (toLowerCase url) (toLowerCase tok) = true <-> contains_ci url tok.
Proof.
  rewrite includes_spec. unfold contains_ci. split.
  - intros (p & q & H).
    destruct (toLowerCase_split _ _ _ H) as (a & r & -> & Ha & Hr).
    destruct (toLowerCase_split _ _ _ Hr) as (w & b & -> & Hw & Hb).
    now exists a, w, b.
  - intros (pre & w & post & -> & Hw).
    exists (toLowerCase pre), (toLowerCase post).
    now rewrite !toLowerCase_app, Hw.
Qed.













End FilterFacts.

(* ===================================================================== *)
(** ** Link classification                                                *)
(* ===================================================================== *)

Section ClassifyFacts.
Import JS Scrape FirstWins.

Lemma arr_includes_In (arr : list string) (x : string) :
  arr_includes arr x = true <-> In x arr.
Proof.
  induction arr as [|y arr IH]; simpl.
  - split; [discriminate | tauto].
  - rewrite orb_true_iff, String.eqb_eq, IH. tauto.
Qed.

Lemma addLink_In (arr : list string) (link : string) : In link (addLink arr link).
Proof.
  unfold addLink. destruct (arr_includes arr link) eqn:E.
  - now apply arr_includes_In.
  - apply in_or_app. right. now left.
Qed.

Lemma addLink_head (x : string) (arr : list string) (link : string) :
  exists arr', addLink (x :: arr) link = x :: arr'.
Proof.
  unfold addLink. destruct (arr_includes (x :: arr) link).
  - now exists arr.
  - now exists (arr ++ [link])%list.
Qed.

(** [classify] acts on each bucket on its own. *)
Lemma classify_buckets (r : result) (el : Anchor) :
  pdf (classify r el) = bucket_step is_pdf (pdf r) el /\
  instructions (classify r el) = bucket_step is_instructions (instructions r) el /\
  registration (classify r el) = bucket_step is_registration (registration r) el /\
  fairPlay (classify r el) = bucket_step is_fairPlay (fairPlay r) el /\
  platform (classify r el) = bucket_step is_platform (platform r) el /\
  url (classify r el) = url r.
Proof.
  unfold classify, bucket_step. destruct (href el) as [h|]; [| tauto].
  destruct (truthy h); simpl; [| tauto].
  destruct (excluded (toLowerCase h)); simpl; tauto.
Qed.

Lemma scrape_buckets (anchors : list Anchor) (r : result) :
  pdf (fold_left classify anchors r) = fold_left (bucket_step is_pdf) anchors (pdf r) /\
  instructions (fold_left classify anchors r)
    = fold_left (bucket_step is_instructions) anchors (instructions r) /\
  registration (fold_left classify anchors r)
    = fold_left (bucket_step is_registration) anchors (registration r) /\
  fairPlay (fold_left classify anchors r)
    = fold_left (bucket_step is_fairPlay) anchors (fairPlay r) /\
  platform (fold_left classify anchors r)
    = fold_left (bucket_step is_platform) anchors (platform r) /\
  url (fold_left classify anchors r) = url r.
Proof.
  revert r. induction anchors as [|el anchors IH]; intros r; simpl.
  - tauto.
  - destruct (IH (classify r el)) as (H1 & H2 & H3 & H4 & H5 & H6).
    destruct (classify_buckets r el) as (E1 & E2 & E3 & E4 & E5 & E6).
    rewrite H1, H2, H3, H4, H5, H6, E1, E2, E3, E4, E5, E6. tauto.
Qed.

(** A bucket that has a first element keeps it. *)
Lemma bucket_keeps_head cond (anchors : list Anchor) (x : string) (arr : list string) :
  exists arr', fold_left (bucket_step cond) anchors (x :: arr) = x :: arr'.
Proof.
  revert arr. induction anchors as [|el anchors IH]; intros arr; simpl.
  - now exists arr.
  - unfold bucket_step at 2. destruct (href el) as [h|]; [| apply IH].
    destruct (truthy h && negb (excluded (toLowerCase h))
              && cond (toLowerCase (text el)) (toLowerCase h)); [| apply IH].
    destruct (addLink_head x arr h) as [arr' ->]. apply IH.
Qed.

(** The head of a bucket filled from empty is the first matched link. *)
Lemma bucket_first_match cond (anchors : list Anchor) :
  first_or_empty (fold_left (bucket_step cond) anchors []) = first_match cond anchors.
Proof.
  induction anchors as [|el anchors IH]; simpl; [reflexivity |].
  unfold bucket_step at 2. destruct (href el) as [h|]; [| exact IH].
  destruct (truthy h) eqn:Ht; simpl; [| exact IH].
  destruct (negb (excluded (toLowerCase h))); simpl; [| exact IH].
  destruct (cond (toLowerCase (text el)) (toLowerCase h)); [| exact IH].
  unfold addLink; simpl.
  destruct (bucket_keeps_head cond anchors h []) as [arr' ->].
  simpl. unfold or_else. now rewrite Ht.
Qed.

Lemma first_match_app cond (anchors more : list Anchor) :
  first_match cond anchors <> "" ->
  first_match cond (anchors ++ more)%list = first_match cond anchors.
Proof.
  induction anchors as [|el anchors IH]; simpl; intros H.
  - now contradiction H.
  - destruct (href el) as [h|]; [| now apply IH].
    destruct (truthy h && negb (excluded (toLowerCase h))
              && cond (toLowerCase (text el)) (toLowerCase h)); [reflexivity | now apply IH].
Qed.

End ClassifyFacts.

Section ClassifyClaims.
Import JS Scrape FirstWins Filter.

Lemma excluded_ci (h : string) :
  contains_ci h "chess.com/register" \/ contains_ci h "chess.com/login" ->
  excluded (toLowerCase h) = true.
Proof.
  unfold excluded. rewrite orb_true_iff.
  intros [H | H]; [left | right]; now apply includes_lower_ci in H.
Qed.

(** C7.  The anchor with href "https://drive.google.com/file/d/ABC123/view"
    and text "Download PDF" is put in the document bucket, whatever the
    buckets held before; an anchor whose href contains, letter case aside,
    the site's register or login path leaves every bucket as it was, and
    the anchor to "https://chess.com/register" leaves the empty result
    empty. *)
Theorem classify_drive_and_excluded :
  (forall r : result,
      In "https://drive.google.com/file/d/ABC123/view"
         (pdf (classify r {| href := Some "https://drive.google.com/file/d/ABC123/view";
                             text := "Download PDF" |})))
  /\ (forall u : string,
         pdf (scrape u [{| href := Some "https://drive.google.com/file/d/ABC123/view";
                           text := "Download PDF" |}])
         = ["https://drive.google.com/file/d/ABC123/view"])
  /\ (forall (r : result) (el : Anchor) (h : string),
         href el = Some h ->
         contains_ci h "chess.com/register" \/ contains_ci h "chess.com/login" ->
         classify r el = r)
  /\ (forall u : string,
         scrape u [{| href := Some "https://chess.com/register"; text := "Register" |}]
         = empty_result u).
Proof.
  split; [| split; [| split]].
  - intros r.
    destruct (classify_buckets r
                {| href := Some "https://drive.google.com/file/d/ABC123/view";
                   text := "Download PDF" |}) as [-> _].
    apply addLink_In.
  - intros u. reflexivity.
  - intros r el h Hh Hex. unfold classify. rewrite Hh.
    destruct (truthy h); simpl; [| reflexivity].
    now rewrite (excluded_ci h Hex).
  - intros u. reflexivity.
Qed.

Lemma classify_drive_and_excluded_witness :
  classify (empty_result "https://www.chess.com/clubs/ccl-spring-2026")
           {| href := Some "https://www.Chess.com/login?next=/home"; text := "Log In PDF" |}
  = empty_result "https://www.chess.com/clubs/ccl-spring-2026".
Proof.
  apply (proj1 (proj2 (proj2 classify_drive_and_excluded)) _ _
               "https://www.Chess.com/login?next=/home"); [reflexivity |].
  right. exists "https://www.", "Chess.com/login", "?next=/home".
  split; reflexivity.
Defined.

(** C9.  For a page [u] with anchors [anchors], each link field of the
    record built for it is the first link of the page matched into that
    bucket, and the empty string when there is none; [source] is the page.
    Anchors that follow on the same page do not replace a field that is
    set.  A field whose bucket is empty is the empty string.  Saving the
    page appends a document with exactly this record to the collection. *)
Theorem record_fields_first_wins :
  forall (season year u : string) (anchors : list Anchor),
    let d := Discover.tournamentData season year (scrape u anchors) in
    (Store.pdf d = first_match is_pdf anchors
     /\ Store.instructions d = first_match is_instructions anchors
     /\ Store.registration d = first_match is_registration anchors
     /\ Store.fairPlay d = first_match is_fairPlay anchors
     /\ Store.platform d = first_match is_platform anchors
     /\ Store.source d = u)
    /\ (forall more : list Anchor,
           let d' := Discover.tournamentData season year (scrape u (anchors ++ more)%list) in
           (Store.pdf d <> "" -> Store.pdf d' = Store.pdf d)
           /\ (Store.instructions d <> "" -> Store.instructions d' = Store.instructions d)
           /\ (Store.registration d <> "" -> Store.registration d' = Store.registration d)
           /\ (Store.fairPlay d <> "" -> Store.fairPlay d' = Store.fairPlay d)
           /\ (Store.platform d <> "" -> Store.platform d' = Store.platform d))
    /\ ((pdf (scrape u anchors) = [] -> Store.pdf d = "")
        /\ (instructions (scrape u anchors) = [] -> Store.instructions d = "")
        /\ (registration (scrape u anchors) = [] -> Store.registration d = "")
        /\ (fairPlay (scrape u anchors) = [] -> Store.fairPlay d = "")
        /\ (platform (scrape u anchors) = [] -> Store.platform d = ""))
    /\ (forall (env : Sys.Env) (saved out : list Store.TournamentData) (w w' : Sys.World),
           Discover.save env season year saved (scrape u anchors) w = (Sys.Returned out, w') ->
           out = (saved ++ [d])%list
           /\ exists i, Sys.store w' = (Sys.store w ++ [{| Store.id := i; Store.data := d |}])%list).
Proof.
  intros season year u anchors d.
  assert (Hfields : forall a : list Anchor,
             let e := Discover.tournamentData season year (scrape u a) in
             Store.pdf e = first_match is_pdf a
             /\ Store.instructions e = first_match is_instructions a
             /\ Store.registration e = first_match is_registration a
             /\ Store.fairPlay e = first_match is_fairPlay a
             /\ Store.platform e = first_match is_platform a
             /\ Store.source e = u).
  { intros a. simpl. unfold scrape.
    destruct (scrape_buckets a (empty_result u)) as (-> & -> & -> & -> & -> & ->).
    simpl. rewrite !bucket_first_match. repeat split. }
  split; [apply Hfields | split; [| split]].
  - intros more d'.
    destruct (Hfields anchors) as (E1 & E2 & E3 & E4 & E5 & _).
    destruct (Hfields (anchors ++ more)%list) as (F1 & F2 & F3 & F4 & F5 & _).
    fold d in E1, E2, E3, E4, E5. fold d' in F1, F2, F3, F4, F5.
    rewrite E1, E2, E3, E4, E5, F1, F2, F3, F4, F5.
    repeat split; apply first_match_app.
  - subst d. simpl. repeat split; intros ->; reflexivity.
  - intros env saved out w w' H. fold d in H.
    unfold Discover.save, Sys.addDoc, Sys.bind, Sys.log, Sys.ask in H. fold d in H.
    destruct (Sys.addDoc_answer env (Sys.logged w (Sys.EvAddDoc d)) d) as [i|e];
      simpl in H; [| discriminate].
    injection H as <- <-. split; [reflexivity | now exists i].
Qed.

(** A page with two document links and a late registration link. *)
Example record_of_sample_page :
  let anchors :=
    [ {| href := Some "https://www.chess.com/login"; text := "Log In" |};
      {| href := None; text := "Rules (PDF)" |};
      {| href := Some "https://drive.google.com/file/d/ABC123/view"; text := "Rulebook" |};
      {| href := Some "https://www.chess.com/ccl/old-rules.pdf"; text := "Old rules" |};
      {| href := Some "https://forms.gle/abc"; text := "Sign up here" |} ] in
  let d := Discover.tournamentData "spring" "2026"
             (scrape "https://www.chess.com/clubs/ccl-spring-2026" anchors) in
  Store.pdf d = "https://drive.google.com/file/d/ABC123/view"
  /\ Store.registration d = "https://forms.gle/abc"
  /\ Store.instructions d = ""
  /\ Store.pdfStorageUrl d = "".
Proof. cbv zeta. repeat split; reflexivity. Qed.

End ClassifyClaims.

(* ===================================================================== *)
(** ** Programs that keep a relation                                      *)
(* ===================================================================== *)

Section Preserve.
Import Store Sys Frame.

Context (R : World -> World -> Prop) {R_pre : PreOrder R}.

Lemma preserves_ret {A} (a : A) : preserves R (ret a).
Proof. intros w o w' H. injection H as _ <-. reflexivity. Qed.

Lemma preserves_throw {A} (e : string) : preserves R (@throw A e).
Proof. intros w o w' H. injection H as _ <-. reflexivity. Qed.

Lemma preserves_bind {A B} (m : M A) (k : A -> M B) :
  preserves R m -> (forall a, preserves R (k a)) -> preserves R (bind m k).
Proof.
  intros Hm Hk w o w' H. unfold bind in H.
  destruct (m w) as [[a|e] w1] eqn:E.
  - transitivity w1; [exact (Hm _ _ _ E) | exact (Hk _ _ _ _ H)].
  - injection H as _ <-. exact (Hm _ _ _ E).
Qed.

Lemma preserves_try_catch {A} (m : M A) (h : string -> M A) :
  preserves R m -> (forall e, preserves R (h e)) -> preserves R (try_catch m h).
Proof.
  intros Hm Hh w o w' H. unfold try_catch in H.
  destruct (m w) as [[a|e] w1] eqn:E.
  - injection H as _ <-. exact (Hm _ _ _ E).
  - transitivity w1; [exact (Hm _ _ _ E) | exact (Hh _ _ _ _ H)].
Qed.

Lemma preserves_for_of {A S} (xs : list A) (body : S -> A -> M S) :
  (forall acc x, In x xs -> preserves R (body acc x)) ->
  forall acc, preserves R (for_of xs body acc).
Proof.
  induction xs as [|x xs IH]; intros Hbody acc; simpl.
  - apply preserves_ret.
  - apply preserves_bind.
    + apply Hbody. now left.
    + intros acc'. apply IH. intros a y Hy. apply Hbody. now right.
Qed.

Lemma preserves_await {A} (a : Answer A) : preserves R (await a).
Proof. destruct a; [apply preserves_ret | apply preserves_throw]. Qed.

Lemma preserves_ask {A} (oracle : World -> Answer A) : preserves R (ask oracle).
Proof. intros w o w' H. unfold ask in H. exact (preserves_await _ _ _ _ H). Qed.

Lemma preserves_now (env : Env) : preserves R (now env).
Proof. intros w o w' H. injection H as _ <-. reflexivity. Qed.

Lemma preserves_respond (c : nat) (b : Body) : preserves R (respond c b).
Proof. apply preserves_ret. Qed.

(** Once logging an event keeps [R], so does the call that logs it. *)
Lemma preserves_log (e : Event) :
  (forall w, R w (logged w e)) -> preserves R (log e).
Proof. intros H w o w' E. injection E as _ <-. apply H. Qed.

End Preserve.

Section Primitives.
Import Store Sys Frame.

Context (R : World -> World -> Prop) {R_pre : PreOrder R}.

Lemma keeps_console_error (msg : string) :
  (forall w, R w (logged w (EvConsoleError msg))) -> preserves R (console_error msg).
Proof. intros H. now apply preserves_log. Qed.

Lemma keeps_getDocs (env : Env) (s y : string) :
  (forall w, R w (logged w (EvGetDocs s y))) -> preserves R (getDocs env s y).
Proof.
  intros H. unfold getDocs.
  apply preserves_bind; [exact _ | now apply preserves_log | intros _].
  apply preserves_bind; [exact _ | now apply preserves_ask | intros _].
  intros w o w' E. injection E as _ <-. reflexivity.
Qed.

Lemma keeps_fetch_with (env : Env) (u : string) (post : option string) :
  (forall w, R w (logged w (EvFetch u post))) -> preserves R (fetch_with env u post).
Proof.
  intros H. unfold fetch_with.
  apply preserves_bind; [exact _ | now apply preserves_log | intros _].
  now apply preserves_ask.
Qed.

Lemma keeps_invoke (env : Env) (prompt : string) :
  (forall w, R w (logged w (EvInvoke prompt))) -> preserves R (invoke env prompt).
Proof.
  intros H. unfold invoke.
  apply preserves_bind; [exact _ | now apply preserves_log | intros _].
  now apply preserves_ask.
Qed.

Lemma keeps_getDownloadURL (env : Env) (doc path : string) :
  (forall w, R w (logged w (EvGetDownloadURL doc path))) ->
  preserves R (getDownloadURL env doc path).
Proof.
  intros H. unfold getDownloadURL.
  apply preserves_bind; [exact _ | now apply preserves_log | intros _].
  now apply preserves_ask.
Qed.

Lemma keeps_uploadBytes (env : Env) (doc path bytes : string) :
  (forall w, R w (logged w (EvUploadBytes doc path bytes))) ->
  (forall w b, R w {| store := store w; bucket := b; trace := trace w |}) ->
  preserves R (uploadBytes env doc path bytes).
Proof.
  intros H Hb. unfold uploadBytes.
  apply preserves_bind; [exact _ | now apply preserves_log | intros _].
  apply preserves_bind; [exact _ | now apply preserves_ask | intros _].
  intros w o w' E. injection E as _ <-. apply Hb.
Qed.

Lemma keeps_updateDoc (env : Env) (i : string) (p : Patch) :
  (forall w, R w (logged w (EvUpdateDoc i p))) ->
  (forall w, R w {| store := update i p (store w); bucket := bucket w; trace := trace w |}) ->
  preserves R (updateDoc env i p).
Proof.
  intros H Hs. unfold updateDoc.
  apply preserves_bind; [exact _ | now apply preserves_log | intros _].
  apply preserves_bind; [exact _ | now apply preserves_ask | intros _].
  intros w o w' E. destruct (existsb (has_id i) (store w)).
  - injection E as _ <-. apply Hs.
  - injection E as _ <-. reflexivity.
Qed.

End Primitives.

(** *** What a bind and a try-catch that ended can have done *)

Section Inversion.
Import Store Sys Frame.

Lemma bind_inv {A B} (m : M A) (k : A -> M B) (w w' : World) (o : Outcome B) :
  bind m k w = (o, w') ->
  (exists a w1, m w = (Returned a, w1) /\ k a w1 = (o, w'))
  \/ (exists e, m w = (Thrown e, w') /\ o = Thrown e).
Proof.
  unfold bind. destruct (m w) as [[a|e] w1]; intros H.
  - left. now exists a, w1.
  - right. injection H as <- <-. now exists e.
Qed.

Lemma try_catch_inv {A} (m : M A) (h : string -> M A) (w w' : World) (o : Outcome A) :
  try_catch m h w = (o, w') ->
  (exists a, m w = (Returned a, w') /\ o = Returned a)
  \/ (exists e w1, m w = (Thrown e, w1) /\ h e w1 = (o, w')).
Proof.
  unfold try_catch. destruct (m w) as [[a|e] w1]; intros H.
  - left. injection H as <- <-. now exists a.
  - right. now exists e, w1.
Qed.

Lemma ret_inv {A} (a : A) (w w' : World) (o : Outcome A) :
  ret a w = (o, w') -> o = Returned a /\ w' = w.
Proof. intros H. injection H as <- <-. now split. Qed.

Lemma getDocs_inv (env : Env) (s y : string) (w w' : World) (docs : list Doc) :
  getDocs env s y w = (Returned docs, w') ->
  docs = query s y (store w) /\ w' = logged w (EvGetDocs s y).
Proof.
  unfold getDocs, bind, log, ask. simpl.
  destruct (getDocs_answer env (logged w (EvGetDocs s y))); simpl; intros H.
  - injection H as <- <-. now split.
  - discriminate.
Qed.

Lemma updateDoc_inv (env : Env) (i : string) (p : Patch) (w w' : World) (o : Outcome unit) :
  updateDoc env i p w = (o, w') ->
  (o = Returned tt /\ store w' = update i p (store w)
   /\ trace w' = (trace w ++ [EvUpdateDoc i p])%list)
  \/ (exists e, o = Thrown e /\ store w' = store w).
Proof.
  unfold updateDoc, bind, log, ask. simpl.
  destruct (updateDoc_answer env (logged w (EvUpdateDoc i p)) i); simpl.
  - destruct (existsb (has_id i) (store w)); intros H; injection H as <- <-.
    + left. repeat split.
    + right. now eexists.
  - intros H. injection H as <- <-. right. now eexists.
Qed.

End Inversion.

(** *** The relations kept are preorders *)

Section Preorders.
Import Store Sys Frame.

#[export] Instance same_store_pre : PreOrder same_store.
Proof.
  split.
  - intros w. reflexivity.
  - intros a b c Hab Hbc. unfold same_store in *. congruence.
Qed.

#[export] Instance no_fetch_pre : PreOrder no_fetch.
Proof.
  split.
  - intros w. exists []. split; [now rewrite app_nil_r | reflexivity].
  - intros a b c (e1 & H1 & F1) (e2 & H2 & F2). exists (e1 ++ e2)%list. split.
    + now rewrite H2, H1, app_assoc.
    + rewrite existsb_app, F1, F2. reflexivity.
Qed.

#[export] Instance untouched_pre (i : string) : PreOrder (untouched i).
Proof.
  split.
  - intros w. split; reflexivity.
  - intros a b c [H1 H2] [H3 H4]. split; congruence.
Qed.

#[export] Instance fetches_of_pre (first : option Doc) : PreOrder (fetches_of first).
Proof.
  split.
  - intros w. exists []. split; [now rewrite app_nil_r | constructor].
  - intros a b c (e1 & H1 & F1) (e2 & H2 & F2). exists (e1 ++ e2)%list. split.
    + now rewrite H2, H1, app_assoc.
    + apply Forall_app. now split.
Qed.

#[export] Instance fetches_resolved_pre (docs : list Doc) : PreOrder (fetches_resolved docs).
Proof.
  split.
  - intros w. exists []. split; [now rewrite app_nil_r | constructor].
  - intros a b c (e1 & H1 & F1) (e2 & H2 & F2). exists (e1 ++ e2)%list. split.
    + now rewrite H2, H1, app_assoc.
    + apply Forall_app. now split.
Qed.

#[export] Instance same_ids_pre : PreOrder same_ids.
Proof.
  split.
  - intros w. reflexivity.
  - intros a b c Hab Hbc. unfold same_ids in *. congruence.
Qed.

End Preorders.

(* ===================================================================== *)
(** ** Discovery on a key that is already recorded                        *)
(* ===================================================================== *)

Section DiscoverClaims.
Import JS Store Sys.

(** C1.  A POST for a [(season, year)] whose query finds at least one
    document answers 200 with [exists: true] and the data of the documents
    found.  The only call made is the query: the collection and the bucket
    are as before, nothing is fetched and nothing is inserted. *)
Theorem discover_existing_is_noop :
  forall (env : Env) (req : Request) (w : World) (d : Doc) (ds : list Doc),
    method req = "POST" ->
    truthy (req_season req) = true ->
    truthy (req_year req) = true ->
    let w1 := logged w (EvGetDocs (req_season req) (req_year req)) in
    getDocs_answer env w1 = Ok tt ->
    query (req_season req) (req_year req) (store w) = d :: ds ->
    Discover.handler env req w
    = (Returned
         {| code := 200;
            json_body :=
              BExists ("Tournament info for " ++ req_season req ++ " " ++ req_year req
                       ++ " already exists.")
                      (map data (d :: ds)) |},
       w1)
    /\ store w1 = store w
    /\ bucket w1 = bucket w
    /\ trace w1 = (trace w ++ [EvGetDocs (req_season req) (req_year req)])%list.
Proof.
  intros env req w d ds Hm Hs Hy w1 Hq Hdocs.
  split; [| repeat split].
  unfold Discover.handler. rewrite Hm, Hs, Hy. simpl.
  unfold try_catch, bind, getDocs, bind, log, ask. fold w1.
  rewrite Hq. simpl. subst w1. simpl. rewrite Hdocs. reflexivity.
Qed.

Lemma discover_existing_is_noop_witness :
  Discover.handler Sample.env_ok Sample.spring_2026
                   (Sample.world_of [Sample.fresh_doc; Sample.archived_doc])
  = (Returned
       {| code := 200;
          json_body :=
            BExists "Tournament info for spring 2026 already exists."
                    [data Sample.fresh_doc; data Sample.archived_doc] |},
     logged (Sample.world_of [Sample.fresh_doc; Sample.archived_doc])
            (EvGetDocs "spring" "2026")).
Proof.
  apply (discover_existing_is_noop Sample.env_ok Sample.spring_2026
           (Sample.world_of [Sample.fresh_doc; Sample.archived_doc])
           Sample.fresh_doc [Sample.archived_doc]); reflexivity.
Defined.

End DiscoverClaims.

(* ===================================================================== *)
(** ** Archival: resolving a drive link                                   *)
(* ===================================================================== *)

Section ResolveFacts.
Import JS Archive Shape.

Lemma startsWith_app_long (t a b : string) :
  String.length t <= String.length a ->
  startsWith (a ++ b) t = startsWith a t.
Proof.
  revert a. induction t as [|x t IH]; intros a H; simpl; [reflexivity |].
  destruct a as [|y a]; simpl in *; [lia |].
  rewrite IH by lia. reflexivity.
Qed.

Lemma lazy_until_slash_identifier (f post : string) :
  all_chars (fun c => negb (Ascii.eqb c "/") && negb (is_line_terminator c)) f = true ->
  lazy_until_slash (f ++ "/" ++ post) = Some f.
Proof.
  induction f as [|c f IH]; intros H; simpl in *; [reflexivity |].
  apply andb_true_iff in H as [Hc Hf]. apply andb_true_iff in Hc as [Hs Hl].
  apply negb_true_iff in Hs, Hl. rewrite Hs, Hl, (IH Hf). reflexivity.
Qed.

Lemma group_at_identifier (fid post : string) :
  identifier fid = true -> group_at (fid ++ "/" ++ post) = Some fid.
Proof.
  unfold identifier. intros H. apply andb_true_iff in H as [Ht Hall].
  destruct fid as [|c f]; [discriminate |]. simpl in *.
  apply andb_true_iff in Hall as [Hc Hf]. apply andb_true_iff in Hc as [_ Hl].
  apply negb_true_iff in Hl. rewrite Hl.
  pose proof (lazy_until_slash_identifier f post Hf) as E. simpl in E.
  now rewrite E.
Qed.

(** With no [/d/] starting earlier, the match is decided at the marker. *)
Lemma driveIdMatch_at_first_marker (pre rest g : string) :
  includes (pre ++ "/d") "/d/" = false ->
  group_at rest = Some g ->
  driveIdMatch (pre ++ "/d/" ++ rest) = Some g.
Proof.
  intros Hpre Hg. induction pre as [|c pre IH].
  - simpl. now rewrite Hg.
  - simpl in Hpre. apply orb_false_iff in Hpre as [Hhere Hlater].
    change (String c pre ++ "/d/" ++ rest) with (String c (pre ++ "/d/" ++ rest)).
    assert (Hno : startsWith (String c (pre ++ "/d/" ++ rest)) "/d/" = false).
    { change (String c (pre ++ "/d/" ++ rest))
        with (String c pre ++ ("/d" ++ ("/" ++ rest))).
      rewrite <- append_assoc.
      rewrite startsWith_app_long; [exact Hhere |].
      simpl. rewrite length_append. simpl. lia. }
    cbn [driveIdMatch]. rewrite Hno. now apply IH.
Qed.

Lemma lazy_until_slash_sound (s g : string) :
  lazy_until_slash s = Some g -> exists post, s = g ++ "/" ++ post.
Proof.
  revert g. induction s as [|c s IH]; simpl; intros g H; [discriminate |].
  destruct (Ascii.eqb c "/") eqn:Hc.
  - injection H as <-. apply Ascii.eqb_eq in Hc as ->. now exists s.
  - destruct (is_line_terminator c); [discriminate |].
    destruct (lazy_until_slash s) as [g'|]; [| discriminate].
    injection H as <-. destruct (IH g' eq_refl) as [post ->]. now exists post.
Qed.

Lemma group_at_sound (s g : string) :
  group_at s = Some g -> g <> "" /\ exists post, s = g ++ "/" ++ post.
Proof.
  destruct s as [|c s]; simpl; [discriminate |].
  destruct (is_line_terminator c); [discriminate |].
  destruct (lazy_until_slash s) as [g'|] eqn:E; [| discriminate].
  intros H. injection H as <-. split; [discriminate |].
  destruct (lazy_until_slash_sound s g' E) as [post ->]. now exists post.
Qed.

Lemma slice_startsWith (s t : string) :
  startsWith s t = true -> s = t ++ slice (String.length t) s.
Proof.
  revert s. induction t as [|b t IH]; intros s; simpl; [reflexivity |].
  destruct s as [|a s]; [discriminate |].
  intros H. apply andb_true_iff in H as [Hab Hrest].
  apply Ascii.eqb_eq in Hab as ->. now rewrite <- (IH s Hrest).
Qed.

(** What a match means: the capture is a non-empty text that stands between
    [/d/] and a [/] of the link. *)
Lemma driveIdMatch_sound (link g : string) :
  driveIdMatch link = Some g ->
  g <> "" /\ exists pre post, link = pre ++ "/d/" ++ g ++ "/" ++ post.
Proof.
  induction link as [|c link IH]; intros H.
  - simpl in H. discriminate.
  - cbn [driveIdMatch] in H.
    destruct (startsWith (String c link) "/d/") eqn:Hs.
    + destruct (group_at (slice 3 (String c link))) as [g'|] eqn:Hg.
      * injection H as <-. destruct (group_at_sound _ _ Hg) as [Hne [post Hpost]].
        split; [exact Hne |]. exists "", post.
        rewrite (slice_startsWith _ _ Hs). simpl String.length.
        rewrite Hpost. reflexivity.
      * destruct (IH H) as [Hne (pre & post & ->)].
        split; [exact Hne |]. now exists (String c pre), post.
    + destruct (IH H) as [Hne (pre & post & ->)].
      split; [exact Hne |]. now exists (String c pre), post.
Qed.

Lemma resolve_Some (link url : string) :
  resolve link = Some url <->
  exists fid, driveIdMatch link = Some fid /\ url = downloadUrl fid.
Proof.
  unfold resolve. destruct (driveIdMatch link) as [fid|] eqn:E.
  - destruct (driveIdMatch_sound _ _ E) as [Hne _].
    destruct fid as [|c f]; [now contradiction Hne |]. simpl. split.
    + intros H. injection H as <-. now exists (String c f).
    + intros (fid & H & ->). now injection H as <-.
  - split; [discriminate | intros (fid & H & _); discriminate].
Qed.

Lemma resolve_None (link : string) :
  resolve link = None <-> driveIdMatch link = None.
Proof.
  unfold resolve. destruct (driveIdMatch link) as [fid|] eqn:E.
  - destruct (driveIdMatch_sound _ _ E) as [Hne _].
    destruct fid as [|c f]; [now contradiction Hne |]. simpl.
    split; discriminate.
  - tauto.
Qed.

(** C8.  A link whose first [/d/] is followed by a file identifier and a
    [/] resolves to the direct-download URL that ends in [id=] and that
    identifier.  The link of the specification, with and without its host,
    resolves to [...id=XYZ789]. *)
Theorem drive_link_resolves :
  (forall pre fid post : string,
      includes (pre ++ "/d") "/d/" = false ->
      identifier fid = true ->
      resolve (pre ++ "/d/" ++ fid ++ "/" ++ post)
      = Some ("https://drive.google.com/uc?export=download&id=" ++ fid))
  /\ resolve "https://drive.google.com/file/d/XYZ789/view?usp=sharing"
     = Some "https://drive.google.com/uc?export=download&id=XYZ789"
  /\ resolve ".../d/XYZ789/view?usp=sharing"
     = Some "https://drive.google.com/uc?export=download&id=XYZ789".
Proof.
  split; [| split; reflexivity].
  intros pre fid post Hpre Hid.
  apply resolve_Some. exists fid. split; [| reflexivity].
  apply driveIdMatch_at_first_marker; [exact Hpre |].
  now apply group_at_identifier.
Qed.

Lemma drive_link_resolves_witness :
  resolve ("https://drive.google.com/file" ++ "/d/" ++ "1AbC_dEf-123" ++ "/" ++ "preview")
  = Some ("https://drive.google.com/uc?export=download&id=" ++ "1AbC_dEf-123").
Proof.
  apply (proj1 drive_link_resolves "https://drive.google.com/file" "1AbC_dEf-123" "preview");
    reflexivity.
Defined.

End ResolveFacts.

(* ===================================================================== *)
(** ** Extraction                                                         *)
(* ===================================================================== *)

Section ExtractClaims.
Import JS Store Sys Shape.

(** C3, as stated, fails: the handler looks at the first document of the
    query only.  Here the record "doc1" of spring 2026 has no archived
    document, yet extraction for spring 2026 answers 200, after fetching the
    archived document of "doc3" and calling the model. *)
Lemma extract_passes_over_unarchived_record :
  let w := Sample.world_of [Sample.archived_doc; Sample.fresh_doc] in
  let run := Extract.handler Sample.env_ok Sample.spring_2026 w in
  In Sample.fresh_doc (store w)
  /\ pdfStorageUrl (data Sample.fresh_doc) = ""
  /\ season (data Sample.fresh_doc) = req_season Sample.spring_2026
  /\ year (data Sample.fresh_doc) = req_year Sample.spring_2026
  /\ fst run
     = Returned {| code := 200;
                   json_body :=
                     BExtract "Tournament info extracted and saved successfully"
                              (JObject []) |}
  /\ existsb is_fetch (trace (snd run)) = true
  /\ existsb is_invoke (trace (snd run)) = true.
Proof.
  cbv zeta. split; [right; left; reflexivity |]. repeat split; reflexivity.
Qed.

(** C3, amended.  When the first document the query returns for
    [(season, year)] has an empty [pdfStorageUrl], a POST answers 400
    "PDF has not been uploaded yet.".  The only call made is the query:
    no fetch, no model call, and the collection is as before. *)
Theorem extract_requires_archived_first :
  forall (env : Env) (req : Request) (w : World) (d : Doc) (ds : list Doc),
    method req = "POST" ->
    truthy (req_season req) = true ->
    truthy (req_year req) = true ->
    let w1 := logged w (EvGetDocs (req_season req) (req_year req)) in
    getDocs_answer env w1 = Ok tt ->
    query (req_season req) (req_year req) (store w) = d :: ds ->
    pdfStorageUrl (data d) = "" ->
    Extract.handler env req w
    = (Returned {| code := 400; json_body := BMessage "PDF has not been uploaded yet." |},
       w1)
    /\ store w1 = store w
    /\ trace w1 = (trace w ++ [EvGetDocs (req_season req) (req_year req)])%list.
Proof.
  intros env req w d ds Hm Hs Hy w1 Hq Hdocs Hurl.
  split; [| split; reflexivity].
  unfold Extract.handler. rewrite Hm, Hs, Hy. simpl.
  unfold try_catch, bind, getDocs, bind, log, ask. fold w1.
  rewrite Hq. simpl. subst w1. simpl. rewrite Hdocs, Hurl. reflexivity.
Qed.

Lemma extract_requires_archived_first_witness :
  Extract.handler Sample.env_ok Sample.spring_2026
                  (Sample.world_of [Sample.fresh_doc; Sample.archived_doc])
  = (Returned {| code := 400; json_body := BMessage "PDF has not been uploaded yet." |},
     logged (Sample.world_of [Sample.fresh_doc; Sample.archived_doc])
            (EvGetDocs "spring" "2026")).
Proof.
  apply (extract_requires_archived_first Sample.env_ok Sample.spring_2026
           (Sample.world_of [Sample.fresh_doc; Sample.archived_doc])
           Sample.fresh_doc [Sample.archived_doc]); reflexivity.
Defined.

(** C5, as stated, fails on the status: a reply that does not parse is
    answered with 500, not 502. *)
Lemma extract_parse_failure_is_500 :
  let w := Sample.world_of [Sample.archived_doc] in
  let run := Extract.handler Sample.env_prose Sample.spring_2026 w in
  JSON_parse Sample.env_prose (Extract.strip_fences "I could not find a schedule.") = None
  /\ fst run
     = Returned {| code := 500;
                   json_body := BError "Internal server error"
                                       "Failed to parse LLM response" |}
  /\ status_code run = Some 500
  /\ status_code run <> Some 502.
Proof.
  cbv zeta. split; [reflexivity |]. split; [reflexivity |].
  split; [reflexivity | discriminate].
Qed.

(** C5, amended.  When the archived document is fetched and read, the model
    replies, and the reply, stripped of its code fences, does not parse as
    JSON, the call answers 500 "Internal server error" with the error
    "Failed to parse LLM response".  No update is made: the collection,
    and so every [tournamentInfo], is as before. *)
Theorem extract_parse_failure :
  forall (env : Env) (req : Request) (w : World) (d : Doc) (ds : list Doc)
         (resp : FetchResponse) (buffer fullText content : string),
    method req = "POST" ->
    truthy (req_season req) = true ->
    truthy (req_year req) = true ->
    let w1 := logged w (EvGetDocs (req_season req) (req_year req)) in
    getDocs_answer env w1 = Ok tt ->
    query (req_season req) (req_year req) (store w) = d :: ds ->
    truthy (pdfStorageUrl (data d)) = true ->
    let w2 := logged w1 (EvFetch (pdfStorageUrl (data d)) None) in
    fetch_answer env w2 (pdfStorageUrl (data d)) = Ok resp ->
    ok resp = true ->
    body resp = Ok buffer ->
    pdf_text env buffer = Ok fullText ->
    let w3 := logged w2 (EvInvoke (Extract.prompt env fullText)) in
    invoke_answer env w3 (Extract.prompt env fullText) = Ok content ->
    JSON_parse env (Extract.strip_fences content) = None ->
    let w5 :=
      logged (logged w3 (EvConsoleError "Failed to parse tournament info JSON"))
             (EvConsoleError "Error extracting info: Failed to parse LLM response") in
    Extract.handler env req w
    = (Returned {| code := 500;
                   json_body := BError "Internal server error"
                                       "Failed to parse LLM response" |},
       w5)
    /\ store w5 = store w
    /\ updates_of (id d) (trace w5) = updates_of (id d) (trace w).
Proof.
  intros env req w d ds resp buffer fullText content Hm Hs Hy w1 Hq Hdocs Hurl
         w2 Hfetch Hok Hbody Htext w3 Hinvoke Hparse w5.
  split; [| split].
  - unfold Extract.handler. rewrite Hm, Hs, Hy. simpl.
    unfold try_catch, bind, getDocs, bind, log, ask. fold w1.
    rewrite Hq. simpl. replace (store w1) with (store w) by reflexivity.
    rewrite Hdocs, Hurl. simpl.
    unfold Extract.extract_and_save, Extract.fetch_text, fetch, fetch_with, bind, log, ask.
    fold w2.
    rewrite Hfetch. simpl. rewrite Hok, Hbody. simpl. rewrite Htext. simpl.
    unfold Extract.query_model, invoke, bind, log, ask. fold w3. rewrite Hinvoke. simpl.
    unfold Extract.parse_content. rewrite Hparse. reflexivity.
  - reflexivity.
  - subst w5 w3 w2 w1. simpl.
    rewrite <- !app_assoc. simpl.
    induction (trace w) as [|e t IH]; simpl; [reflexivity |].
    destruct e; simpl; now rewrite ?IH.
Qed.

Lemma extract_parse_failure_witness :
  fst (Extract.handler Sample.env_prose Sample.spring_2026
                       (Sample.world_of [Sample.archived_doc]))
  = Returned {| code := 500;
                json_body := BError "Internal server error"
                                    "Failed to parse LLM response" |}.
Proof.
  refine (f_equal fst
            (proj1 (extract_parse_failure Sample.env_prose Sample.spring_2026
                      (Sample.world_of [Sample.archived_doc])
                      Sample.archived_doc []
                      {| ok := true; status := 200; statusText := "OK";
                         body := Ok Sample.pdf_bytes |}
                      Sample.pdf_bytes "Collegiate Chess League rules"
                      "I could not find a schedule."
                      _ _ _ _ _ _ _ _ _ _ _ _))); reflexivity.
Defined.

End ExtractClaims.

(* ===================================================================== *)
(** ** Extraction writes one field of one record                          *)
(* ===================================================================== *)

Section SameStore.
Import Store Sys Frame.

Lemma same_store_logged (w : World) (e : Event) : same_store w (logged w e).
Proof. reflexivity. Qed.

Lemma fetch_text_same_store (env : Env) (url : string) :
  preserves same_store (Extract.fetch_text env url).
Proof.
  unfold Extract.fetch_text.
  apply preserves_bind; [exact _ | | intros response].
  - apply keeps_fetch_with; [exact _ | intros w; apply same_store_logged].
  - destruct (negb (ok response)); [apply preserves_throw; exact _ |].
    apply preserves_bind; [exact _ | | intros buffer]; apply preserves_await; exact _.
Qed.

Lemma query_model_same_store (env : Env) (fullText : string) :
  preserves same_store (Extract.query_model env fullText).
Proof.
  unfold Extract.query_model, Extract.parse_content.
  apply preserves_bind; [exact _ | | intros content].
  - apply keeps_invoke; [exact _ | intros w; apply same_store_logged].
  - destruct (JSON_parse env (Extract.strip_fences content)).
    + apply preserves_ret; exact _.
    + apply preserves_bind; [exact _ | | intros _].
      * apply keeps_console_error. intros w; apply same_store_logged.
      * apply preserves_throw; exact _.
Qed.

Lemma catch_same_store (e : string) :
  preserves same_store
    (bind (console_error ("Error extracting info: " ++ e))
          (fun _ => respond 500 (BError "Internal server error" e))).
Proof.
  apply preserves_bind; [exact _ | | intros _].
  - apply keeps_console_error. intros w; apply same_store_logged.
  - apply preserves_respond; exact _.
Qed.

(** The part of the handler that follows the precondition check. *)
Lemma extract_and_save_effect (env : Env) (d0 : Doc) (w w' : World)
      (o : Outcome Response) :
  Extract.extract_and_save env d0 w = (o, w') ->
  (exists e, o = Thrown e /\ store w' = store w)
  \/ (exists info,
         o = Returned {| code := 200;
                         json_body :=
                           BExtract "Tournament info extracted and saved successfully"
                                    info |}
         /\ store w' = update (id d0) (SetTournamentInfo info) (store w)).
Proof.
  unfold Extract.extract_and_save. intros H.
  apply bind_inv in H as [(fullText & w1 & H1 & H) | (e & H1 & ->)].
  2:{ left. exists e. split; [reflexivity | exact (fetch_text_same_store _ _ _ _ _ H1)]. }
  apply fetch_text_same_store in H1.
  apply bind_inv in H as [(info & w2 & H2 & H) | (e & H2 & ->)].
  2:{ left. exists e. split; [reflexivity |].
      apply query_model_same_store in H2. unfold same_store in *. congruence. }
  apply query_model_same_store in H2.
  apply bind_inv in H as [([] & w3 & H3 & H) | (e & H3 & ->)].
  - apply ret_inv in H as [-> ->].
    apply updateDoc_inv in H3 as [(_ & Hs & _) | (e & He & _)]; [| discriminate].
    right. exists info. split; [reflexivity |].
    unfold same_store in *. rewrite Hs. congruence.
  - apply updateDoc_inv in H3 as [(He & _) | (e' & _ & Hs)]; [discriminate |].
    left. exists e. split; [reflexivity |]. unfold same_store in *. congruence.
Qed.

(** Every run of the handler leaves the collection as it was, or ends in
    200 having updated the first document of the query. *)
Lemma extract_effect (env : Env) (req : Request) (w w' : World) (r : Outcome Response) :
  Extract.handler env req w = (r, w') ->
  (store w' = store w
   /\ forall msg info, r <> Returned {| code := 200; json_body := BExtract msg info |})
  \/ (exists d0 ds info,
         query (req_season req) (req_year req) (store w) = d0 :: ds
         /\ r = Returned {| code := 200;
                            json_body :=
                              BExtract "Tournament info extracted and saved successfully"
                                       info |}
         /\ store w' = update (id d0) (SetTournamentInfo info) (store w)).
Proof.
  unfold Extract.handler. intros H.
  destruct (negb (method req =? "POST")).
  { apply ret_inv in H as [-> ->]. left. split; [reflexivity | discriminate]. }
  destruct (negb (JS.truthy (req_season req)) || negb (JS.truthy (req_year req))).
  { apply ret_inv in H as [-> ->]. left. split; [reflexivity | discriminate]. }
  apply try_catch_inv in H as [(a & H & ->) | (e & w1 & H & Hc)].
  - apply bind_inv in H as [(docs & w1 & Hq & H) | (e & _ & He)]; [| discriminate].
    apply getDocs_inv in Hq as [-> ->].
    change (store (logged w (EvGetDocs (req_season req) (req_year req))))
      with (store w) in *.
    destruct (query (req_season req) (req_year req) (store w)) as [|d0 ds] eqn:Eq.
    { apply ret_inv in H as [H ->]. injection H as ->.
      left. split; [reflexivity | discriminate]. }
    destruct (negb (JS.truthy (pdfStorageUrl (data d0)))).
    { apply ret_inv in H as [H ->]. injection H as ->.
      left. split; [reflexivity | discriminate]. }
    apply extract_and_save_effect in H as [(e & He & _) | (info & Hr & Hs)];
      [discriminate |].
    right. exists d0, ds, info. injection Hr as ->. repeat split. exact Hs.
  - left. pose proof (catch_same_store _ _ _ _ Hc) as Hsame.
    assert (Hw1 : store w1 = store w).
    { apply bind_inv in H as [(docs & w2 & Hq & H) | (e' & Hq & _)].
      - apply getDocs_inv in Hq as [-> ->].
        change (store (logged w (EvGetDocs (req_season req) (req_year req))))
          with (store w) in *.
        destruct (query (req_season req) (req_year req) (store w)) as [|d0 ds].
        { apply ret_inv in H as [H _]. discriminate. }
        destruct (negb (JS.truthy (pdfStorageUrl (data d0)))).
        { apply ret_inv in H as [H _]. discriminate. }
        apply extract_and_save_effect in H as [(e' & _ & Hs) | (info & Hr & _)];
          [exact Hs | discriminate].
      - exact (keeps_getDocs same_store env _ _
                 (fun w0 => same_store_logged w0 _) _ _ _ Hq). }
    split.
    + unfold same_store in Hsame. congruence.
    + intros msg info. unfold bind, console_error, log, respond, ret in Hc.
      injection Hc as <- _. discriminate.
Qed.

End SameStore.

Section ExtractReads.
Import JS Store Sys Frame Shape.

Lemma fetches_of_logged (first : option Doc) (w : World) (e : Event) :
  (is_fetch e = true ->
   exists d0, first = Some d0 /\ e = EvFetch (pdfStorageUrl (data d0)) None) ->
  fetches_of first w (logged w e).
Proof. intros H. exists [e]. split; [reflexivity | now constructor]. Qed.

Lemma fetches_of_quiet (first : option Doc) (w : World) (e : Event) :
  is_fetch e = false -> fetches_of first w (logged w e).
Proof. intros H. apply fetches_of_logged. rewrite H. discriminate. Qed.

Lemma fetches_of_same_trace (first : option Doc) (w w' : World) :
  trace w' = trace w -> fetches_of first w w'.
Proof. intros H. exists []. split; [now rewrite app_nil_r | constructor]. Qed.

Lemma extract_and_save_fetches (env : Env) (d0 : Doc) :
  preserves (fetches_of (Some d0)) (Extract.extract_and_save env d0).
Proof.
  unfold Extract.extract_and_save, Extract.fetch_text, Extract.query_model,
    Extract.parse_content, fetch.
  apply preserves_bind; [exact _ | | intros fullText].
  - apply preserves_bind; [exact _ | | intros response].
    + apply keeps_fetch_with; [exact _ |]. intros w.
      apply fetches_of_logged. intros _. now exists d0.
    + destruct (negb (ok response)); [apply preserves_throw; exact _ |].
      apply preserves_bind; [exact _ | | intros buffer]; apply preserves_await; exact _.
  - apply preserves_bind; [exact _ | | intros info].
    + apply preserves_bind; [exact _ | | intros content].
      * apply keeps_invoke; [exact _ |]. intros w. now apply fetches_of_quiet.
      * destruct (JSON_parse env (Extract.strip_fences content));
          [apply preserves_ret; exact _ |].
        apply preserves_bind; [exact _ | | intros _; apply preserves_throw; exact _].
        apply keeps_console_error. intros w. now apply fetches_of_quiet.
    + apply preserves_bind; [exact _ | | intros _; apply preserves_respond; exact _].
      apply keeps_updateDoc; [exact _ | |].
      * intros w. now apply fetches_of_quiet.
      * intros w. now apply fetches_of_same_trace.
Qed.

(** Whatever the call fetches is the archived document of the first
    document of the query. *)
Lemma extract_fetches (env : Env) (req : Request) (w w' : World) (r : Outcome Response) :
  Extract.handler env req w = (r, w') ->
  fetches_of (hd_error (query (req_season req) (req_year req) (store w))) w w'.
Proof.
  unfold Extract.handler. intros H.
  set (first := hd_error (query (req_season req) (req_year req) (store w))).
  destruct (negb (method req =? "POST")).
  { apply ret_inv in H as [_ ->]. reflexivity. }
  destruct (negb (truthy (req_season req)) || negb (truthy (req_year req))).
  { apply ret_inv in H as [_ ->]. reflexivity. }
  assert (Hbody : forall o w1,
             bind (getDocs env (req_season req) (req_year req))
                  (fun docs =>
                     match docs with
                     | [] =>
                         respond 404
                           (BMessage ("No tournament info found for " ++ req_season req
                                      ++ " " ++ req_year req ++ "."))
                     | docSnapshot :: _ =>
                         if negb (truthy (pdfStorageUrl (data docSnapshot)))
                         then respond 400 (BMessage "PDF has not been uploaded yet.")
                         else Extract.extract_and_save env docSnapshot
                     end) w = (o, w1) ->
             fetches_of first w w1).
  { intros o w1 Hb.
    apply bind_inv in Hb as [(docs & w2 & Hq & Hb) | (e & Hq & _)].
    - apply getDocs_inv in Hq as [-> ->].
      transitivity (logged w (EvGetDocs (req_season req) (req_year req)));
        [now apply fetches_of_quiet |].
      change (store (logged w (EvGetDocs (req_season req) (req_year req))))
        with (store w) in Hb.
      subst first.
      destruct (query (req_season req) (req_year req) (store w)) as [|d0 ds].
      + apply ret_inv in Hb as [_ ->]. reflexivity.
      + destruct (negb (truthy (pdfStorageUrl (data d0)))).
        * apply ret_inv in Hb as [_ ->]. reflexivity.
        * exact (extract_and_save_fetches env d0 _ _ _ Hb).
    - revert Hq. apply keeps_getDocs; [exact _ |]. intros w0. now apply fetches_of_quiet. }
  apply try_catch_inv in H as [(a & H & _) | (e & w1 & H & Hc)].
  - exact (Hbody _ _ H).
  - transitivity w1; [exact (Hbody _ _ H) |].
    revert Hc. apply preserves_bind; [exact _ | | intros _; apply preserves_respond; exact _].
    apply keeps_console_error. intros w0. now apply fetches_of_quiet.
Qed.

End ExtractReads.

Section ExtractFrame.
Import Store Sys Frame.

Lemma ids_inj (coll : list Doc) (a b : Doc) :
  NoDup (ids coll) -> In a coll -> In b coll -> id a = id b -> a = b.
Proof.
  unfold ids. induction coll as [|d coll IH]; simpl; intros Hnd Ha Hb Hid.
  - contradiction.
  - inversion Hnd as [|x l Hnotin Hnd']; subst.
    destruct Ha as [<- | Ha], Hb as [<- | Hb].
    + reflexivity.
    + exfalso. apply Hnotin. rewrite Hid. now apply in_map.
    + exfalso. apply Hnotin. rewrite <- Hid. now apply in_map.
    + now apply IH.
Qed.

Lemma Forall2_map_self {A} (P : A -> A -> Prop) (f : A -> A) (l : list A) :
  (forall x, In x l -> P x (f x)) -> Forall2 P l (map f l).
Proof.
  induction l as [|x l IH]; simpl; intros H; constructor.
  - apply H. now left.
  - apply IH. intros y Hy. apply H. now right.
Qed.

Lemma has_id_true (i : string) (d : Doc) : has_id i d = true <-> id d = i.
Proof. unfold has_id. apply String.eqb_eq. Qed.

Lemma same_but_info_refl (a : TournamentData) : same_but_info a a.
Proof. repeat split. Qed.

Lemma same_but_info_patch (info : json) (a : TournamentData) :
  same_but_info a (apply_patch (SetTournamentInfo info) a).
Proof. repeat split. Qed.

(** C10.  In a collection with distinct ids, whatever the outside answers
    and however the call ends, extraction leaves every document in its
    place with all fields but [tournamentInfo] as they were, and leaves
    every document other than the first one returned by the query exactly
    as it was.  When the call answers 200 the first document has been
    updated with the [tournamentInfo] sent back.  Whatever the call
    fetches is the archived document named by that first document. *)
Theorem extract_writes_first_record_only :
  forall (env : Env) (req : Request) (w w' : World) (r : Outcome Response),
    NoDup (ids (store w)) ->
    Extract.handler env req w = (r, w') ->
    let first := hd_error (query (req_season req) (req_year req) (store w)) in
    Forall2 (fun d d' =>
               id d' = id d
               /\ same_but_info (data d) (data d')
               /\ (first <> Some d -> d' = d))
            (store w) (store w')
    /\ (forall msg info,
           r = Returned {| code := 200; json_body := BExtract msg info |} ->
           exists d0,
             first = Some d0
             /\ store w' = update (id d0) (SetTournamentInfo info) (store w))
    /\ fetches_of first w w'.
Proof.
  intros env req w w' r Hnd H first.
  assert (Hreads : fetches_of first w w') by exact (extract_fetches env req w w' r H).
  rewrite <- and_assoc. split; [| exact Hreads]. clear Hreads.
  apply extract_effect in H as [[Hs Hr] | (d0 & ds & info & Hq & Hr & Hs)].
  - split.
    + rewrite Hs. rewrite <- (map_id (store w)) at 2.
      apply Forall2_map_self. intros d _.
      split; [reflexivity | split; [apply same_but_info_refl | reflexivity]].
    + intros msg info E. now contradiction (Hr msg info).
  - assert (Hfirst : first = Some d0) by (subst first; now rewrite Hq).
    assert (Hin : In d0 (store w)).
    { assert (Hin' : In d0 (query (req_season req) (req_year req) (store w)))
        by (rewrite Hq; now left).
      unfold query in Hin'. now apply filter_In in Hin' as [Hin' _]. }
    split.
    + rewrite Hs. unfold update. apply Forall2_map_self. intros d Hd.
      destruct (has_id (id d0) d) eqn:E; simpl.
      * split; [reflexivity | split; [apply same_but_info_patch |]].
        intros Hne. exfalso. apply Hne. rewrite Hfirst. f_equal.
        apply has_id_true in E. symmetry. now apply (ids_inj (store w)).
      * split; [reflexivity | split; [apply same_but_info_refl | reflexivity]].
    + intros msg info' E. rewrite Hr in E. injection E as _ <-.
      now exists d0.
Qed.

Lemma extract_writes_first_record_only_witness :
  let w := Sample.world_of [Sample.archived_doc; Sample.fresh_doc] in
  let run := Extract.handler Sample.env_ok Sample.spring_2026 w in
  NoDup (ids (store w))
  /\ Forall2 (fun d d' =>
                id d' = id d
                /\ same_but_info (data d) (data d')
                /\ (Some Sample.archived_doc <> Some d -> d' = d))
             (store w) (store (snd run)).
Proof.
  cbv zeta.
  assert (Hnd : NoDup (ids (store (Sample.world_of [Sample.archived_doc; Sample.fresh_doc])))).
  { repeat constructor; simpl; intuition discriminate. }
  split; [exact Hnd |].
  exact (proj1 (extract_writes_first_record_only Sample.env_ok Sample.spring_2026
                  (Sample.world_of [Sample.archived_doc; Sample.fresh_doc])
                  (snd (Extract.handler Sample.env_ok Sample.spring_2026
                          (Sample.world_of [Sample.archived_doc; Sample.fresh_doc])))
                  (fst (Extract.handler Sample.env_ok Sample.spring_2026
                          (Sample.world_of [Sample.archived_doc; Sample.fresh_doc])))
                  Hnd eq_refl)).
Defined.

End ExtractFrame.

(* ===================================================================== *)
(** ** Archival: which links are fetched                                  *)
(* ===================================================================== *)

Section ArchiveFetch.
Import JS Store Sys Frame Shape Archive.

Lemma no_fetch_logged (w : World) (e : Event) :
  is_fetch e = false -> no_fetch w (logged w e).
Proof. intros H. exists [e]. split; [reflexivity | simpl; now rewrite H]. Qed.

Lemma no_fetch_same_trace (w w' : World) : trace w' = trace w -> no_fetch w w'.
Proof. intros H. exists []. split; [now rewrite app_nil_r | reflexivity]. Qed.

Lemma upload_pdf_no_fetch env season year document pdfResponse :
  preserves no_fetch (upload_pdf env season year document pdfResponse).
Proof.
  unfold upload_pdf.
  apply preserves_bind; [exact _ | apply preserves_await; exact _ | intros bytes].
  apply preserves_bind; [exact _ | apply preserves_now; exact _ | intros t].
  apply preserves_bind; [exact _ | | intros _].
  - apply keeps_uploadBytes; [exact _ | |].
    + intros w. now apply no_fetch_logged.
    + intros w b. now apply no_fetch_same_trace.
  - apply keeps_getDownloadURL; [exact _ |]. intros w. now apply no_fetch_logged.
Qed.

(** What follows the fetch in the loop body, with the catch around it. *)
Lemma after_fetch_no_fetch env season year document url updatedDocs :
  preserves no_fetch
    (try_catch
       (bind (ask (fun w => fetch_answer env w url))
             (fun pdfResponse =>
                if ok pdfResponse then
                  bind (upload_pdf env season year document pdfResponse)
                       (fun pdfStorageUrl =>
                          bind (updateDoc env (id document)
                                          (SetPdfStorageUrl pdfStorageUrl))
                               (fun _ =>
                                  ret (updatedDocs
                                         ++ [uploaded (id document) pdfStorageUrl])%list))
                else
                  bind (console_error ("Failed to download PDF from " ++ url))
                       (fun _ => ret updatedDocs)))
       (fun e => bind (console_error ("Error processing PDF: " ++ e))
                      (fun _ => ret updatedDocs))).
Proof.
  apply preserves_try_catch; [exact _ | | intros e].
  - apply preserves_bind; [exact _ | apply preserves_ask; exact _ | intros resp].
    destruct (ok resp).
    + apply preserves_bind; [exact _ | apply upload_pdf_no_fetch | intros u].
      apply preserves_bind; [exact _ | | intros _; apply preserves_ret; exact _].
      apply keeps_updateDoc; [exact _ | |].
      * intros w. now apply no_fetch_logged.
      * intros w. now apply no_fetch_same_trace.
    + apply preserves_bind; [exact _ | | intros _; apply preserves_ret; exact _].
      apply keeps_console_error. intros w. now apply no_fetch_logged.
  - apply preserves_bind; [exact _ | | intros _; apply preserves_ret; exact _].
    apply keeps_console_error. intros w. now apply no_fetch_logged.
Qed.

(** The loop body never throws. *)
Lemma archive_doc_returns env season year acc d w :
  exists out w', archive_doc env season year acc d w = (Returned out, w').
Proof.
  unfold archive_doc.
  destruct (truthy (pdf (data d)) && negb (truthy (pdfStorageUrl (data d)))).
  - unfold try_catch.
    destruct (match resolve (pdf (data d)) with
              | Some url => download_and_store env season year d url acc
              | None => ret acc
              end w) as [[out|e] w1].
    + now exists out, w1.
    + now eexists _, _.
  - destruct (truthy (pdfStorageUrl (data d))); now eexists _, _.
Qed.

Lemma truthy_false (x : string) : truthy x = false <-> x = "".
Proof. destruct x; simpl; split; intros H; try reflexivity; discriminate. Qed.

Lemma fetches_resolved_logged (docs : list Doc) (w : World) (e : Event) :
  (is_fetch e = true ->
   exists d fileId,
     In d docs /\ truthy (pdf (data d)) = true /\ pdfStorageUrl (data d) = ""
     /\ driveIdMatch (pdf (data d)) = Some fileId
     /\ e = EvFetch (downloadUrl fileId) None) ->
  fetches_resolved docs w (logged w e).
Proof. intros H. exists [e]. split; [reflexivity | now constructor]. Qed.

Lemma fetches_resolved_quiet (docs : list Doc) (w : World) (e : Event) :
  is_fetch e = false -> fetches_resolved docs w (logged w e).
Proof. intros H. apply fetches_resolved_logged. rewrite H. discriminate. Qed.

Lemma fetches_resolved_same_trace (docs : list Doc) (w w' : World) :
  trace w' = trace w -> fetches_resolved docs w w'.
Proof. intros H. exists []. split; [now rewrite app_nil_r | constructor]. Qed.

Lemma archive_doc_fetches env season year acc (docs : list Doc) (d : Doc) :
  In d docs ->
  preserves (fetches_resolved docs) (archive_doc env season year acc d).
Proof.
  intros Hd. unfold archive_doc.
  destruct (truthy (pdf (data d))) eqn:Hpdf; simpl;
    [| destruct (truthy (pdfStorageUrl (data d))); apply preserves_ret; exact _].
  destruct (truthy (pdfStorageUrl (data d))) eqn:Hurl; simpl;
    [apply preserves_ret; exact _ |].
  apply truthy_false in Hurl.
  apply preserves_try_catch; [exact _ | | intros e].
  - destruct (resolve (pdf (data d))) as [url|] eqn:Hres; [| apply preserves_ret; exact _].
    apply resolve_Some in Hres as (fileId & Hmatch & ->).
    unfold download_and_store, fetch.
    apply preserves_bind; [exact _ | | intros resp].
    + apply keeps_fetch_with; [exact _ |]. intros w.
      apply fetches_resolved_logged. intros _. now exists d, fileId.
    + destruct (ok resp).
      * apply preserves_bind; [exact _ | | intros u].
        -- unfold upload_pdf.
           apply preserves_bind; [exact _ | apply preserves_await; exact _ | intros bytes].
           apply preserves_bind; [exact _ | apply preserves_now; exact _ | intros t].
           apply preserves_bind; [exact _ | | intros _].
           ++ apply keeps_uploadBytes; [exact _ | |].
              ** intros w. now apply fetches_resolved_quiet.
              ** intros w b. now apply fetches_resolved_same_trace.
           ++ apply keeps_getDownloadURL; [exact _ |].
              intros w. now apply fetches_resolved_quiet.
        -- apply preserves_bind; [exact _ | | intros _; apply preserves_ret; exact _].
           apply keeps_updateDoc; [exact _ | |].
           ++ intros w. now apply fetches_resolved_quiet.
           ++ intros w. now apply fetches_resolved_same_trace.
      * apply preserves_bind; [exact _ | | intros _; apply preserves_ret; exact _].
        apply keeps_console_error. intros w. now apply fetches_resolved_quiet.
  - apply preserves_bind; [exact _ | | intros _; apply preserves_ret; exact _].
    apply keeps_console_error. intros w. now apply fetches_resolved_quiet.
Qed.

(** Over a whole call: whatever is fetched is the direct-download form of
    the viewer link of an unarchived record of the query. *)
Lemma archive_handler_fetches env req (w w' : World) (r : Outcome Response) :
  Archive.handler env req w = (r, w') ->
  fetches_resolved (query (req_season req) (req_year req) (store w)) w w'.
Proof.
  unfold Archive.handler. intros H.
  set (docs := query (req_season req) (req_year req) (store w)).
  destruct (negb (method req =? "POST")).
  { apply ret_inv in H as [_ ->]. reflexivity. }
  destruct (negb (truthy (req_season req)) || negb (truthy (req_year req))).
  { apply ret_inv in H as [_ ->]. reflexivity. }
  assert (Hbody : forall o w1,
             archive_all env (req_season req) (req_year req) w = (o, w1) ->
             fetches_resolved docs w w1).
  { intros o w1 Hb. unfold archive_all in Hb.
    apply bind_inv in Hb as [(ds & w2 & Hq & Hb) | (e & Hq & _)].
    - apply getDocs_inv in Hq as [-> ->].
      transitivity (logged w (EvGetDocs (req_season req) (req_year req)));
        [now apply fetches_resolved_quiet |].
      change (store (logged w (EvGetDocs (req_season req) (req_year req))))
        with (store w) in Hb. fold docs in Hb.
      assert (Hloop : forall acc,
                 preserves (fetches_resolved docs)
                   (for_of docs (archive_doc env (req_season req) (req_year req)) acc)).
      { apply preserves_for_of; [exact _ |]. intros acc d Hd.
        now apply archive_doc_fetches. }
      destruct docs as [|d0 ds] eqn:Edocs.
      + apply ret_inv in Hb as [_ ->]. reflexivity.
      + revert Hb. apply preserves_bind; [exact _ | apply Hloop | intros out].
        apply preserves_respond; exact _.
    - revert Hq. apply keeps_getDocs; [exact _ |].
      intros w0. now apply fetches_resolved_quiet. }
  apply try_catch_inv in H as [(a & H & _) | (e & w1 & H & Hc)].
  - exact (Hbody _ _ H).
  - transitivity w1; [exact (Hbody _ _ H) |].
    revert Hc. apply preserves_bind; [exact _ | | intros _; apply preserves_respond; exact _].
    apply keeps_console_error. intros w0. now apply fetches_resolved_quiet.
Qed.

(** C4, as stated, fails: a record whose link is a plain [.pdf] URL is not
    fetched at all.  The archive call answers 200 with no updated
    document, its only call is the query, and the record stays
    unarchived. *)
Lemma archive_skips_plain_pdf_link :
  let w := Sample.world_of [Sample.plain_doc] in
  let run := Archive.handler Sample.env_ok Sample.spring_2026 w in
  pdf (data Sample.plain_doc) = "https://www.chess.com/ccl/rules-2026.pdf"
  /\ pdfStorageUrl (data Sample.plain_doc) = ""
  /\ driveIdMatch (pdf (data Sample.plain_doc)) = None
  /\ run = (Returned {| code := 200;
                        json_body := BUpload "PDF processing completed" [] |},
            logged w (EvGetDocs "spring" "2026"))
  /\ existsb is_fetch (trace (snd run)) = false
  /\ store (snd run) = [Sample.plain_doc].
Proof. cbv zeta. repeat split; reflexivity. Qed.

(** C4, amended.  For a record with a document link and no archived copy:
    when the link has the viewer shape (the pattern finds a file id), the
    one fetch made for the record goes to the direct-download URL of that
    id; otherwise nothing is fetched, nothing is reported, and the world is
    as before (the record is left for a later attempt).  Over a whole
    archive call, every fetch made is such a direct-download fetch for an
    unarchived record of the query: no link is fetched unmodified. *)
Theorem archive_fetches_viewer_links_only :
  (forall (env : Env) (season year : string) (acc : list UpdatedDoc) (d : Doc) (w : World),
      truthy (pdf (data d)) = true ->
      pdfStorageUrl (data d) = "" ->
      match driveIdMatch (pdf (data d)) with
      | Some fileId =>
          exists out w' rest,
            archive_doc env season year acc d w = (Returned out, w')
            /\ trace w'
               = (trace w
                  ++ EvFetch ("https://drive.google.com/uc?export=download&id=" ++ fileId)
                             None
                     :: rest)%list
            /\ existsb is_fetch rest = false
      | None => archive_doc env season year acc d w = (Returned acc, w)
      end)
  /\ (forall (env : Env) (req : Request) (w w' : World) (r : Outcome Response),
         Archive.handler env req w = (r, w') ->
         fetches_resolved (query (req_season req) (req_year req) (store w)) w w').
Proof.
  split; [| exact archive_handler_fetches].
  intros env season year acc d w Hpdf Hurl.
  destruct (driveIdMatch (pdf (data d))) as [fileId|] eqn:E.
  - destruct (archive_doc_returns env season year acc d w) as (out & w' & Hrun).
    exists out, w'.
    assert (Hres : resolve (pdf (data d)) = Some (downloadUrl fileId))
      by (apply resolve_Some; now exists fileId).
    pose proof Hrun as Hrun'.
    unfold archive_doc in Hrun'. rewrite Hpdf, Hurl, Hres in Hrun'. simpl in Hrun'.
    apply (after_fetch_no_fetch env season year d (downloadUrl fileId) acc
             (logged w (EvFetch (downloadUrl fileId) None))) in Hrun'.
    destruct Hrun' as (rest & Ht & Hnf).
    exists rest. split; [exact Hrun | split; [| exact Hnf]].
    rewrite Ht. simpl. now rewrite <- app_assoc.
  - unfold archive_doc. rewrite Hpdf, Hurl.
    assert (Hres : resolve (pdf (data d)) = None) by now apply resolve_None.
    rewrite Hres. reflexivity.
Qed.

Lemma archive_fetches_viewer_links_only_witness :
  exists out w' rest,
    archive_doc Sample.env_ok "spring" "2026" [] Sample.fresh_doc
                (Sample.world_of [Sample.fresh_doc])
    = (Returned out, w')
    /\ trace w'
       = (trace (Sample.world_of [Sample.fresh_doc])
          ++ EvFetch ("https://drive.google.com/uc?export=download&id=" ++ "XYZ789") None
             :: rest)%list
    /\ existsb is_fetch rest = false.
Proof.
  exact (proj1 archive_fetches_viewer_links_only Sample.env_ok "spring" "2026" []
           Sample.fresh_doc (Sample.world_of [Sample.fresh_doc]) eq_refl eq_refl).
Defined.

End ArchiveFetch.

(* ===================================================================== *)
(** ** Archival: records that are archived are left alone                 *)
(* ===================================================================== *)

Section ArchiveUntouched.
Import JS Store Sys Frame Shape Archive.

Variable i : string.

Lemma uploads_of_app (t1 t2 : list Event) :
  uploads_of i (t1 ++ t2)%list = uploads_of i t1 + uploads_of i t2.
Proof.
  induction t1 as [|e t1 IH]; simpl; [reflexivity |].
  destruct e; simpl; rewrite ?IH; try reflexivity.
  now rewrite Nat.add_assoc.
Qed.

Lemma updates_of_app (t1 t2 : list Event) :
  updates_of i (t1 ++ t2)%list = updates_of i t1 + updates_of i t2.
Proof.
  induction t1 as [|e t1 IH]; simpl; [reflexivity |].
  destruct e; simpl; rewrite ?IH; try reflexivity.
  now rewrite Nat.add_assoc.
Qed.

Lemma untouched_logged (w : World) (e : Event) :
  touches i e = false -> untouched i w (logged w e).
Proof.
  intros H. unfold untouched. simpl. rewrite uploads_of_app, updates_of_app.
  destruct e; simpl in *; rewrite ?H; simpl; split; lia.
Qed.

Lemma untouched_same_trace (w w' : World) : trace w' = trace w -> untouched i w w'.
Proof. intros H. unfold untouched. now rewrite H. Qed.

Lemma upload_pdf_untouched env season year d resp :
  String.eqb (id d) i = false ->
  preserves (untouched i) (upload_pdf env season year d resp).
Proof.
  intros Hi. unfold upload_pdf.
  apply preserves_bind; [exact _ | apply preserves_await; exact _ | intros bytes].
  apply preserves_bind; [exact _ | apply preserves_now; exact _ | intros t].
  apply preserves_bind; [exact _ | | intros _].
  - apply keeps_uploadBytes; [exact _ | |].
    + intros w. now apply untouched_logged.
    + intros w b. now apply untouched_same_trace.
  - apply keeps_getDownloadURL; [exact _ |]. intros w. now apply untouched_logged.
Qed.

Lemma download_and_store_untouched env season year d url acc :
  String.eqb (id d) i = false ->
  preserves (untouched i) (download_and_store env season year d url acc).
Proof.
  intros Hi. unfold download_and_store, fetch.
  apply preserves_bind; [exact _ | | intros resp].
  - apply keeps_fetch_with; [exact _ |]. intros w. now apply untouched_logged.
  - destruct (ok resp).
    + apply preserves_bind; [exact _ | now apply upload_pdf_untouched | intros u].
      apply preserves_bind; [exact _ | | intros _; apply preserves_ret; exact _].
      apply keeps_updateDoc; [exact _ | |].
      * intros w. now apply untouched_logged.
      * intros w. now apply untouched_same_trace.
    + apply preserves_bind; [exact _ | | intros _; apply preserves_ret; exact _].
      apply keeps_console_error. intros w. now apply untouched_logged.
Qed.

(** The loop body makes no upload and no update for [i] when it runs on
    another document, or on an archived one. *)
Lemma archive_doc_untouched env season year acc d :
  (id d = i -> truthy (pdfStorageUrl (data d)) = true) ->
  preserves (untouched i) (archive_doc env season year acc d).
Proof.
  intros H. unfold archive_doc.
  destruct (truthy (pdfStorageUrl (data d))) eqn:Hu.
  - rewrite andb_false_r. apply preserves_ret; exact _.
  - assert (Hi : String.eqb (id d) i = false).
    { apply String.eqb_neq. intros E. specialize (H E). discriminate. }
    destruct (truthy (pdf (data d)) && negb false); [| apply preserves_ret; exact _].
    apply preserves_try_catch; [exact _ | | intros e].
    + destruct (resolve (pdf (data d))) as [url|].
      * now apply download_and_store_untouched.
      * apply preserves_ret; exact _.
    + apply preserves_bind; [exact _ | | intros _; apply preserves_ret; exact _].
      apply keeps_console_error. intros w. now apply untouched_logged.
Qed.

Lemma archive_all_untouched env season year (w w' : World) (o : Outcome Response) :
  (forall d, In d (query season year (store w)) -> id d = i ->
             truthy (pdfStorageUrl (data d)) = true) ->
  archive_all env season year w = (o, w') ->
  untouched i w w'.
Proof.
  intros Hdocs H. unfold archive_all in H.
  apply bind_inv in H as [(docs & w1 & Hq & H) | (e & Hq & _)].
  - apply getDocs_inv in Hq as [-> ->].
    transitivity (logged w (EvGetDocs season year)); [now apply untouched_logged |].
    change (store (logged w (EvGetDocs season year))) with (store w) in H.
    revert H. generalize (logged w (EvGetDocs season year)). intros w1 H.
    assert (Hloop : forall acc,
               preserves (untouched i)
                 (for_of (query season year (store w))
                         (archive_doc env season year) acc)).
    { apply preserves_for_of; [exact _ |]. intros acc d Hd.
      apply archive_doc_untouched. now apply Hdocs. }
    destruct (query season year (store w)) as [|d0 ds].
    + apply (preserves_respond (untouched i)) in H. exact H.
    + revert H. apply preserves_bind; [exact _ | apply Hloop | intros out].
      apply preserves_respond; exact _.
  - revert Hq. apply keeps_getDocs; [exact _ |]. intros w0. now apply untouched_logged.
Qed.

Lemma archive_handler_untouched env req (w w' : World) (r : Outcome Response) :
  (forall d, In d (query (req_season req) (req_year req) (store w)) -> id d = i ->
             truthy (pdfStorageUrl (data d)) = true) ->
  Archive.handler env req w = (r, w') ->
  untouched i w w'.
Proof.
  intros Hdocs H. unfold Archive.handler in H.
  destruct (negb (method req =? "POST")).
  { apply ret_inv in H as [_ ->]. reflexivity. }
  destruct (negb (truthy (req_season req)) || negb (truthy (req_year req))).
  { apply ret_inv in H as [_ ->]. reflexivity. }
  apply try_catch_inv in H as [(a & H & _) | (e & w1 & H & Hc)].
  - now apply (archive_all_untouched env _ _ _ _ _ Hdocs H).
  - transitivity w1; [now apply (archive_all_untouched env _ _ _ _ _ Hdocs H) |].
    revert Hc. apply preserves_bind; [exact _ | | intros _; apply preserves_respond; exact _].
    apply keeps_console_error. intros w0. now apply untouched_logged.
Qed.

End ArchiveUntouched.

Section ArchiveStore.
Import JS Store Sys Frame Shape Archive.

Lemma ids_update (j : string) (p : Patch) (coll : list Doc) :
  ids (update j p coll) = ids coll.
Proof.
  unfold ids, update. rewrite map_map. apply map_ext.
  intros d. now destruct (has_id j d).
Qed.

Lemma In_update_other (j : string) (p : Patch) (coll : list Doc) (d : Doc) :
  In d coll -> id d <> j -> In d (update j p coll).
Proof.
  intros Hin Hne. unfold update. apply in_map_iff. exists d. split; [| exact Hin].
  destruct (has_id j d) eqn:E; [| reflexivity].
  apply has_id_true in E. contradiction.
Qed.

Lemma In_update_self (p : Patch) (coll : list Doc) (d : Doc) :
  In d coll ->
  In {| id := id d; data := apply_patch p (data d) |} (update (id d) p coll).
Proof.
  intros Hin. unfold update. apply in_map_iff. exists d. split; [| exact Hin].
  unfold has_id. now rewrite String.eqb_refl.
Qed.

Lemma NoDup_ids_query (s y : string) (coll : list Doc) :
  NoDup (ids coll) -> NoDup (ids (query s y coll)).
Proof.
  unfold ids, query. induction coll as [|d coll IH]; simpl; intros H.
  - constructor.
  - inversion H as [|x l Hnotin Hnd]; subst.
    destruct (matches s y d); simpl; [| now apply IH].
    constructor; [| now apply IH].
    intros Hin. apply Hnotin. apply in_map_iff in Hin as (d' & Hid & Hd').
    apply filter_In in Hd' as [Hd' _]. apply in_map_iff. now exists d'.
Qed.

Lemma upload_pdf_same_store env season year d resp :
  preserves same_store (upload_pdf env season year d resp).
Proof.
  unfold upload_pdf.
  apply preserves_bind; [exact _ | apply preserves_await; exact _ | intros bytes].
  apply preserves_bind; [exact _ | apply preserves_now; exact _ | intros t].
  apply preserves_bind; [exact _ | | intros _].
  - apply keeps_uploadBytes; [exact _ | |]; intros; reflexivity.
  - apply keeps_getDownloadURL; [exact _ |]. intros; reflexivity.
Qed.

Lemma download_and_store_effect env season year d url acc (w w' : World)
      (o : Outcome (list UpdatedDoc)) :
  download_and_store env season year d url acc w = (o, w') ->
  (store w' = store w /\ (o = Returned acc \/ exists e, o = Thrown e))
  \/ (exists u, o = Returned (acc ++ [uploaded (id d) u])%list
                /\ store w' = update (id d) (SetPdfStorageUrl u) (store w)).
Proof.
  unfold download_and_store, fetch. intros H.
  apply bind_inv in H as [(resp & w1 & H1 & H) | (e & H1 & ->)].
  2:{ left. split; [| right; now exists e].
      exact (keeps_fetch_with same_store env url None
               (fun w0 => same_store_logged w0 _) _ _ _ H1). }
  assert (Hw1 : store w1 = store w).
  { exact (keeps_fetch_with same_store env url None
             (fun w0 => same_store_logged w0 _) _ _ _ H1). }
  destruct (ok resp).
  - apply bind_inv in H as [(u & w2 & H2 & H) | (e & H2 & ->)].
    2:{ left. split; [| right; now exists e].
        apply upload_pdf_same_store in H2. unfold same_store in H2. congruence. }
    apply upload_pdf_same_store in H2. unfold same_store in H2.
    apply bind_inv in H as [([] & w3 & H3 & H) | (e & H3 & ->)].
    + apply ret_inv in H as [-> ->].
      apply updateDoc_inv in H3 as [(_ & Hs & _) | (e & He & _)]; [| discriminate].
      right. exists u. split; [reflexivity |]. rewrite Hs. congruence.
    + apply updateDoc_inv in H3 as [(He & _) | (e' & _ & Hs)]; [discriminate |].
      left. split; [congruence | right; now exists e].
  - apply bind_inv in H as [([] & w2 & H2 & H) | (e & H2 & ->)].
    + apply ret_inv in H as [-> ->]. left. split; [| now left].
      unfold console_error, log in H2. injection H2 as <-. exact Hw1.
    + unfold console_error, log in H2. discriminate.
Qed.

(** What one turn of the loop does to the collection and to [updatedDocs]. *)
Lemma archive_doc_effect env season year acc d (w w' : World)
      (o : Outcome (list UpdatedDoc)) :
  archive_doc env season year acc d w = (o, w') ->
  (truthy (pdfStorageUrl (data d)) = true
   /\ o = Returned (acc ++ [already (id d) (pdfStorageUrl (data d))])%list
   /\ w' = w)
  \/ (truthy (pdfStorageUrl (data d)) = false
      /\ o = Returned acc /\ store w' = store w)
  \/ (truthy (pdfStorageUrl (data d)) = false
      /\ exists u, o = Returned (acc ++ [uploaded (id d) u])%list
                   /\ store w' = update (id d) (SetPdfStorageUrl u) (store w)).
Proof.
  unfold archive_doc. intros H.
  destruct (truthy (pdfStorageUrl (data d))) eqn:Hu.
  - rewrite andb_false_r in H. apply ret_inv in H as [-> ->]. left. auto.
  - right. destruct (truthy (pdf (data d)) && negb false).
    2:{ apply ret_inv in H as [-> ->]. left. auto. }
    apply try_catch_inv in H as [(a & H & ->) | (e & w1 & H & Hc)].
    + destruct (resolve (pdf (data d))) as [url|].
      * apply download_and_store_effect in H
          as [[Hs [Ho | [e He]]] | (u & Ho & Hs)].
        -- left. repeat split; [now rewrite Ho | exact Hs].
        -- discriminate.
        -- right. split; [reflexivity |]. exists u. split; [now rewrite Ho | exact Hs].
      * apply ret_inv in H as [H ->]. left. repeat split. now rewrite H.
    + left. unfold bind, console_error, log, ret in Hc. injection Hc as <- <-.
      split; [reflexivity | split; [reflexivity |]]. simpl.
      destruct (resolve (pdf (data d))) as [url|].
      * apply download_and_store_effect in H
          as [[Hs _] | (u & Ho & _)]; [exact Hs | discriminate].
      * apply ret_inv in H as [H _]. discriminate.
Qed.

Lemma archive_doc_same_ids env season year acc d :
  preserves same_ids (archive_doc env season year acc d).
Proof.
  intros w o w' H. unfold same_ids.
  apply archive_doc_effect in H as [(_ & _ & ->) | [(_ & _ & Hs) | (_ & u & _ & Hs)]].
  - reflexivity.
  - now rewrite Hs.
  - rewrite Hs. apply ids_update.
Qed.

Lemma archive_handler_same_ids env req :
  preserves same_ids (Archive.handler env req).
Proof.
  unfold Archive.handler.
  destruct (negb (method req =? "POST")); [apply preserves_respond; exact _ |].
  destruct (negb (truthy (req_season req)) || negb (truthy (req_year req)));
    [apply preserves_respond; exact _ |].
  apply preserves_try_catch; [exact _ | | intros e].
  - unfold archive_all.
    apply preserves_bind; [exact _ | | intros docs].
    + apply keeps_getDocs; [exact _ |]. intros w. reflexivity.
    + destruct docs as [|d0 ds]; [apply preserves_respond; exact _ |].
      apply preserves_bind; [exact _ | | intros out; apply preserves_respond; exact _].
      apply preserves_for_of; [exact _ |]. intros acc d _. apply archive_doc_same_ids.
  - apply preserves_bind; [exact _ | | intros _; apply preserves_respond; exact _].
    apply keeps_console_error. intros w. reflexivity.
Qed.

End ArchiveStore.

Section ArchiveReports.
Import JS Store Sys Frame Shape Archive.

(** The loop reports every archived document of the snapshot as already
    there, and drops nothing that was reported. *)
Lemma for_of_reports env season year (docs : list Doc) :
  forall (acc out : list UpdatedDoc) (w w' : World),
    for_of docs (archive_doc env season year) acc w = (Returned out, w') ->
    (forall e, In e acc -> In e out)
    /\ (forall d, In d docs -> truthy (pdfStorageUrl (data d)) = true ->
                  In (already (id d) (pdfStorageUrl (data d))) out).
Proof.
  induction docs as [|d docs IH]; intros acc out w w' H; simpl in H.
  - apply ret_inv in H as [H _]. injection H as ->. split; [auto | contradiction].
  - apply bind_inv in H as [(acc1 & w1 & H1 & H) | (e & _ & He)]; [| discriminate].
    destruct (IH _ _ _ _ H) as [Hkeep Hrep].
    apply archive_doc_effect in H1
      as [(Hu & Ho & _) | [(Hu & Ho & _) | (Hu & u & Ho & _)]];
      injection Ho as ->.
    + split.
      * intros e He. apply Hkeep. apply in_or_app. now left.
      * intros d' [<- | Hd'] Hu'; [| now apply Hrep].
        apply Hkeep. apply in_or_app. right. now left.
    + split; [exact Hkeep |].
      intros d' [<- | Hd'] Hu'; [congruence | now apply Hrep].
    + split.
      * intros e He. apply Hkeep. apply in_or_app. now left.
      * intros d' [<- | Hd'] Hu'; [congruence | now apply Hrep].
Qed.

(** What the loop reports is what the collection holds afterwards. *)
Lemma for_of_recorded env season year (docs : list Doc) :
  forall (acc out : list UpdatedDoc) (w w' : World),
    NoDup (ids docs) ->
    (forall d, In d docs -> In d (store w)) ->
    (forall e, In e acc -> recorded e (store w) /\ ~ In (upd_id e) (ids docs)) ->
    for_of docs (archive_doc env season year) acc w = (Returned out, w') ->
    forall e, In e out -> recorded e (store w').
Proof.
  induction docs as [|d docs IH]; intros acc out w w' Hnd Hin Hacc H; simpl in H.
  - apply ret_inv in H as [H ->]. injection H as ->. intros e He. now apply Hacc.
  - apply bind_inv in H as [(acc1 & w1 & H1 & H) | (e & _ & He)]; [| discriminate].
    inversion Hnd as [|x l Hnotin Hnd']; subst.
    assert (Hd : In d (store w)) by (apply Hin; now left).
    assert (Hother : forall d', In d' docs -> id d' <> id d).
    { intros d' Hd' E. apply Hnotin. rewrite <- E. unfold ids. now apply in_map. }
    assert (Hold : forall e, In e acc -> upd_id e <> id d /\ ~ In (upd_id e) (ids docs)).
    { intros e He. destruct (Hacc e He) as [_ Hn]. simpl in Hn. split.
      - intros E. apply Hn. left. now symmetry.
      - intros E. apply Hn. now right. }
    intros e0 He0.
    apply archive_doc_effect in H1
      as [(Hu & Ho & ->) | [(Hu & Ho & Hs) | (Hu & u & Ho & Hs)]];
      injection Ho as ->.
    + eapply IH; [exact Hnd' | | | exact H | exact He0].
      * intros d' Hd'. apply Hin. now right.
      * intros e He. apply in_app_or in He as [He | [<- | []]].
        -- split; [now apply Hacc | now apply Hold].
        -- split; [now exists d | exact Hnotin].
    + eapply IH; [exact Hnd' | | | exact H | exact He0].
      * intros d' Hd'. rewrite Hs. apply Hin. now right.
      * intros e He. rewrite Hs. split; [now apply Hacc | now apply Hold].
    + eapply IH; [exact Hnd' | | | exact H | exact He0].
      * intros d' Hd'. rewrite Hs. apply In_update_other; [apply Hin; now right |].
        now apply Hother.
      * intros e He. rewrite Hs. apply in_app_or in He as [He | [<- | []]].
        -- split; [| now apply Hold].
           destruct (Hacc e He) as [(de & Hde & Hid & Hurl) _].
           exists de. split; [| now split].
           apply In_update_other; [exact Hde |].
           rewrite Hid. now apply Hold.
        -- split; [| exact Hnotin].
           exists {| id := id d; data := apply_patch (SetPdfStorageUrl u) (data d) |}.
           split; [now apply In_update_self | now split].
Qed.

Lemma archive_handler_recorded env req (w w' : World) (msg : string)
      (upd : list UpdatedDoc) :
  NoDup (ids (store w)) ->
  Archive.handler env req w
  = (Returned {| code := 200; json_body := BUpload msg upd |}, w') ->
  forall e, In e upd -> recorded e (store w').
Proof.
  intros Hnd H. unfold Archive.handler in H.
  destruct (negb (method req =? "POST")).
  { apply ret_inv in H as [H _]. discriminate. }
  destruct (negb (truthy (req_season req)) || negb (truthy (req_year req))).
  { apply ret_inv in H as [H _]. discriminate. }
  apply try_catch_inv in H as [(a & H & Ha) | (e & w1 & _ & Hc)].
  - injection Ha as <-. unfold archive_all in H.
    apply bind_inv in H as [(docs & w1 & Hq & H) | (e & _ & He)]; [| discriminate].
    apply getDocs_inv in Hq as [-> ->].
    change (store (logged w (EvGetDocs (req_season req) (req_year req))))
      with (store w) in H.
    destruct (query (req_season req) (req_year req) (store w)) as [|d0 ds] eqn:Eq.
    { apply ret_inv in H as [H _]. discriminate. }
    apply bind_inv in H as [(out & w2 & Hloop & H) | (e & _ & He)]; [| discriminate].
    apply ret_inv in H as [H ->]. injection H as _ <-.
    rewrite <- Eq in Hloop.
    intros e He.
    refine (for_of_recorded env _ _ _ _ _ _ _ _ _ _ Hloop e He).
    + now apply NoDup_ids_query.
    + intros d Hd. unfold query in Hd. now apply filter_In in Hd as [Hd _].
    + intros e' [].
  - unfold bind, console_error, log, respond, ret in Hc. discriminate.
Qed.

Lemma archive_handler_reports env req (w w' : World) (msg : string)
      (upd : list UpdatedDoc) (d : Doc) :
  Archive.handler env req w
  = (Returned {| code := 200; json_body := BUpload msg upd |}, w') ->
  In d (query (req_season req) (req_year req) (store w)) ->
  truthy (pdfStorageUrl (data d)) = true ->
  In (already (id d) (pdfStorageUrl (data d))) upd.
Proof.
  intros H Hd Hu. unfold Archive.handler in H.
  destruct (negb (method req =? "POST")).
  { apply ret_inv in H as [H _]. discriminate. }
  destruct (negb (truthy (req_season req)) || negb (truthy (req_year req))).
  { apply ret_inv in H as [H _]. discriminate. }
  apply try_catch_inv in H as [(a & H & Ha) | (e & w1 & _ & Hc)].
  - injection Ha as <-. unfold archive_all in H.
    apply bind_inv in H as [(docs & w1 & Hq & H) | (e & _ & He)]; [| discriminate].
    apply getDocs_inv in Hq as [-> ->].
    change (store (logged w (EvGetDocs (req_season req) (req_year req))))
      with (store w) in H.
    destruct (query (req_season req) (req_year req) (store w)) as [|d0 ds] eqn:Eq.
    { contradiction. }
    apply bind_inv in H as [(out & w2 & Hloop & H) | (e & _ & He)]; [| discriminate].
    apply ret_inv in H as [H ->]. injection H as _ <-.
    now apply (proj2 (for_of_reports env _ _ _ _ _ _ _ Hloop)).
  - unfold bind, console_error, log, respond, ret in Hc. discriminate.
Qed.

End ArchiveReports.

Section ArchiveClaims.
Import JS Store Sys Frame Shape Archive.

(** C2, as stated, fails on its last part: when the blob store takes the
    upload but the durable URL cannot be had, the record stays without
    [pdfStorageUrl]; both calls answer 200, and the second call uploads the
    document again. *)
Lemma archive_twice_uploads_twice :
  let w := Sample.world_of [Sample.fresh_doc] in
  let first := Archive.handler Sample.env_no_url Sample.spring_2026 w in
  let second := Archive.handler Sample.env_no_url Sample.spring_2026 (snd first) in
  fst first
  = Returned {| code := 200; json_body := BUpload "PDF processing completed" [] |}
  /\ fst second
     = Returned {| code := 200; json_body := BUpload "PDF processing completed" [] |}
  /\ pdfStorageUrl (data Sample.fresh_doc) = ""
  /\ store (snd first) = [Sample.fresh_doc]
  /\ uploads_of "doc1" (trace (snd first)) = 1
  /\ uploads_of "doc1" (trace (snd second)) = 2.
Proof. cbv zeta. repeat split; reflexivity. Qed.

(** C2, amended.  (a) On a record that has a non-empty [pdfStorageUrl] the
    loop body changes nothing in the world (no fetch, no upload, no update)
    and appends the "Already exists" entry for the record.  (b) For two
    archive calls in succession on a collection with distinct ids, and any
    record that has a non-empty [pdfStorageUrl] after the first call: the
    second call makes no upload and no update for it, and when it answers
    200 and the record has the request's key it reports the record as
    already there.  (c) Every entry the first call reports with a non-empty
    URL is such a record, so the second call makes no upload for it.
    (d) On a record with a viewer link and no [pdfStorageUrl], whatever
    uploads the trace already shows for it: when the download answers ok,
    its body can be read and the blob store takes the upload, the loop
    body makes one more upload for the record; and when the URL lookup or
    the record update then fails, the record is not reported and the
    collection is as before, so the record still has no [pdfStorageUrl]. *)
Theorem archive_idempotent_once_recorded :
  (forall (env : Env) (season year : string) (acc : list UpdatedDoc) (d : Doc) (w : World),
      truthy (pdfStorageUrl (data d)) = true ->
      archive_doc env season year acc d w
      = (Returned (acc ++ [already (id d) (pdfStorageUrl (data d))])%list, w))
  /\ (forall (env : Env) (req : Request) (w w1 w2 : World) (r1 r2 : Outcome Response),
         NoDup (ids (store w)) ->
         Archive.handler env req w = (r1, w1) ->
         Archive.handler env req w1 = (r2, w2) ->
         (forall d,
             In d (store w1) ->
             truthy (pdfStorageUrl (data d)) = true ->
             uploads_of (id d) (trace w2) = uploads_of (id d) (trace w1)
             /\ updates_of (id d) (trace w2) = updates_of (id d) (trace w1)
             /\ (forall msg upd,
                    matches (req_season req) (req_year req) d = true ->
                    r2 = Returned {| code := 200; json_body := BUpload msg upd |} ->
                    In (already (id d) (pdfStorageUrl (data d))) upd))
         /\ (forall msg upd e,
                r1 = Returned {| code := 200; json_body := BUpload msg upd |} ->
                In e upd ->
                truthy (upd_pdfStorageUrl e) = true ->
                uploads_of (upd_id e) (trace w2) = uploads_of (upd_id e) (trace w1)))
  /\ (forall (env : Env) (season year : string) (acc : list UpdatedDoc) (d : Doc)
             (w : World) (url bytes : string) (resp : FetchResponse),
         truthy (pdf (data d)) = true ->
         truthy (pdfStorageUrl (data d)) = false ->
         resolve (pdf (data d)) = Some url ->
         let w1 := logged w (EvFetch url None) in
         fetch_answer env w1 url = Ok resp ->
         ok resp = true ->
         body resp = Ok bytes ->
         let file := fileName season year (Date_now env w1) in
         let w2 := logged w1 (EvUploadBytes (id d) file bytes) in
         uploadBytes_answer env w2 file = Ok tt ->
         let w3 := {| store := store w; bucket := (bucket w ++ [(file, bytes)])%list;
                      trace := trace w2 |} in
         let w4 := logged w3 (EvGetDownloadURL (id d) file) in
         let run := archive_doc env season year acc d w in
         uploads_of (id d) (trace (snd run)) = S (uploads_of (id d) (trace w))
         /\ (forall e,
                getDownloadURL_answer env w4 file = Fails e ->
                fst run = Returned acc /\ store (snd run) = store w)
         /\ (forall u e,
                getDownloadURL_answer env w4 file = Ok u ->
                updateDoc_answer env (logged w4 (EvUpdateDoc (id d) (SetPdfStorageUrl u)))
                                 (id d) = Fails e ->
                fst run = Returned acc /\ store (snd run) = store w)).
Proof.
  split; [| split].
  - intros env season year acc d w Hu. unfold archive_doc.
    now rewrite Hu, andb_false_r.
  - intros env req w w1 w2 r1 r2 Hnd H1 H2.
    assert (Hnd1 : NoDup (ids (store w1))).
    { pose proof (archive_handler_same_ids env req _ _ _ H1) as Hids.
      unfold same_ids in Hids. now rewrite Hids. }
    assert (Hkept : forall d,
               In d (store w1) -> truthy (pdfStorageUrl (data d)) = true ->
               untouched (id d) w1 w2).
    { intros d Hd Hu.
      apply (archive_handler_untouched (id d) env req w1 w2 r2); [| exact H2].
      intros d' Hd' Hid.
      assert (Hin' : In d' (store w1))
        by (unfold query in Hd'; now apply filter_In in Hd' as [Hd' _]).
      now rewrite (ids_inj (store w1) d' d Hnd1 Hin' Hd Hid). }
    split.
    + intros d Hd Hu. destruct (Hkept d Hd Hu) as [Hup Hupd].
      split; [exact Hup | split; [exact Hupd |]].
      intros msg upd Hm Hr. subst r2.
      apply (archive_handler_reports env req w1 w2 msg upd d H2); [| exact Hu].
      unfold query. apply filter_In. now split.
    + intros msg upd e Hr He Hu. subst r1.
      destruct (archive_handler_recorded env req w w1 msg upd Hnd H1 e He)
        as (d & Hd & Hid & Hurl).
      rewrite <- Hid. apply (Hkept d Hd). now rewrite Hurl.
  - intros env season year acc d w url bytes resp Hpdf Hurl Hres w1 Hfetch Hok Hbody
           file w2 Hup w3 w4 run.
    assert (Hrun :
              run
              = match getDownloadURL_answer env w4 file with
                | Ok u =>
                    let w5 := logged w4 (EvUpdateDoc (id d) (SetPdfStorageUrl u)) in
                    match updateDoc_answer env w5 (id d) with
                    | Ok _ =>
                        if existsb (has_id (id d)) (store w)
                        then (Returned (acc ++ [uploaded (id d) u])%list,
                              {| store := update (id d) (SetPdfStorageUrl u) (store w);
                                 bucket := bucket w5; trace := trace w5 |})
                        else (Returned acc,
                              logged w5 (EvConsoleError
                                           "Error processing PDF: No document to update"))
                    | Fails e =>
                        (Returned acc,
                         logged w5 (EvConsoleError ("Error processing PDF: " ++ e)))
                    end
                | Fails e =>
                    (Returned acc,
                     logged w4 (EvConsoleError ("Error processing PDF: " ++ e)))
                end).
    { unfold run, archive_doc. rewrite Hpdf, Hurl, Hres. simpl.
      unfold try_catch, download_and_store, bind, fetch, fetch_with, bind, log, ask.
      fold w1. rewrite Hfetch. simpl. rewrite Hok.
      unfold upload_pdf, bind, now, uploadBytes, bind, log, ask.
      rewrite Hbody. simpl.
      match goal with
      | |- context [uploadBytes_answer env ?x ?f] => change x with w2; change f with file
      end.
      rewrite Hup. simpl.
      unfold getDownloadURL, bind, log, ask.
      match goal with
      | |- context [getDownloadURL_answer env ?x ?f] =>
          change x with w4; change f with file
      end.
      destruct (getDownloadURL_answer env w4 file) as [u|e]; simpl; [| reflexivity].
      unfold updateDoc, bind, log, ask.
      match goal with
      | |- context [updateDoc_answer env ?x _] =>
          change x with (logged w4 (EvUpdateDoc (id d) (SetPdfStorageUrl u)))
      end.
      destruct (updateDoc_answer env _ (id d)) as [[]|e]; simpl; [| reflexivity].
      replace (store (logged w4 (EvUpdateDoc (id d) (SetPdfStorageUrl u))))
        with (store w) by reflexivity.
      now destruct (existsb (has_id (id d)) (store w)). }
    rewrite Hrun. split; [| split].
    + destruct (getDownloadURL_answer env w4 file) as [u|e]; cbn zeta;
        [destruct (updateDoc_answer env _ (id d)) as [[]|e];
           [destruct (existsb (has_id (id d)) (store w)) |] |];
        subst w4 w3 w2 w1; cbn [snd trace logged];
        rewrite !uploads_of_app; simpl; rewrite ?String.eqb_refl; lia.
    + intros e He. rewrite He. split; reflexivity.
    + intros u e Hu He. rewrite Hu. cbn zeta. rewrite He. split; reflexivity.
Qed.

Lemma archive_idempotent_once_recorded_witness :
  let w := Sample.world_of [Sample.fresh_doc; Sample.plain_doc; Sample.archived_doc] in
  let first := Archive.handler Sample.env_ok Sample.spring_2026 w in
  let second := Archive.handler Sample.env_ok Sample.spring_2026 (snd first) in
  NoDup (ids (store w))
  /\ uploads_of "doc1" (trace (snd first)) = 1
  /\ uploads_of "doc1" (trace (snd second)) = uploads_of "doc1" (trace (snd first)).
Proof.
  cbv zeta.
  assert (Hnd : NoDup (ids (store (Sample.world_of
                         [Sample.fresh_doc; Sample.plain_doc; Sample.archived_doc])))).
  { repeat constructor; simpl; intuition discriminate. }
  split; [exact Hnd | split; [reflexivity |]].
  refine (proj2 (proj1 (proj2 archive_idempotent_once_recorded) Sample.env_ok
                   Sample.spring_2026
                   (Sample.world_of
                      [Sample.fresh_doc; Sample.plain_doc; Sample.archived_doc])
                   _ _ _ _ Hnd eq_refl eq_refl)
            "PDF processing completed" _
            (uploaded "doc1"
               "https://storage.example/ccl/spring/2026/1767225600000_ccl_spring_2026.pdf")
            eq_refl _ eq_refl).
  left. reflexivity.
Defined.

End ArchiveClaims.

(* ********************************************************************* *)
(** * Part III: further properties of the handlers and their callers         *)
(* ********************************************************************* *)

Section MorePreorders.
Import Store Sys Frame Shape Keeps.

#[export] Instance reads_only_pre : PreOrder reads_only.
Proof.
  split.
  - intros w. repeat split. exists []. split; [now rewrite app_nil_r | reflexivity].
  - intros a b c (S1 & B1 & e1 & T1 & F1) (S2 & B2 & e2 & T2 & F2).
    split; [congruence | split; [congruence |]].
    exists (e1 ++ e2)%list. split.
    + now rewrite T2, T1, app_assoc.
    + rewrite forallb_app, F1, F2. reflexivity.
Qed.

#[export] Instance same_data_pre : PreOrder same_data.
Proof.
  split.
  - intros w. now split.
  - intros a b c [S1 B1] [S2 B2]. split; congruence.
Qed.

#[export] Instance appended_pre (s y : string) : PreOrder (appended s y).
Proof.
  split.
  - intros w. split; [reflexivity |]. exists []. split; [now rewrite app_nil_r | constructor].
  - intros a b c (B1 & n1 & S1 & F1) (B2 & n2 & S2 & F2).
    split; [congruence |]. exists (n1 ++ n2)%list. split.
    + now rewrite S2, S1, app_assoc.
    + apply Forall_app. now split.
Qed.

#[export] Instance blobs_added_pre (s y : string) : PreOrder (blobs_added s y).
Proof.
  split.
  - intros w. exists []. split; [now rewrite app_nil_r | constructor].
  - intros a b c (n1 & S1 & F1) (n2 & S2 & F2).
    exists (n1 ++ n2)%list. split.
    + now rewrite S2, S1, app_assoc.
    + apply Forall_app. now split.
Qed.

Lemma reads_only_logged (w : World) (e : Event) :
  is_query_or_log e = true -> reads_only w (logged w e).
Proof.
  intros H. repeat split. exists [e]. split; [reflexivity |]. simpl. now rewrite H.
Qed.

Lemma appended_same (s y : string) (w w' : World) :
  store w' = store w -> bucket w' = bucket w -> appended s y w w'.
Proof.
  intros Hs Hb. split; [exact Hb |]. exists []. split; [now rewrite app_nil_r | constructor].
Qed.

Lemma blobs_added_same (s y : string) (w w' : World) :
  bucket w' = bucket w -> blobs_added s y w w'.
Proof. intros Hb. exists []. split; [now rewrite app_nil_r | constructor]. Qed.

End MorePreorders.

(* ===================================================================== *)
(** ** Status lookup                                                      *)
(* ===================================================================== *)

Section StatusFacts.
Import JS Store Sys Frame Shape Keeps.

Lemma status_handler_reads_only (env : Env) (req : Request) :
  preserves reads_only (Status.handler env req).
Proof.
  unfold Status.handler, Status.answer.
  destruct (negb (method req =? "GET")); [apply preserves_ret; exact _ |].
  destruct (negb (truthy (req_season req)) || negb (truthy (req_year req)));
    [apply preserves_ret; exact _ |].
  apply preserves_try_catch; [exact _ | | intros e].
  - apply preserves_bind; [exact _ | | intros docs].
    + apply keeps_getDocs; [exact _ |]. intros w. now apply reads_only_logged.
    + destruct docs; apply preserves_ret; exact _.
  - apply preserves_bind; [exact _ | | intros _; apply preserves_ret; exact _].
    apply keeps_console_error. intros w. now apply reads_only_logged.
Qed.

(** X1.  The status lookup is a pure read: whatever the request and
    whatever the store answers, the collection and the bucket are as before
    and the only calls made are the query and, on failure, a log.  An answer
    [exists: true] carries the data of the first document of the query, and
    [exists: false] is given only when the query finds nothing.  A valid GET
    whose query answers is answered 200 with exactly that. *)
Theorem status_reads_first_record :
  forall (env : Env) (req : Request) (w : World),
    let run := Status.handler env req w in
    let found := query (req_season req) (req_year req) (store w) in
    reads_only w (snd run)
    /\ (forall d,
           fst run = Returned {| Status.s_code := 200; Status.s_body := Status.SFound d |} ->
           exists first rest, found = first :: rest /\ d = data first)
    /\ (fst run = Returned {| Status.s_code := 200; Status.s_body := Status.SMissing |} ->
        found = [])
    /\ (method req = "GET" ->
        truthy (req_season req) = true ->
        truthy (req_year req) = true ->
        getDocs_answer env (logged w (EvGetDocs (req_season req) (req_year req))) = Ok tt ->
        run = (Returned {| Status.s_code := 200;
                           Status.s_body :=
                             match found with
                             | [] => Status.SMissing
                             | first :: _ => Status.SFound (data first)
                             end |},
               logged w (EvGetDocs (req_season req) (req_year req)))).
Proof.
  intros env req w run found.
  split.
  { apply (status_handler_reads_only env req w (fst run) (snd run)).
    subst run. now destruct (Status.handler env req w). }
  assert (Hshape :
            (exists c m, fst run = Returned {| Status.s_code := c;
                                               Status.s_body := Status.SMessage m |})
            \/ (exists e, fst run
                          = Returned {| Status.s_code := 500;
                                        Status.s_body :=
                                          Status.SError "Internal server error" e |})
            \/ fst run
               = Returned {| Status.s_code := 200;
                             Status.s_body :=
                               match found with
                               | [] => Status.SMissing
                               | first :: _ => Status.SFound (data first)
                               end |}).
  { subst run found. unfold Status.handler, Status.answer.
    destruct (negb (method req =? "GET")); [left; now eexists _, _ |].
    destruct (negb (truthy (req_season req)) || negb (truthy (req_year req)));
      [left; now eexists _, _ |].
    unfold try_catch, bind, getDocs, bind, log, ask, console_error, log, ret. simpl.
    destruct (getDocs_answer env (logged w (EvGetDocs (req_season req) (req_year req))));
      simpl.
    - right. right.
      now destruct (query (req_season req) (req_year req) (store w)).
    - right. left. now eexists. }
  split; [| split].
  - intros d Hd.
    destruct Hshape as [(c & m & H) | [(e & H) | H]]; rewrite H in Hd; try discriminate.
    destruct found as [|first rest]; [discriminate |].
    injection Hd as <-. now exists first, rest.
  - intros Hd.
    destruct Hshape as [(c & m & H) | [(e & H) | H]]; rewrite H in Hd; try discriminate.
    destruct found as [|first rest]; [reflexivity | discriminate].
  - intros Hm Hs Hy Hq. subst run found.
    unfold Status.handler, Status.answer. rewrite Hm, Hs, Hy. simpl.
    unfold try_catch, bind, getDocs, bind, log, ask, ret. rewrite Hq. simpl.
    now destruct (query (req_season req) (req_year req) (store w)).
Qed.

End StatusFacts.

(* ===================================================================== *)
(** ** Discovery: what a search saves                                     *)
(* ===================================================================== *)

Section DiscoverScrape.
Import JS Store Sys Frame Shape Keeps Scrape.

Lemma same_data_logged (w : World) (e : Event) : same_data w (logged w e).
Proof. now split. Qed.

Lemma fetch_with_same_data (env : Env) (u : string) (post : option string) :
  preserves same_data (fetch_with env u post).
Proof. apply keeps_fetch_with; [exact _ |]. intros w. apply same_data_logged. Qed.

Lemma addLink_truthy (arr : list string) (h : string) :
  all_truthy arr -> truthy h = true -> all_truthy (addLink arr h).
Proof.
  unfold addLink, all_truthy. intros Ha Hh.
  destruct (arr_includes arr h); [exact Ha |].
  apply Forall_app. split; [exact Ha | now constructor].
Qed.

Lemma bucket_step_truthy cond (arr : list string) (el : Anchor) :
  all_truthy arr -> all_truthy (FirstWins.bucket_step cond arr el).
Proof.
  intros Ha. unfold FirstWins.bucket_step. destruct (href el) as [h|]; [| exact Ha].
  destruct (truthy h) eqn:Hh; simpl; [| exact Ha].
  destruct (negb (excluded (toLowerCase h))
            && cond (toLowerCase (text el)) (toLowerCase h)); [| exact Ha].
  now apply addLink_truthy.
Qed.

Lemma bucket_fold_truthy cond (anchors : list Anchor) (arr : list string) :
  all_truthy arr -> all_truthy (fold_left (FirstWins.bucket_step cond) anchors arr).
Proof.
  revert arr. induction anchors as [|el anchors IH]; intros arr Ha; simpl; [exact Ha |].
  apply IH. now apply bucket_step_truthy.
Qed.

Lemma first_or_empty_truthy (arr : list string) :
  all_truthy arr ->
  truthy (first_or_empty arr) = (0 <? List.length arr)%nat.
Proof.
  intros Ha. destruct arr as [|x arr]; [reflexivity |].
  inversion Ha as [|y l Hx _]; subst. simpl. unfold or_else. now rewrite Hx.
Qed.

(** A page is kept exactly when the record built from it has some link. *)
Lemma has_links_record (season year u : string) (anchors : list Anchor) :
  has_some_link (Discover.tournamentData season year (scrape u anchors))
  = has_links (scrape u anchors).
Proof.
  unfold has_some_link, has_links, Discover.tournamentData, scrape. simpl.
  destruct (scrape_buckets anchors (empty_result u)) as (-> & -> & -> & -> & -> & _).
  simpl. rewrite !first_or_empty_truthy by (apply bucket_fold_truthy; constructor).
  reflexivity.
Qed.

Lemma scrape_url (u : string) (anchors : list Anchor) : url (scrape u anchors) = u.
Proof.
  unfold scrape. now destruct (scrape_buckets anchors (empty_result u)) as (_ & _ & _ & _ & _ & ->).
Qed.

(** One source: the turn of the loop never throws and writes nothing; it
    adds at most the scrape of that source, and only if it has links. *)
Lemma scrape_source_effect (env : Env) (acc : list result) (u : string) (w : World) :
  exists out w',
    Discover.scrape_source env acc u w = (Returned out, w')
    /\ same_data w w'
    /\ (out = acc
        \/ exists html,
            page_body env u html
            /\ out = (acc ++ [scrape u (cheerio_anchors env html)])%list
            /\ has_links (scrape u (cheerio_anchors env html)) = true).
Proof.
  unfold Discover.scrape_source, try_catch, bind, fetch, fetch_with, bind, log, ask,
    console_error, log.
  destruct (fetch_answer env (logged w (EvFetch u None)) u) as [resp|e] eqn:Ef; simpl.
  - destruct (ok resp) eqn:Eok; simpl.
    + destruct (body resp) as [html|e] eqn:Eb; simpl.
      * destruct (has_links (scrape u (cheerio_anchors env html))) eqn:Hl.
        -- eexists _, _. split; [reflexivity |]. split; [now split |].
           right. exists html. split; [| now split].
           now exists (logged w (EvFetch u None)), resp.
        -- eexists _, _. split; [reflexivity |]. split; [now split | now left].
      * eexists _, _. split; [reflexivity |]. split; [now split | now left].
    + eexists _, _. split; [reflexivity |]. split; [now split | now left].
  - eexists _, _. split; [reflexivity |]. split; [now split | now left].
Qed.

Lemma scrape_loop_effect (env : Env) (sources : list string) :
  forall (acc : list result) (w : World),
  exists more w',
    for_of sources (Discover.scrape_source env) acc w = (Returned (acc ++ more)%list, w')
    /\ same_data w w'
    /\ Forall (fun r => has_links r = true
                        /\ In (url r) sources
                        /\ scrape_of_page env r)
              more.
Proof.
  induction sources as [|u sources IH]; intros acc w; simpl.
  - exists [], w. rewrite app_nil_r. repeat split. constructor.
  - destruct (scrape_source_effect env acc u w) as (out & w1 & Hrun & Hsame & Hout).
    destruct (IH out w1) as (more & w' & Hloop & Hsame' & Hmore).
    assert (Hmore' : Forall (fun r => has_links r = true
                                      /\ In (url r) (u :: sources)
                                      /\ scrape_of_page env r)
                            more).
    { eapply Forall_impl; [| exact Hmore].
      intros r (H1 & H2 & H3). split; [exact H1 | split; [now right | exact H3]]. }
    unfold bind. rewrite Hrun.
    destruct Hout as [-> | (html & Hpage & -> & Hl)].
    + exists more, w'. split; [exact Hloop |].
      split; [now transitivity w1 | exact Hmore'].
    + exists (scrape u (cheerio_anchors env html) :: more), w'.
      rewrite <- app_assoc in Hloop. split; [exact Hloop |].
      split; [now transitivity w1 |].
      constructor; [| exact Hmore'].
      split; [exact Hl |]. rewrite scrape_url. split; [now left |].
      exists html. rewrite scrape_url. now split.
Qed.

(** The saving loop, when it ends without a throw: one document per
    result, in order, each with the record built from its page. *)
Lemma save_loop_returned (env : Env) (season year : string) (results : list result) :
  forall (acc out : list TournamentData) (w w' : World),
    for_of results (Discover.save env season year) acc w = (Returned out, w') ->
    out = (acc ++ map (Discover.tournamentData season year) results)%list
    /\ bucket w' = bucket w
    /\ exists new,
        store w' = (store w ++ new)%list
        /\ map data new = map (Discover.tournamentData season year) results.
Proof.
  induction results as [|r results IH]; intros acc out w w' H; simpl in H.
  - apply ret_inv in H as [H ->]. injection H as ->.
    rewrite app_nil_r. repeat split. exists []. now rewrite app_nil_r.
  - apply bind_inv in H as [(acc1 & w1 & H1 & H) | (e & _ & He)]; [| discriminate].
    unfold Discover.save, addDoc, bind, log, ask in H1.
    destruct (addDoc_answer env
                (logged w (EvAddDoc (Discover.tournamentData season year r)))
                (Discover.tournamentData season year r)) as [i|e]; simpl in H1;
      [| discriminate].
    injection H1 as <- <-.
    apply IH in H as (-> & Hb & new & Hs & Hd). simpl in *.
    split; [now rewrite <- app_assoc |]. split; [exact Hb |].
    exists ({| id := i; data := Discover.tournamentData season year r |} :: new).
    split; [now rewrite Hs, <- app_assoc | simpl; now rewrite Hd].
Qed.

Lemma save_appends (env : Env) (season year : string)
      (acc : list TournamentData) (r : result) :
  preserves (appended season year) (Discover.save env season year acc r).
Proof.
  intros w o w' H. unfold Discover.save, addDoc, bind, log, ask in H.
  destruct (addDoc_answer env
              (logged w (EvAddDoc (Discover.tournamentData season year r)))
              (Discover.tournamentData season year r)) as [i|e]; simpl in H;
    injection H as _ <-.
  - split; [reflexivity |].
    exists [{| id := i; data := Discover.tournamentData season year r |}].
    split; [reflexivity |]. constructor; [| constructor]. repeat split.
  - now apply appended_same.
Qed.

End DiscoverScrape.

Section DiscoverMore.
Import JS Store Sys Frame Shape Keeps Scrape.

Lemma query_app (s y : string) (a b : list Doc) :
  query s y (a ++ b)%list = (query s y a ++ query s y b)%list.
Proof. unfold query. apply filter_app. Qed.

Lemma query_all (s y : string) (l : list Doc) :
  Forall (fun d => season (data d) = s /\ year (data d) = y) l -> query s y l = l.
Proof.
  unfold query. induction 1 as [|d l [Hs Hy] _ IH]; simpl; [reflexivity |].
  assert (Hm : matches s y d = true)
    by (unfold matches; now rewrite Hs, Hy, !String.eqb_refl).
  now rewrite Hm, IH.
Qed.

Lemma saved_records_match (season year : string) (results : list result) (new : list Doc) :
  map data new = map (Discover.tournamentData season year) results ->
  Forall (fun d => Store.season (data d) = season /\ Store.year (data d) = year) new.
Proof.
  revert results. induction new as [|d new IH]; intros results H; [constructor |].
  destruct results as [|r results]; [discriminate |]. simpl in H.
  injection H as Hd Hrest. constructor; [| now apply (IH results)].
  rewrite Hd. now split.
Qed.

(** What a 200 answer of a search run means. *)
Lemma discover_success_inv (env : Env) (req : Request) (w w' : World)
      (msg answer : string) (sources : list string) (scraped : list result)
      (saved : list TournamentData) :
  Discover.handler env req w
  = (Returned {| code := 200;
                 json_body := BSearch msg answer sources scraped saved |}, w') ->
  query (req_season req) (req_year req) (store w) = []
  /\ Forall (fun u => Filter.citation_filter (req_season req) (req_year req) u = true)
            sources
  /\ Forall (fun r => has_links r = true
                      /\ In (url r) sources
                      /\ scrape_of_page env r)
            scraped
  /\ saved = map (Discover.tournamentData (req_season req) (req_year req)) scraped
  /\ bucket w' = bucket w
  /\ exists new, store w' = (store w ++ new)%list /\ map data new = saved.
Proof.
  unfold Discover.handler. intros H.
  destruct (negb (method req =? "POST")).
  { apply ret_inv in H as [H _]. discriminate. }
  destruct (negb (truthy (req_season req)) || negb (truthy (req_year req))).
  { apply ret_inv in H as [H _]. discriminate. }
  apply try_catch_inv in H as [(a & H & Ha) | (e & w1 & _ & Hc)].
  2:{ unfold bind, console_error, log, respond, ret in Hc. discriminate. }
  injection Ha as <-.
  apply bind_inv in H as [(docs & w1 & Hq & H) | (e & _ & He)]; [| discriminate].
  apply getDocs_inv in Hq as [-> ->].
  change (store (logged w (EvGetDocs (req_season req) (req_year req))))
    with (store w) in H.
  destruct (query (req_season req) (req_year req) (store w)) as [|d0 ds] eqn:Eq.
  2:{ apply ret_inv in H as [H _]. discriminate. }
  split; [reflexivity |].
  apply bind_inv in H as [(resp & w2 & Hf & H) | (e & _ & He)]; [| discriminate].
  apply fetch_with_same_data in Hf. destruct Hf as [Hs2 Hb2]. simpl in Hs2, Hb2.
  destruct (negb (ok resp)); [discriminate |].
  apply bind_inv in H as [(text & w3 & Ht & H) | (e & _ & He)]; [| discriminate].
  assert (Hw3 : w3 = w2).
  { destruct (body resp); simpl in Ht; [now injection Ht | discriminate]. }
  subst w3.
  apply bind_inv in H as [(found & w4 & Hp & H) | (e & _ & He)]; [| discriminate].
  assert (Hw4 : w4 = w2).
  { destruct (perplexity_data env text); simpl in Hp; [now injection Hp | discriminate]. }
  subst w4.
  apply bind_inv in H as [(results & w5 & Hscr & H) | (e & _ & He)]; [| discriminate].
  destruct (scrape_loop_effect env
              (Filter.filteredSources (req_season req) (req_year req) (snd found)) [] w2)
    as (more & w5' & Hloop & [Hs5 Hb5] & Hmore).
  rewrite Hloop in Hscr. injection Hscr as <- <-. simpl in *.
  apply bind_inv in H as [(out & w6 & Hsave & H) | (e & _ & He)]; [| discriminate].
  apply ret_inv in H as [H ->]. injection H as _ _ -> -> ->.
  apply save_loop_returned in Hsave as (-> & Hb6 & new & Hs6 & Hd).
  split.
  { unfold Filter.filteredSources. apply Forall_forall. intros u Hu.
    now apply filter_In in Hu as [_ Hu]. }
  split; [exact Hmore |]. split; [reflexivity |].
  split; [congruence |].
  exists new. split; [| exact Hd]. rewrite Hs6, Hs5, Hs2. reflexivity.
Qed.

(** X2.  When a search run answers 200 with fresh results: the key had no
    record; every source kept passed the citation filter; every scraped
    page has links, has the address of a kept source, and is the scrape of
    the anchors of a body that a fetch of that address answered with [ok];
    [savedData] holds the record of each scraped page, in order, and every
    saved record has at least one link field set; one new document per
    saved record is added to the collection, and the bucket is as before. *)
Theorem discover_saves_what_it_scraped :
  forall (env : Env) (req : Request) (w w' : World)
         (msg answer : string) (sources : list string) (scraped : list result)
         (saved : list TournamentData),
    Discover.handler env req w
    = (Returned {| code := 200;
                   json_body := BSearch msg answer sources scraped saved |}, w') ->
    query (req_season req) (req_year req) (store w) = []
    /\ Forall (fun u => Filter.citation_filter (req_season req) (req_year req) u = true)
              sources
    /\ Forall (fun r => has_links r = true
                        /\ In (url r) sources
                        /\ scrape_of_page env r)
              scraped
    /\ saved = map (Discover.tournamentData (req_season req) (req_year req)) scraped
    /\ Forall (fun d => has_some_link d = true /\ pdfStorageUrl d = ""
                        /\ tournamentInfo d = None) saved
    /\ bucket w' = bucket w
    /\ exists new, store w' = (store w ++ new)%list /\ map data new = saved.
Proof.
  intros env req w w' msg answer sources scraped saved H.
  apply discover_success_inv in H as (Hq & Hsrc & Hscr & -> & Hb & Hnew).
  split; [exact Hq |]. split; [exact Hsrc |].
  split; [exact Hscr |].
  split; [reflexivity |]. split; [| now split].
  apply Forall_forall. intros d Hd.
  apply in_map_iff in Hd as (r & <- & Hr).
  rewrite Forall_forall in Hscr.
  destruct (Hscr r Hr) as (Hl & _ & html & _ & Hrs).
  split; [| now split]. rewrite Hrs at 1. rewrite has_links_record, <- Hrs. exact Hl.
Qed.

Lemma discover_saves_what_it_scraped_witness :
  let run := Discover.handler Sample2.env_search_two Sample.spring_2026
                              (Sample.world_of []) in
  Forall (fun r => has_links r = true
                   /\ In (url r) [Sample2.league_page; Sample2.news_page]
                   /\ scrape_of_page Sample2.env_search_two r)
         [scrape Sample2.league_page Sample2.league_anchors;
          scrape Sample2.news_page Sample2.news_anchors]
  /\ exists new,
      store (snd run) = (store (Sample.world_of []) ++ new)%list
      /\ map data new = [Sample.record Sample.drive_link ""; Sample2.news_record].
Proof.
  cbv zeta.
  pose proof (discover_saves_what_it_scraped Sample2.env_search_two Sample.spring_2026
                (Sample.world_of []) _ _ _ _ _ _ eq_refl) as H.
  split; [exact (proj1 (proj2 (proj2 H))) |].
  exact (proj2 (proj2 (proj2 (proj2 (proj2 (proj2 H)))))).
Defined.

End DiscoverMore.

Section DiscoverFrame.
Import JS Store Sys Frame Shape Keeps Scrape.

Lemma appended_logged (s y : string) (w : World) (e : Event) :
  appended s y w (logged w e).
Proof. now apply appended_same. Qed.

Lemma scrape_source_appends (env : Env) (s y : string) (acc : list result) (u : string) :
  preserves (appended s y) (Discover.scrape_source env acc u).
Proof.
  intros w o w' H.
  destruct (scrape_source_effect env acc u w) as (out & w1 & Hrun & [Hs Hb] & _).
  rewrite Hrun in H. injection H as _ <-. now apply appended_same.
Qed.

Lemma discover_handler_appends (env : Env) (req : Request) :
  preserves (appended (req_season req) (req_year req)) (Discover.handler env req).
Proof.
  unfold Discover.handler.
  destruct (negb (method req =? "POST")); [apply preserves_respond; exact _ |].
  destruct (negb (truthy (req_season req)) || negb (truthy (req_year req)));
    [apply preserves_respond; exact _ |].
  apply preserves_try_catch; [exact _ | | intros e].
  - apply preserves_bind; [exact _ | | intros docs].
    + apply keeps_getDocs; [exact _ |]. intros w. apply appended_logged.
    + destruct docs as [|d0 ds]; [| apply preserves_respond; exact _].
      apply preserves_bind; [exact _ | | intros resp].
      * apply keeps_fetch_with; [exact _ |]. intros w. apply appended_logged.
      * destruct (negb (ok resp)); [apply preserves_throw; exact _ |].
        apply preserves_bind; [exact _ | apply preserves_await; exact _ | intros text].
        apply preserves_bind; [exact _ | apply preserves_await; exact _ | intros found].
        apply preserves_bind; [exact _ | | intros results].
        -- apply preserves_for_of; [exact _ |]. intros acc u _.
           apply scrape_source_appends.
        -- apply preserves_bind; [exact _ | | intros saved; apply preserves_respond; exact _].
           apply preserves_for_of; [exact _ |]. intros acc r _. apply save_appends.
  - apply preserves_bind; [exact _ | | intros _; apply preserves_respond; exact _].
    apply keeps_console_error. intros w. apply appended_logged.
Qed.

(** X3.  However a search run ends (an answer of any status, a failure of
    the provider, of a page, or of an insert part-way through), it never
    changes or removes a document that was there and never touches the
    bucket: the collection is the old one followed by zero or more new
    documents, each a record of the requested key with no archived copy
    and no extracted data. *)
Theorem discover_only_appends :
  forall (env : Env) (req : Request) (w : World),
    appended (req_season req) (req_year req) w (snd (Discover.handler env req w)).
Proof.
  intros env req w.
  apply (discover_handler_appends env req w (fst (Discover.handler env req w))).
  now destruct (Discover.handler env req w).
Qed.

(** X4.  When the key has no record and the search provider cannot be
    reached, or answers with a status that is not ok, the run answers 500
    with the provider's error (for a status, "Perplexity API error! status:"
    and the status); no page is fetched and nothing is inserted. *)
Theorem discover_provider_failure :
  forall (env : Env) (req : Request) (w : World),
    method req = "POST" ->
    truthy (req_season req) = true ->
    truthy (req_year req) = true ->
    let w1 := logged w (EvGetDocs (req_season req) (req_year req)) in
    getDocs_answer env w1 = Ok tt ->
    query (req_season req) (req_year req) (store w) = [] ->
    let w2 :=
      logged w1 (EvFetch "https://api.perplexity.ai/chat/completions"
                         (Some (Discover.searchQuery (req_season req) (req_year req)))) in
    forall error : string,
      match fetch_answer env w2 "https://api.perplexity.ai/chat/completions" with
      | Fails e => error = e
      | Ok resp =>
          ok resp = false
          /\ error = "Perplexity API error! status: " ++ show_nat (status resp)
      end ->
      Discover.handler env req w
      = (Returned {| code := 500; json_body := BError "Internal server error" error |},
         logged w2 (EvConsoleError error))
      /\ store (logged w2 (EvConsoleError error)) = store w.
Proof.
  intros env req w Hm Hs Hy w1 Hq Hdocs w2 error Hfail.
  split; [| reflexivity].
  unfold Discover.handler. rewrite Hm, Hs, Hy. simpl.
  unfold try_catch, bind, getDocs, bind, log, ask. fold w1. rewrite Hq. simpl.
  replace (store w1) with (store w) by reflexivity. rewrite Hdocs.
  unfold fetch_with, bind, log, ask. fold w2.
  destruct (fetch_answer env w2 "https://api.perplexity.ai/chat/completions")
    as [resp|e]; simpl.
  - destruct Hfail as [Hok ->]. rewrite Hok. reflexivity.
  - subst error. reflexivity.
Qed.

Lemma discover_provider_failure_witness :
  Discover.handler Sample2.env_search_down Sample.spring_2026 (Sample.world_of [])
  = (Returned {| code := 500;
                 json_body := BError "Internal server error"
                                     "Perplexity API error! status: 503" |},
     logged
       (logged
          (logged (Sample.world_of []) (EvGetDocs "spring" "2026"))
          (EvFetch "https://api.perplexity.ai/chat/completions"
                   (Some "Collegiate Chess League Spring 2026 site:chess.com")))
       (EvConsoleError "Perplexity API error! status: 503")).
Proof.
  refine (proj1 (discover_provider_failure Sample2.env_search_down Sample.spring_2026
                   (Sample.world_of []) eq_refl eq_refl eq_refl eq_refl eq_refl
                   "Perplexity API error! status: 503" _)).
  split; reflexivity.
Defined.

(** The records of a key are the same, up to order, in any arrangement of
    the collection. *)
Lemma query_Permutation (s y : string) (coll coll' : list Doc) :
  Permutation coll coll' -> Permutation (query s y coll) (query s y coll').
Proof.
  unfold query. induction 1 as [| d l l' _ IH | a b l | l l' l'' _ IH1 _ IH2]; simpl.
  - constructor.
  - destruct (matches s y d); [now constructor | exact IH].
  - destruct (matches s y a), (matches s y b);
      try apply Permutation_refl. apply perm_swap.
  - now transitivity (filter (matches s y) l').
Qed.

(** X5.  A search run that saved records makes the key known, in whatever
    order the store keeps its documents.  Take the collection after the
    run in any arrangement (the model puts new documents last; the store
    orders a query by document id, and new ids are random).  The next
    search run for the key (when its query answers) makes no search and
    answers [exists: true] with the records the first run saved, each once,
    in the order of the query; and a status lookup for the key reports one
    of the saved records, the one the query gives first. *)
Theorem discover_then_known :
  forall (env env' : Env) (req lookup : Request) (w w1 w1' : World)
         (msg answer : string) (sources : list string) (scraped : list result)
         (first : TournamentData) (saved : list TournamentData),
    Discover.handler env req w
    = (Returned {| code := 200;
                   json_body := BSearch msg answer sources scraped (first :: saved) |},
       w1) ->
    Permutation (store w1) (store w1') ->
    getDocs_answer env' (logged w1' (EvGetDocs (req_season req) (req_year req))) = Ok tt ->
    method lookup = "GET" ->
    req_season lookup = req_season req ->
    req_year lookup = req_year req ->
    exists (listed : list TournamentData) (shown : TournamentData),
      Permutation (first :: saved) listed
      /\ hd_error listed = Some shown
      /\ In shown (first :: saved)
      /\ Discover.handler env' req w1'
         = (Returned {| code := 200;
                        json_body :=
                          BExists ("Tournament info for " ++ req_season req ++ " "
                                   ++ req_year req ++ " already exists.")
                                  listed |},
            logged w1' (EvGetDocs (req_season req) (req_year req)))
      /\ Status.handler env' lookup w1'
         = (Returned {| Status.s_code := 200; Status.s_body := Status.SFound shown |},
            logged w1' (EvGetDocs (req_season req) (req_year req))).
Proof.
  intros env env' req lookup w w1 w1' msg answer sources scraped first saved
         H Hperm Hq Hm Hls Hly.
  assert (Hvalid : method req = "POST" /\ truthy (req_season req) = true
                   /\ truthy (req_year req) = true).
  { unfold Discover.handler in H.
    destruct (method req =? "POST") eqn:E; simpl in H.
    2:{ apply ret_inv in H as [H _]. discriminate. }
    apply String.eqb_eq in E. split; [exact E |].
    destruct (truthy (req_season req)); simpl in H.
    2:{ apply ret_inv in H as [H _]. discriminate. }
    destruct (truthy (req_year req)); simpl in H; [now split |].
    apply ret_inv in H as [H _]. discriminate. }
  destruct Hvalid as (Hpost & Hs & Hy).
  apply discover_success_inv in H as (Hempty & _ & _ & Hsaved & _ & new & Hstore & Hdata).
  assert (Hfound : query (req_season req) (req_year req) (store w1) = new).
  { rewrite Hstore, query_app, Hempty. simpl.
    apply query_all. apply (saved_records_match _ _ scraped). congruence. }
  assert (Hlisted : Permutation (first :: saved)
                      (map data (query (req_season req) (req_year req) (store w1')))).
  { rewrite <- Hdata, <- Hfound. apply Permutation_map.
    now apply query_Permutation. }
  destruct (query (req_season req) (req_year req) (store w1')) as [|d0 ds] eqn:Efound.
  { apply Permutation_sym, Permutation_nil in Hlisted. discriminate. }
  exists (map data (d0 :: ds)), (data d0).
  split; [exact Hlisted |]. split; [reflexivity |].
  split.
  { apply (Permutation_in _ (Permutation_sym Hlisted)). now left. }
  split.
  - unfold Discover.handler. rewrite Hpost, Hs, Hy. simpl.
    unfold try_catch, bind, getDocs, bind, log, ask. rewrite Hq. simpl.
    now rewrite Efound.
  - unfold Status.handler. rewrite Hm, Hls, Hly, Hs, Hy. simpl.
    unfold try_catch, bind, getDocs, bind, log, ask. rewrite Hq. simpl.
    now rewrite Efound.
Qed.

Lemma discover_then_known_witness :
  let w1 := snd (Discover.handler Sample2.env_search_two Sample.spring_2026
                                  (Sample.world_of [])) in
  let w1' := {| store := rev (store w1); bucket := bucket w1; trace := trace w1 |} in
  (exists (listed : list TournamentData) (shown : TournamentData),
      Permutation [Sample.record Sample.drive_link ""; Sample2.news_record] listed
      /\ hd_error listed = Some shown
      /\ In shown [Sample.record Sample.drive_link ""; Sample2.news_record]
      /\ Discover.handler Sample2.env_search_two Sample.spring_2026 w1'
         = (Returned {| code := 200;
                        json_body :=
                          BExists "Tournament info for spring 2026 already exists."
                                  listed |},
            logged w1' (EvGetDocs "spring" "2026"))
      /\ Status.handler Sample2.env_search_two Sample2.lookup_spring_2026 w1'
         = (Returned {| Status.s_code := 200; Status.s_body := Status.SFound shown |},
            logged w1' (EvGetDocs "spring" "2026")))
  /\ fst (Status.handler Sample2.env_search_two Sample2.lookup_spring_2026 w1')
     = Returned {| Status.s_code := 200;
                   Status.s_body := Status.SFound Sample2.news_record |}.
Proof.
  cbv zeta. split; [| reflexivity].
  refine (discover_then_known Sample2.env_search_two Sample2.env_search_two
            Sample.spring_2026 Sample2.lookup_spring_2026 (Sample.world_of []) _
            {| store := rev (store (snd (Discover.handler Sample2.env_search_two
                                           Sample.spring_2026 (Sample.world_of []))));
               bucket := []; trace := _ |}
            _ _ _ _ _ _ eq_refl _ eq_refl eq_refl eq_refl eq_refl).
  simpl. apply perm_swap.
Defined.

End DiscoverFrame.

(* ===================================================================== *)
(** ** Requests that are refused                                          *)
(* ===================================================================== *)

Section Refusals.
Import JS Store Sys Frame Shape Keeps.

Lemma falsy_param (s y : string) :
  s = "" \/ y = "" -> negb (truthy s) || negb (truthy y) = true.
Proof. intros [-> | ->]; simpl; [reflexivity | apply orb_true_r]. Qed.

(** X6.  Before it makes any call, each handler refuses a request with the
    wrong method (405, whatever the body) and a request whose body (for
    the status lookup, whose query) is an object without a season or
    without a year (400): the world is exactly as before.  A POST whose
    body is [null] is not refused with 400: the three POST handlers throw
    while destructuring the body, having made no call. *)
Theorem invalid_requests_change_nothing :
  forall (env : Env) (req : Request) (i : Wire.Incoming) (w : World),
    (Wire.in_method i <> "POST" ->
     let refused := {| code := 405; json_body := BMessage "Method not allowed" |} in
     Wire.receive Discover.handler env i w = (Returned refused, w)
     /\ Wire.receive Archive.handler env i w = (Returned refused, w)
     /\ Wire.receive Extract.handler env i w = (Returned refused, w))
    /\ (method req <> "GET" ->
        Status.handler env req w
        = (Returned {| Status.s_code := 405;
                       Status.s_body := Status.SMessage "Method not allowed" |}, w))
    /\ (forall season year,
           Wire.in_method i = "POST" ->
           Wire.in_body i = Wire.Fields season year ->
           season = "" \/ year = "" ->
           let refused :=
             {| code := 400; json_body := BMessage "Season and year are required" |} in
           Wire.receive Discover.handler env i w = (Returned refused, w)
           /\ Wire.receive Archive.handler env i w = (Returned refused, w)
           /\ Wire.receive Extract.handler env i w = (Returned refused, w))
    /\ (method req = "GET" -> req_season req = "" \/ req_year req = "" ->
        Status.handler env req w
        = (Returned {| Status.s_code := 400;
                       Status.s_body := Status.SMessage "Season and year are required" |},
           w))
    /\ (Wire.in_method i = "POST" ->
        Wire.in_body i = Wire.Null ->
        Wire.receive Discover.handler env i w = (Thrown Wire.destructure_error, w)
        /\ Wire.receive Archive.handler env i w = (Thrown Wire.destructure_error, w)
        /\ Wire.receive Extract.handler env i w = (Thrown Wire.destructure_error, w)).
Proof.
  intros env req i w. split; [| split; [| split; [| split]]].
  - intros Hm. apply String.eqb_neq in Hm. unfold Wire.receive.
    destruct (Wire.in_body i) as [season year|].
    + unfold Discover.handler, Archive.handler, Extract.handler. cbn [method].
      rewrite Hm. now repeat split.
    + rewrite Hm. now repeat split.
  - intros H. unfold Status.handler. apply String.eqb_neq in H. now rewrite H.
  - intros season year Hm Hb Hmissing. unfold Wire.receive. rewrite Hb.
    unfold Discover.handler, Archive.handler, Extract.handler.
    cbn [method req_season req_year].
    rewrite Hm, (falsy_param _ _ Hmissing). now repeat split.
  - intros H H0. unfold Status.handler. rewrite H, (falsy_param _ _ H0). reflexivity.
  - intros Hm Hb. unfold Wire.receive. rewrite Hb, Hm. now repeat split.
Qed.

(** X7.  For a key with no record, a valid archive call and a valid
    extract call answer 404 "No tournament info found for <season> <year>."
    after the query and nothing else. *)
Theorem unknown_key_is_not_found :
  forall (env : Env) (req : Request) (w : World),
    method req = "POST" ->
    truthy (req_season req) = true ->
    truthy (req_year req) = true ->
    let w1 := logged w (EvGetDocs (req_season req) (req_year req)) in
    getDocs_answer env w1 = Ok tt ->
    query (req_season req) (req_year req) (store w) = [] ->
    let not_found :=
      {| code := 404;
         json_body := BMessage ("No tournament info found for " ++ req_season req
                                ++ " " ++ req_year req ++ ".") |} in
    Archive.handler env req w = (Returned not_found, w1)
    /\ Extract.handler env req w = (Returned not_found, w1).
Proof.
  intros env req w Hm Hs Hy w1 Hq Hdocs not_found. split.
  - unfold Archive.handler, Archive.archive_all. rewrite Hm, Hs, Hy. simpl.
    unfold try_catch, bind, getDocs, bind, log, ask. fold w1. rewrite Hq. simpl.
    replace (store w1) with (store w) by reflexivity. now rewrite Hdocs.
  - unfold Extract.handler. rewrite Hm, Hs, Hy. simpl.
    unfold try_catch, bind, getDocs, bind, log, ask. fold w1. rewrite Hq. simpl.
    replace (store w1) with (store w) by reflexivity. now rewrite Hdocs.
Qed.

Lemma unknown_key_is_not_found_witness :
  Archive.handler Sample.env_ok Sample.spring_2026 (Sample.world_of [])
  = (Returned {| code := 404;
                 json_body := BMessage "No tournament info found for spring 2026." |},
     logged (Sample.world_of []) (EvGetDocs "spring" "2026")).
Proof.
  exact (proj1 (unknown_key_is_not_found Sample.env_ok Sample.spring_2026
                  (Sample.world_of []) eq_refl eq_refl eq_refl eq_refl eq_refl)).
Defined.

End Refusals.

(* ===================================================================== *)
(** ** Archival: one record, and the collection as a whole                *)
(* ===================================================================== *)

Section ArchiveRecord.
Import JS Store Sys Frame Shape Keeps Archive.

(** X8.  One unarchived record with a viewer link, when every call
    succeeds: the file is fetched from the direct-download URL, its bytes
    are uploaded under [ccl/<season>/<year>/<now>_ccl_<season>_<year>.pdf]
    with the clock read after the download, the URL the blob store gives
    for that name is written to the record's [pdfStorageUrl], and the
    record is reported with that URL.  These four calls are the only ones
    made. *)
Theorem archive_record_success :
  forall (env : Env) (season year : string) (acc : list UpdatedDoc) (d : Doc) (w : World)
         (fileId bytes u : string) (resp : FetchResponse),
    truthy (pdf (data d)) = true ->
    pdfStorageUrl (data d) = "" ->
    driveIdMatch (pdf (data d)) = Some fileId ->
    existsb (has_id (id d)) (store w) = true ->
    let w1 := logged w (EvFetch (downloadUrl fileId) None) in
    fetch_answer env w1 (downloadUrl fileId) = Ok resp ->
    ok resp = true ->
    body resp = Ok bytes ->
    let file := fileName season year (Date_now env w1) in
    let w2 := logged w1 (EvUploadBytes (id d) file bytes) in
    uploadBytes_answer env w2 file = Ok tt ->
    let w3 := {| store := store w; bucket := (bucket w ++ [(file, bytes)])%list;
                 trace := trace w2 |} in
    let w4 := logged w3 (EvGetDownloadURL (id d) file) in
    getDownloadURL_answer env w4 file = Ok u ->
    let w5 := logged w4 (EvUpdateDoc (id d) (SetPdfStorageUrl u)) in
    updateDoc_answer env w5 (id d) = Ok tt ->
    archive_doc env season year acc d w
    = (Returned (acc ++ [uploaded (id d) u])%list,
       {| store := update (id d) (SetPdfStorageUrl u) (store w);
          bucket := (bucket w ++ [(file, bytes)])%list;
          trace := (trace w
                    ++ [EvFetch (downloadUrl fileId) None;
                        EvUploadBytes (id d) file bytes;
                        EvGetDownloadURL (id d) file;
                        EvUpdateDoc (id d) (SetPdfStorageUrl u)])%list |}).
Proof.
  intros env season year acc d w fileId bytes u resp Hpdf Hurl Hmatch Hex
         w1 Hfetch Hok Hbody file w2 Hup w3 w4 Hget w5 Hupd.
  assert (Hres : resolve (pdf (data d)) = Some (downloadUrl fileId))
    by (apply resolve_Some; now exists fileId).
  unfold archive_doc. rewrite Hpdf, Hurl, Hres. simpl.
  unfold try_catch, download_and_store, bind, fetch, fetch_with, bind, log, ask.
  fold w1. rewrite Hfetch. simpl. rewrite Hok.
  unfold upload_pdf, bind, now, uploadBytes, bind, log, ask.
  rewrite Hbody. simpl.
  match goal with
  | |- context [uploadBytes_answer env ?x ?f] => change x with w2; change f with file
  end.
  rewrite Hup. simpl.
  unfold getDownloadURL, bind, log, ask.
  match goal with
  | |- context [getDownloadURL_answer env ?x ?f] => change x with w4; change f with file
  end.
  rewrite Hget. simpl.
  unfold updateDoc, bind, log, ask.
  match goal with
  | |- context [updateDoc_answer env ?x _] => change x with w5
  end.
  rewrite Hupd. simpl.
  replace (store w5) with (store w) by reflexivity. rewrite Hex.
  unfold ret. f_equal. subst w5 w4 w3 w2 w1. unfold logged. simpl.
  f_equal. rewrite <- !app_assoc. reflexivity.
Qed.

Lemma archive_record_success_witness :
  let file := "ccl/spring/2026/1767225600000_ccl_spring_2026.pdf" in
  let u := "https://storage.example/" ++ file in
  archive_doc Sample.env_ok "spring" "2026" [] Sample.fresh_doc
              (Sample.world_of [Sample.fresh_doc])
  = (Returned [uploaded "doc1" u],
     {| store := [{| id := "doc1"; data := Sample.record Sample.drive_link u |}];
        bucket := [(file, Sample.pdf_bytes)];
        trace := [EvFetch "https://drive.google.com/uc?export=download&id=XYZ789" None;
                  EvUploadBytes "doc1" file Sample.pdf_bytes;
                  EvGetDownloadURL "doc1" file;
                  EvUpdateDoc "doc1" (SetPdfStorageUrl u)] |}).
Proof.
  cbv zeta.
  exact (archive_record_success Sample.env_ok "spring" "2026" [] Sample.fresh_doc
           (Sample.world_of [Sample.fresh_doc]) "XYZ789" Sample.pdf_bytes
           ("https://storage.example/"
              ++ "ccl/spring/2026/1767225600000_ccl_spring_2026.pdf")
           {| ok := true; status := 200; statusText := "OK"; body := Ok Sample.pdf_bytes |}
           eq_refl eq_refl eq_refl eq_refl eq_refl eq_refl eq_refl eq_refl eq_refl
           eq_refl).
Defined.

(** X9.  One unarchived record with a viewer link, when the download
    fails (the fetch is refused, or answers with a status that is not ok,
    or its body cannot be read): the failure is logged, nothing is
    uploaded, the record is neither updated nor reported, and the loop goes
    on (the turn returns). *)
Theorem archive_record_download_failure :
  forall (env : Env) (season year : string) (acc : list UpdatedDoc) (d : Doc) (w : World)
         (fileId : string),
    truthy (pdf (data d)) = true ->
    pdfStorageUrl (data d) = "" ->
    driveIdMatch (pdf (data d)) = Some fileId ->
    let w1 := logged w (EvFetch (downloadUrl fileId) None) in
    forall message : string,
      match fetch_answer env w1 (downloadUrl fileId) with
      | Fails e => message = "Error processing PDF: " ++ e
      | Ok resp =>
          (ok resp = false
           /\ message = "Failed to download PDF from " ++ downloadUrl fileId)
          \/ (ok resp = true
              /\ exists e, body resp = Fails e
                           /\ message = "Error processing PDF: " ++ e)
      end ->
      archive_doc env season year acc d w
      = (Returned acc, logged w1 (EvConsoleError message)).
Proof.
  intros env season year acc d w fileId Hpdf Hurl Hmatch w1 message Hfail.
  assert (Hres : resolve (pdf (data d)) = Some (downloadUrl fileId))
    by (apply resolve_Some; now exists fileId).
  unfold archive_doc. rewrite Hpdf, Hurl, Hres. simpl.
  unfold try_catch, download_and_store, bind, fetch, fetch_with, bind, log, ask.
  fold w1.
  destruct (fetch_answer env w1 (downloadUrl fileId)) as [resp|e]; simpl.
  - destruct Hfail as [[Hok ->] | (Hok & e & Hbody & ->)]; rewrite Hok.
    + reflexivity.
    + unfold upload_pdf, bind. rewrite Hbody. reflexivity.
  - subst message. reflexivity.
Qed.

Lemma archive_record_download_failure_witness :
  archive_doc Sample2.env_search_down "spring" "2026" [] Sample.fresh_doc
              (Sample.world_of [Sample.fresh_doc])
  = (Returned [],
     logged (logged (Sample.world_of [Sample.fresh_doc])
                    (EvFetch (downloadUrl "XYZ789") None))
            (EvConsoleError
               ("Failed to download PDF from " ++ downloadUrl "XYZ789"))).
Proof.
  refine (archive_record_download_failure Sample2.env_search_down "spring" "2026" []
            Sample.fresh_doc (Sample.world_of [Sample.fresh_doc]) "XYZ789"
            eq_refl eq_refl eq_refl _ _).
  left. split; reflexivity.
Defined.

End ArchiveRecord.

Section ArchiveFrame.
Import JS Store Sys Frame Shape Keeps Archive.

Lemma update_as_map (ups : list (string * string)) (coll : list Doc) :
  apply_updates ups coll = map (patch_all ups) coll.
Proof.
  revert coll. induction ups as [|[i u] ups IH]; intros coll; simpl.
  - now rewrite map_id.
  - rewrite IH. unfold update. rewrite map_map. reflexivity.
Qed.

Lemma same_but_url_refl (a : TournamentData) : same_but_url a a.
Proof. repeat split. Qed.

Lemma same_but_url_trans (a b c : TournamentData) :
  same_but_url a b -> same_but_url b c -> same_but_url a c.
Proof.
  unfold same_but_url.
  intros (A1 & A2 & A3 & A4 & A5 & A6 & A7 & A8 & A9)
         (B1 & B2 & B3 & B4 & B5 & B6 & B7 & B8 & B9).
  repeat split; congruence.
Qed.

(** The updates of a call leave a document's id and every field but the
    URL, and leave the document alone when none of them names it. *)
Lemma patch_all_spec (ups : list (string * string)) (d : Doc) :
  id (patch_all ups d) = id d
  /\ same_but_url (data d) (data (patch_all ups d))
  /\ ((forall iu, In iu ups -> fst iu <> id d) -> patch_all ups d = d).
Proof.
  revert d. induction ups as [|[i u] ups IH]; intros d; simpl.
  - split; [reflexivity | split; [apply same_but_url_refl | reflexivity]].
  - destruct (has_id i d) eqn:E.
    + destruct (IH {| id := id d; data := apply_patch (SetPdfStorageUrl u) (data d) |})
        as (H1 & H2 & _).
      split; [exact H1 | split].
      * eapply same_but_url_trans; [| exact H2]. repeat split.
      * intros Hno. exfalso. apply has_id_true in E.
        apply (Hno (i, u)); [now left | now symmetry].
    + destruct (IH d) as (H1 & H2 & H3).
      split; [exact H1 | split; [exact H2 |]].
      intros Hno. apply H3. intros iu Hiu. apply Hno. now right.
Qed.

Lemma archive_loop_updates env season year (docs : list Doc) :
  forall (acc : list UpdatedDoc) (w w' : World) (o : Outcome (list UpdatedDoc)),
    for_of docs (archive_doc env season year) acc w = (o, w') ->
    exists ups,
      store w' = apply_updates ups (store w) /\ Forall (names_unarchived docs) ups.
Proof.
  induction docs as [|d docs IH]; intros acc w w' o H; simpl in H.
  - apply ret_inv in H as [_ ->]. exists []. split; [reflexivity | constructor].
  - assert (Hwiden : forall ups, Forall (names_unarchived docs) ups ->
                                 Forall (names_unarchived (d :: docs)) ups).
    { intros ups Hu. eapply Forall_impl; [| exact Hu].
      intros iu (d' & Hd' & Hrest). exists d'. split; [now right | exact Hrest]. }
    apply bind_inv in H as [(acc1 & w1 & H1 & H) | (e & H1 & _)].
    + apply IH in H as (ups & Hs & Hups).
      apply archive_doc_effect in H1
        as [(_ & _ & ->) | [(_ & _ & Hs1) | (Hu & u & _ & Hs1)]].
      * exists ups. split; [exact Hs | now apply Hwiden].
      * exists ups. split; [now rewrite Hs, Hs1 | now apply Hwiden].
      * exists ((id d, u) :: ups). split; [simpl; now rewrite Hs, Hs1 |].
        constructor; [| now apply Hwiden].
        exists d. split; [now left | now split].
    + apply archive_doc_effect in H1
        as [(_ & Ho & _) | [(_ & Ho & _) | (_ & u & Ho & _)]]; discriminate.
Qed.

Lemma archive_handler_updates env req (w w' : World) (r : Outcome Response) :
  Archive.handler env req w = (r, w') ->
  exists ups,
    store w' = apply_updates ups (store w)
    /\ Forall (names_unarchived (query (req_season req) (req_year req) (store w))) ups.
Proof.
  unfold Archive.handler. intros H.
  assert (Hnone : forall w0 : World,
             store w0 = store w ->
             exists ups,
               store w0 = apply_updates ups (store w)
               /\ Forall (names_unarchived
                            (query (req_season req) (req_year req) (store w))) ups).
  { intros w0 E. exists []. split; [exact E | constructor]. }
  destruct (negb (method req =? "POST")).
  { apply ret_inv in H as [_ ->]. now apply Hnone. }
  destruct (negb (truthy (req_season req)) || negb (truthy (req_year req))).
  { apply ret_inv in H as [_ ->]. now apply Hnone. }
  assert (Hbody : forall o w1,
             archive_all env (req_season req) (req_year req) w = (o, w1) ->
             exists ups,
               store w1 = apply_updates ups (store w)
               /\ Forall (names_unarchived
                            (query (req_season req) (req_year req) (store w))) ups).
  { intros o w1 Hb. unfold archive_all in Hb.
    apply bind_inv in Hb as [(ds & w2 & Hq & Hb) | (e & Hq & _)].
    - apply getDocs_inv in Hq as [-> ->].
      change (store (logged w (EvGetDocs (req_season req) (req_year req))))
        with (store w) in Hb.
      destruct (query (req_season req) (req_year req) (store w)) as [|d0 ds] eqn:Eq.
      + apply ret_inv in Hb as [_ ->]. now apply Hnone.
      + apply bind_inv in Hb as [(out & w3 & Hloop & Hb) | (e & Hloop & _)].
        * apply ret_inv in Hb as [_ ->].
          exact (archive_loop_updates env _ _ _ _ _ _ _ Hloop).
        * exact (archive_loop_updates env _ _ _ _ _ _ _ Hloop).
    - apply Hnone.
      exact (keeps_getDocs same_store env _ _
               (fun w0 => same_store_logged w0 _) _ _ _ Hq). }
  apply try_catch_inv in H as [(a & H & _) | (e & w1 & H & Hc)].
  - exact (Hbody _ _ H).
  - destruct (Hbody _ _ H) as (ups & Hs & Hups).
    exists ups. split; [| exact Hups].
    unfold bind, console_error, log, respond, ret in Hc. injection Hc as _ <-.
    exact Hs.
Qed.

(** The collection after an archive call, document by document. *)
Lemma archive_handler_pointwise env req (w w' : World) (r : Outcome Response) :
  NoDup (ids (store w)) ->
  Archive.handler env req w = (r, w') ->
  Forall2 (fun d d' =>
             id d' = id d
             /\ same_but_url (data d) (data d')
             /\ (truthy (pdfStorageUrl (data d)) = true -> d' = d)
             /\ (matches (req_season req) (req_year req) d = false -> d' = d))
          (store w) (store w').
Proof.
  intros Hnd H.
  apply archive_handler_updates in H as (ups & -> & Hups).
  rewrite update_as_map. apply Forall2_map_self. intros d Hd.
  destruct (patch_all_spec ups d) as (H1 & H2 & H3).
  assert (Hnamed : forall iu, In iu ups -> fst iu = id d ->
                              matches (req_season req) (req_year req) d = true
                              /\ truthy (pdfStorageUrl (data d)) = false).
  { intros iu Hiu E. rewrite Forall_forall in Hups.
    destruct (Hups iu Hiu) as (d' & Hd' & Hid & Hu).
    unfold query in Hd'. apply filter_In in Hd' as [Hin Hm].
    assert (d' = d) by (apply (ids_inj (store w)); congruence).
    subst d'. now split. }
  split; [exact H1 | split; [exact H2 | split]].
  - intros Hu. apply H3. intros iu Hiu E.
    destruct (Hnamed iu Hiu E) as [_ Hf]. congruence.
  - intros Hm. apply H3. intros iu Hiu E.
    destruct (Hnamed iu Hiu E) as [Ht _]. congruence.
Qed.

(** X10.  An archive call writes nothing but [pdfStorageUrl]s of
    unarchived records of its key.  In a collection with distinct ids,
    however the call ends: every document keeps its place, its id and all
    fields but [pdfStorageUrl]; a document that already has a
    [pdfStorageUrl] is exactly as before (the URL is written once); and so
    is every document of another season or year. *)
Theorem archive_writes_url_once :
  forall (env : Env) (req : Request) (w : World),
    NoDup (ids (store w)) ->
    Forall2 (fun d d' =>
               id d' = id d
               /\ same_but_url (data d) (data d')
               /\ (truthy (pdfStorageUrl (data d)) = true -> d' = d)
               /\ (matches (req_season req) (req_year req) d = false -> d' = d))
            (store w) (store (snd (Archive.handler env req w))).
Proof.
  intros env req w Hnd.
  destruct (Archive.handler env req w) as [r w'] eqn:H.
  exact (archive_handler_pointwise env req w w' r Hnd H).
Qed.

Lemma archive_writes_url_once_witness :
  let w := Sample.world_of [Sample.fresh_doc; Sample.plain_doc; Sample.archived_doc] in
  NoDup (ids (store w))
  /\ Forall2 (fun d d' =>
                id d' = id d
                /\ same_but_url (data d) (data d')
                /\ (truthy (pdfStorageUrl (data d)) = true -> d' = d)
                /\ (matches "spring" "2026" d = false -> d' = d))
             (store w)
             (store (snd (Archive.handler Sample.env_ok Sample.spring_2026 w))).
Proof.
  cbv zeta.
  assert (Hnd : NoDup (ids (store (Sample.world_of
                         [Sample.fresh_doc; Sample.plain_doc; Sample.archived_doc])))).
  { repeat constructor; simpl; intuition discriminate. }
  split; [exact Hnd |].
  exact (archive_writes_url_once Sample.env_ok Sample.spring_2026
           (Sample.world_of [Sample.fresh_doc; Sample.plain_doc; Sample.archived_doc])
           Hnd).
Defined.

Lemma blobs_added_logged (s y : string) (w : World) (e : Event) :
  blobs_added s y w (logged w e).
Proof. now apply blobs_added_same. Qed.

Lemma archive_doc_blobs env season year acc d :
  preserves (blobs_added season year) (archive_doc env season year acc d).
Proof.
  unfold archive_doc.
  destruct (truthy (pdf (data d)) && negb (truthy (pdfStorageUrl (data d))));
    [| destruct (truthy (pdfStorageUrl (data d))); apply preserves_ret; exact _].
  apply preserves_try_catch; [exact _ | | intros e].
  - destruct (resolve (pdf (data d))) as [url|]; [| apply preserves_ret; exact _].
    unfold download_and_store, fetch.
    apply preserves_bind; [exact _ | | intros resp].
    + apply keeps_fetch_with; [exact _ |]. intros w. apply blobs_added_logged.
    + destruct (ok resp).
      * apply preserves_bind; [exact _ | | intros u].
        -- unfold upload_pdf.
           apply preserves_bind; [exact _ | apply preserves_await; exact _ | intros bytes].
           intros w o w' H. unfold bind, now in H.
           revert H.
           apply (preserves_bind (blobs_added season year)
                    (uploadBytes env (id d)
                       (fileName season year (Date_now env w)) bytes)
                    (fun _ => getDownloadURL env (id d)
                                (fileName season year (Date_now env w)))).
           ++ unfold uploadBytes.
              apply preserves_bind; [exact _ | | intros _].
              ** apply preserves_log. intros w0. apply blobs_added_logged.
              ** apply preserves_bind; [exact _ | apply preserves_ask; exact _ | intros _].
                 intros w0 o0 w0' H0. injection H0 as _ <-.
                 exists [(fileName season year (Date_now env w), bytes)].
                 split; [reflexivity |]. constructor; [| constructor].
                 now exists (Date_now env w).
           ++ intros _. apply keeps_getDownloadURL; [exact _ |].
              intros w0. apply blobs_added_logged.
        -- apply preserves_bind; [exact _ | | intros _; apply preserves_ret; exact _].
           apply keeps_updateDoc; [exact _ | |].
           ++ intros w. apply blobs_added_logged.
           ++ intros w. now apply blobs_added_same.
      * apply preserves_bind; [exact _ | | intros _; apply preserves_ret; exact _].
        apply keeps_console_error. intros w. apply blobs_added_logged.
  - apply preserves_bind; [exact _ | | intros _; apply preserves_ret; exact _].
    apply keeps_console_error. intros w. apply blobs_added_logged.
Qed.

Lemma archive_handler_blobs env req :
  preserves (blobs_added (req_season req) (req_year req)) (Archive.handler env req).
Proof.
  unfold Archive.handler.
  destruct (negb (method req =? "POST")); [apply preserves_respond; exact _ |].
  destruct (negb (truthy (req_season req)) || negb (truthy (req_year req)));
    [apply preserves_respond; exact _ |].
  apply preserves_try_catch; [exact _ | | intros e].
  - unfold archive_all.
    apply preserves_bind; [exact _ | | intros docs].
    + apply keeps_getDocs; [exact _ |]. intros w. apply blobs_added_logged.
    + destruct docs as [|d0 ds]; [apply preserves_respond; exact _ |].
      apply preserves_bind; [exact _ | | intros out; apply preserves_respond; exact _].
      apply preserves_for_of; [exact _ |]. intros acc d _. apply archive_doc_blobs.
  - apply preserves_bind; [exact _ | | intros _; apply preserves_respond; exact _].
    apply keeps_console_error. intros w. apply blobs_added_logged.
Qed.

(** X11.  What an archive call uploads, however it ends.  Every upload it
    makes goes to a name of the form
    [ccl/<season>/<year>/<time>_ccl_<season>_<year>.pdf] for the season
    and year of the request, and no upload is made for an id unless that
    id names a record of the key that has no [pdfStorageUrl]. *)
Theorem archive_uploads_for_key_only :
  forall (env : Env) (req : Request) (w : World),
    let w' := snd (Archive.handler env req w) in
    blobs_added (req_season req) (req_year req) w w'
    /\ (forall i,
           (forall d, In d (query (req_season req) (req_year req) (store w)) ->
                      id d = i -> truthy (pdfStorageUrl (data d)) = true) ->
           uploads_of i (trace w') = uploads_of i (trace w)).
Proof.
  intros env req w w'. subst w'.
  destruct (Archive.handler env req w) as [r w'] eqn:H. cbn [snd]. split.
  - exact (archive_handler_blobs env req w r w' H).
  - intros i Hi. exact (proj1 (archive_handler_untouched i env req w w' r Hi H)).
Qed.

End ArchiveFrame.

Section AlwaysAnswers.
Import JS Store Sys Answers.
Local Open Scope M_scope.

Lemma returns_only_ret {A} (P : A -> Prop) (a : A) : P a -> returns_only P (ret a).
Proof. intros H w a' w' E. injection E as <- _. exact H. Qed.

Lemma returns_only_throw {A} (P : A -> Prop) (e : string) : returns_only P (throw e).
Proof. intros w a w' E. discriminate. Qed.

Lemma returns_only_bind {A B} (P : B -> Prop) (m : M A) (k : A -> M B) :
  (forall a, returns_only P (k a)) -> returns_only P (bind m k).
Proof.
  intros Hk w b w' E. unfold bind in E.
  destruct (m w) as [[a|e] w1]; [exact (Hk a w1 b w' E) | discriminate].
Qed.

(** A [try] whose handler always answers: the whole statement answers. *)
Lemma try_catch_answered {R} (status : R -> nat) (codes : list nat)
    (body : M R) (h : string -> M R) (w : World) :
  returns_only (fun r => In (status r) codes) body ->
  (forall e w1, answered status codes (h e w1)) ->
  answered status codes (try_catch body h w).
Proof.
  intros Hb Hh. unfold try_catch.
  destruct (body w) as [[r|e] w1] eqn:E.
  - exists r. split; [reflexivity | exact (Hb _ _ _ E)].
  - apply Hh.
Qed.

Lemma respond_only (codes : list nat) (c : nat) (b : Body) :
  In c codes -> returns_only (fun r => In (code r) codes) (respond c b).
Proof. intros H. apply returns_only_ret. exact H. Qed.

Lemma logged_error_answered (codes : list nat) (msg : string) (c : nat) (b : Body)
    (w : World) :
  In c codes ->
  answered code codes ((console_error msg ;;; respond c b) w).
Proof. intros H. eexists. split; [reflexivity | exact H]. Qed.

(** On a request with an object body, every handler ends by sending a
    response with one of the codes it names. *)
Lemma handlers_answer_objects (env : Env) (req : Request) (w : World) :
  answered code [405; 400; 200; 500] (Discover.handler env req w)
  /\ answered code [405; 400; 404; 200; 500] (Archive.handler env req w)
  /\ answered code [405; 400; 404; 200; 500] (Extract.handler env req w)
  /\ answered Status.s_code [405; 400; 200; 500] (Status.handler env req w).
Proof.
  repeat split.
  - unfold Discover.handler.
    destruct (negb (method req =? "POST"));
      [eexists; split; [reflexivity | simpl; tauto] |].
    destruct (negb (truthy (req_season req)) || negb (truthy (req_year req)));
      [eexists; split; [reflexivity | simpl; tauto] |].
    apply try_catch_answered.
    + apply returns_only_bind. intros [|d ds].
      * apply returns_only_bind. intros resp.
        destruct (negb (ok resp)); [apply returns_only_throw |].
        do 4 (apply returns_only_bind; intros ?).
        apply respond_only. simpl; tauto.
      * apply respond_only. simpl; tauto.
    + intros e w1. apply logged_error_answered. simpl; tauto.
  - unfold Archive.handler.
    destruct (negb (method req =? "POST"));
      [eexists; split; [reflexivity | simpl; tauto] |].
    destruct (negb (truthy (req_season req)) || negb (truthy (req_year req)));
      [eexists; split; [reflexivity | simpl; tauto] |].
    apply try_catch_answered.
    + unfold Archive.archive_all. apply returns_only_bind. intros [|d ds].
      * apply respond_only. simpl; tauto.
      * apply returns_only_bind. intros out. apply respond_only. simpl; tauto.
    + intros e w1. apply logged_error_answered. simpl; tauto.
  - unfold Extract.handler.
    destruct (negb (method req =? "POST"));
      [eexists; split; [reflexivity | simpl; tauto] |].
    destruct (negb (truthy (req_season req)) || negb (truthy (req_year req)));
      [eexists; split; [reflexivity | simpl; tauto] |].
    apply try_catch_answered.
    + apply returns_only_bind. intros [|d ds].
      * apply respond_only. simpl; tauto.
      * destruct (negb (truthy (pdfStorageUrl (data d))));
          [apply respond_only; simpl; tauto |].
        unfold Extract.extract_and_save.
        do 3 (apply returns_only_bind; intros ?).
        apply respond_only. simpl; tauto.
    + intros e w1. apply logged_error_answered. simpl; tauto.
  - unfold Status.handler.
    destruct (negb (method req =? "GET"));
      [eexists; split; [reflexivity | simpl; tauto] |].
    destruct (negb (truthy (req_season req)) || negb (truthy (req_year req)));
      [eexists; split; [reflexivity | simpl; tauto] |].
    apply try_catch_answered.
    + apply returns_only_bind. intros [|d ds];
        apply returns_only_ret; simpl; tauto.
    + intros e w1. eexists. split; [reflexivity | simpl; tauto].
Qed.


(** X12.  A request whose body is an object (for the status lookup, whose
    query is) is always answered: whatever the outside answers, whatever
    the method and whatever season and year it carries, each of the four
    handlers ends by sending a response, and its status is one of the
    codes the handler names (discovery and status lookup never answer
    404); no rejection of the outside escapes.  The one request that is
    not answered is a POST whose body is [null]: the three POST handlers
    throw above their [try], and no response is sent. *)
Theorem handlers_always_answer :
  forall (env : Env) (req : Request) (i : Wire.Incoming) (w : World),
    (answered code [405; 400; 200; 500] (Discover.handler env req w)
     /\ answered code [405; 400; 404; 200; 500] (Archive.handler env req w)
     /\ answered code [405; 400; 404; 200; 500] (Extract.handler env req w)
     /\ answered Status.s_code [405; 400; 200; 500] (Status.handler env req w))
    /\ (Wire.in_method i <> "POST" \/ Wire.in_body i <> Wire.Null ->
        answered code [405; 400; 200; 500] (Wire.receive Discover.handler env i w)
        /\ answered code [405; 400; 404; 200; 500]
                    (Wire.receive Archive.handler env i w)
        /\ answered code [405; 400; 404; 200; 500]
                    (Wire.receive Extract.handler env i w))
    /\ (Wire.in_method i = "POST" -> Wire.in_body i = Wire.Null ->
        (exists e, fst (Wire.receive Discover.handler env i w) = Thrown e)
        /\ (exists e, fst (Wire.receive Archive.handler env i w) = Thrown e)
        /\ (exists e, fst (Wire.receive Extract.handler env i w) = Thrown e)).
Proof.
  intros env req i w. split; [apply handlers_answer_objects | split].
  - intros Hi. unfold Wire.receive.
    destruct (Wire.in_body i) as [season year|].
    + destruct (handlers_answer_objects env
                  {| method := Wire.in_method i; req_season := season;
                     req_year := year |} w) as (H1 & H2 & H3 & _).
      now repeat split.
    + destruct Hi as [Hm | Hb]; [| contradiction].
      apply String.eqb_neq in Hm. rewrite Hm.
      repeat split; (eexists; split; [reflexivity | simpl; tauto]).
  - intros Hm Hb. unfold Wire.receive. rewrite Hb, Hm.
    repeat split; now exists Wire.destructure_error.
Qed.

End AlwaysAnswers.

Section ExtractMore.
Import JS Store Sys Frame Shape Keeps.
Local Open Scope M_scope.

(** X13.  When the archived copy cannot be downloaded (the fetch answers
    with [ok] false), extraction answers 500 with the error
    "Failed to fetch PDF: <statusText>", leaves the collection as it was,
    and makes no call after the fetch but the error log: the model is not
    asked and nothing is written. *)
Theorem extract_download_failure :
  forall (env : Env) (req : Request) (w : World) (d : Doc) (ds : list Doc)
         (resp : FetchResponse),
    method req = "POST" ->
    truthy (req_season req) = true ->
    truthy (req_year req) = true ->
    let w1 := logged w (EvGetDocs (req_season req) (req_year req)) in
    getDocs_answer env w1 = Ok tt ->
    query (req_season req) (req_year req) (store w) = d :: ds ->
    truthy (pdfStorageUrl (data d)) = true ->
    let w2 := logged w1 (EvFetch (pdfStorageUrl (data d)) None) in
    fetch_answer env w2 (pdfStorageUrl (data d)) = Ok resp ->
    ok resp = false ->
    let error := "Failed to fetch PDF: " ++ statusText resp in
    let w3 := logged w2 (EvConsoleError ("Error extracting info: " ++ error)) in
    Extract.handler env req w
    = (Returned {| code := 500;
                   json_body := BError "Internal server error" error |}, w3)
    /\ store w3 = store w
    /\ trace w3
       = (trace w ++ [EvGetDocs (req_season req) (req_year req);
                      EvFetch (pdfStorageUrl (data d)) None;
                      EvConsoleError ("Error extracting info: " ++ error)])%list.
Proof.
  intros env req w d ds resp Hm Hs Hy w1 Hg Hq Hu w2 Hf Hok error w3.
  split; [| split; [reflexivity | simpl; now rewrite <- !app_assoc]].
  unfold Extract.handler. rewrite Hm, Hs, Hy. simpl.
  unfold try_catch, bind, getDocs, bind, log, ask. fold w1.
  rewrite Hg. simpl. replace (store w1) with (store w) by reflexivity.
  rewrite Hq, Hu. simpl.
  unfold Extract.extract_and_save, Extract.fetch_text, fetch, fetch_with, bind, log, ask.
  fold w2.
  rewrite Hf. simpl. rewrite Hok. reflexivity.
Qed.

Lemma extract_download_failure_witness :
  let env := Sample2.env_search_down in
  let w := Sample.world_of [Sample.archived_doc] in
  let error := "Failed to fetch PDF: Service Unavailable" in
  let w3 :=
    logged (logged (logged w (EvGetDocs "spring" "2026"))
                   (EvFetch Sample.blob_url None))
           (EvConsoleError ("Error extracting info: " ++ error)) in
  Extract.handler env Sample.spring_2026 w
  = (Returned {| code := 500; json_body := BError "Internal server error" error |}, w3).
Proof.
  cbv zeta.
  exact (proj1 (extract_download_failure Sample2.env_search_down Sample.spring_2026
                  (Sample.world_of [Sample.archived_doc]) Sample.archived_doc []
                  {| ok := false; status := 503; statusText := "Service Unavailable";
                     body := Ok "" |}
                  eq_refl eq_refl eq_refl eq_refl eq_refl eq_refl eq_refl eq_refl)).
Defined.

Lemma query_update (s y i : string) (p : Patch) (coll : list Doc) :
  query s y (update i p coll) = update i p (query s y coll).
Proof.
  unfold query, update. induction coll as [|d coll IH]; simpl; [reflexivity |].
  assert (E : matches s y (if has_id i d
                           then {| id := id d; data := apply_patch p (data d) |}
                           else d) = matches s y d).
  { destruct (has_id i d); [| reflexivity]. unfold matches. simpl.
    destruct p; reflexivity. }
  rewrite E. destruct (matches s y d); simpl; now rewrite IH.
Qed.

(** X14.  What extraction saves is what the status lookup shows.  After an
    extraction that answered 200 with [info], a status lookup for the same
    season and year (whose query succeeds) answers 200 with the first
    record of the key, whose [tournamentInfo] is [info] and whose other
    fields are those the record had before the extraction. *)
Theorem extract_then_status :
  forall (env env' : Env) (req req' : Request) (w w' : World) (msg : string)
         (info : json),
    Extract.handler env req w
    = (Returned {| code := 200; json_body := BExtract msg info |}, w') ->
    method req' = "GET" ->
    req_season req' = req_season req ->
    req_year req' = req_year req ->
    getDocs_answer env' (logged w' (EvGetDocs (req_season req) (req_year req))) = Ok tt ->
    exists d0 ds,
      query (req_season req) (req_year req) (store w) = d0 :: ds
      /\ fst (Status.handler env' req' w')
         = Returned {| Status.s_code := 200;
                       Status.s_body :=
                         Status.SFound
                           (apply_patch (SetTournamentInfo info) (data d0)) |}
      /\ tournamentInfo (apply_patch (SetTournamentInfo info) (data d0)) = Some info
      /\ same_but_info (data d0) (apply_patch (SetTournamentInfo info) (data d0)).
Proof.
  intros env env' req req' w w' msg info H Hm Hs Hy Hg.
  assert (Hparams : truthy (req_season req) = true /\ truthy (req_year req) = true).
  { unfold Extract.handler in H.
    destruct (negb (method req =? "POST")); [discriminate |].
    destruct (truthy (req_season req)), (truthy (req_year req));
      simpl in H; try discriminate. now split. }
  destruct Hparams as [Hts Hty].
  apply extract_effect in H as [[_ Hno] | (d0 & ds & info' & Hq & Hr & Hst)].
  { exfalso. now apply (Hno msg info). }
  injection Hr as _ <-.
  exists d0, ds. split; [exact Hq |]. split; [| split; [reflexivity | repeat split]].
  unfold Status.handler. rewrite Hm, Hs, Hy, Hts, Hty. simpl.
  unfold try_catch, bind, getDocs, bind, log, ask.
  rewrite Hg. simpl.
  rewrite Hst, query_update, Hq. simpl.
  unfold has_id. rewrite String.eqb_refl. reflexivity.
Qed.

Lemma extract_then_status_witness :
  let w := Sample.world_of [Sample.archived_doc; Sample.fresh_doc] in
  let w' := snd (Extract.handler Sample.env_ok Sample.spring_2026 w) in
  exists d0 ds,
    query "spring" "2026" (store w) = d0 :: ds
    /\ fst (Status.handler Sample.env_ok Sample2.lookup_spring_2026 w')
       = Returned {| Status.s_code := 200;
                     Status.s_body :=
                       Status.SFound
                         (apply_patch (SetTournamentInfo (JObject [])) (data d0)) |}
    /\ tournamentInfo (apply_patch (SetTournamentInfo (JObject [])) (data d0))
       = Some (JObject [])
    /\ same_but_info (data d0) (apply_patch (SetTournamentInfo (JObject [])) (data d0)).
Proof.
  cbv zeta.
  exact (extract_then_status Sample.env_ok Sample.env_ok Sample.spring_2026
           Sample2.lookup_spring_2026
           (Sample.world_of [Sample.archived_doc; Sample.fresh_doc])
           (snd (Extract.handler Sample.env_ok Sample.spring_2026
                   (Sample.world_of [Sample.archived_doc; Sample.fresh_doc])))
           "Tournament info extracted and saved successfully" (JObject [])
           eq_refl eq_refl eq_refl eq_refl eq_refl).
Defined.

End ExtractMore.

Section CleanFacts.
Import JS Shape Extract Clean.

Lemma remove_all_skip (pat pre s : string) :
  remove_all pat (String.length pre) (pre ++ s) = remove_all pat 0 s.
Proof. induction pre as [|c pre IH]; simpl; [reflexivity | exact IH]. Qed.

(** A pattern that begins with a backtick matches nowhere in a text without
    one, so the text is copied. *)
Lemma remove_all_no_backtick (pat body t : string) :
  no_backtick body = true ->
  remove_all (String "`" pat) 0 (body ++ t)
  = body ++ remove_all (String "`" pat) 0 t.
Proof.
  intros H. induction body as [|c body IH]; [reflexivity |].
  simpl in H. apply andb_true_iff in H as [Hc Hb].
  unfold is_backtick, backtick in Hc.
  change (String c body ++ t) with (String c (body ++ t)).
  cbn [remove_all startsWith].
  destruct (Ascii.eqb c "`"); [discriminate |]. cbn [andb].
  now rewrite (IH Hb).
Qed.

Lemma append_empty_r (s : string) : s ++ "" = s.
Proof. induction s as [|c s IH]; simpl; [reflexivity | now rewrite IH]. Qed.

(** X15.  The cleaning unwraps a fenced reply: for a body without a
    backtick, a reply that is the body between an opening [```json] fence
    and a closing fence cleans to the trimmed body, and so does the body
    sent without fences. *)
Theorem strip_fences_unwraps :
  forall body : string,
    no_backtick body = true ->
    strip_fences ("```json" ++ body ++ "```") = trim body
    /\ strip_fences body = trim body.
Proof.
  intros body H. split.
  - unfold strip_fences.
    change (remove_all "```json" 0 ("```json" ++ body ++ "```"))
      with (remove_all "```json" (String.length "``json") ("``json" ++ body ++ "```")).
    rewrite remove_all_skip.
    rewrite (remove_all_no_backtick "``json" body "```" H).
    change (remove_all "```json" 0 "```") with "```".
    rewrite (remove_all_no_backtick "``" body "```" H).
    change (remove_all "```" 0 "```") with "".
    now rewrite append_empty_r.
  - unfold strip_fences.
    rewrite <- (append_empty_r body) at 1.
    rewrite (remove_all_no_backtick "``json" body "" H).
    change (remove_all "```json" 0 "") with "".
    rewrite (remove_all_no_backtick "``" body "" H).
    change (remove_all "```" 0 "") with "".
    now rewrite !append_empty_r.
Qed.

Lemma strip_fences_unwraps_witness :
  strip_fences Sample.fenced_reply = "{}".
Proof.
  exact (proj1 (strip_fences_unwraps (newline ++ "{}" ++ newline) eq_refl)).
Defined.

(** *** No fence survives the cleaning *)

Lemma strip3_cons (c : ascii) (s : string) :
  strip3 (String c s)
  = if startsWith (String c s) "```"
    then remove_all "```" 2 s
    else String c (strip3 s).
Proof. reflexivity. Qed.

Lemma starts_fence_ticks (s : string) :
  startsWith s "```" = (3 <=? ticks s)%nat.
Proof.
  destruct s as [|a [|b [|c s]]]; simpl; unfold is_backtick, backtick;
    repeat (match goal with |- context [Ascii.eqb ?x "`"] =>
                              destruct (Ascii.eqb x "`") end; simpl);
    reflexivity.
Qed.

Lemma starts_fence_inv (s : string) :
  startsWith s "```" = true -> exists t, s = "```" ++ t.
Proof.
  destruct s as [|a [|b [|c s]]]; simpl; try discriminate;
    try (rewrite ?andb_false_r; discriminate).
  intros H. apply andb_true_iff in H as [Ha H].
  apply andb_true_iff in H as [Hb H].
  apply andb_true_iff in H as [Hc _].
  apply Ascii.eqb_eq in Ha, Hb, Hc. subst. now exists s.
Qed.

Lemma strip3_fence (t : string) : strip3 ("```" ++ t) = strip3 t.
Proof. reflexivity. Qed.

Lemma ticks_strip3 (n : nat) :
  forall s, String.length s <= n -> ticks (strip3 s) = ticks s mod 3.
Proof.
  induction n as [|n IH]; intros s Hlen.
  - destruct s; [reflexivity | simpl in Hlen; lia].
  - destruct s as [|c s]; [reflexivity |].
    rewrite strip3_cons.
    destruct (startsWith (String c s) "```") eqn:E.
    + apply starts_fence_inv in E as [t Et]. rewrite Et.
      injection Et as -> ->.
      change (remove_all "```" 2 (String "`" (String "`" t))) with (strip3 t).
      rewrite IH by (simpl in Hlen; lia).
      change (ticks ("```" ++ t)) with (3 + ticks t).
      replace (3 + ticks t) with (ticks t + 1 * 3) by lia.
      now rewrite Nat.Div0.mod_add.
    + rewrite starts_fence_ticks in E. apply Nat.leb_gt in E.
      cbn [ticks String.length] in *. destruct (is_backtick c); [| reflexivity].
      rewrite IH by lia.
      rewrite !Nat.mod_small by lia. reflexivity.
Qed.

Lemma strip3_no_fence (n : nat) :
  forall s, String.length s <= n -> includes (strip3 s) "```" = false.
Proof.
  induction n as [|n IH]; intros s Hlen.
  - destruct s; [reflexivity | simpl in Hlen; lia].
  - destruct s as [|c s]; [reflexivity |].
    rewrite strip3_cons.
    destruct (startsWith (String c s) "```") eqn:E.
    + apply starts_fence_inv in E as [t Et].
      injection Et as -> ->.
      change (remove_all "```" 2 (String "`" (String "`" t))) with (strip3 t).
      apply IH. simpl in Hlen. lia.
    + change (includes (String c (strip3 s)) "```")
        with (startsWith (String c (strip3 s)) "```" || includes (strip3 s) "```").
      rewrite (IH s) by (simpl in Hlen; lia).
      rewrite orb_false_r.
      rewrite starts_fence_ticks in *. apply Nat.leb_gt in E. apply Nat.leb_gt.
      cbn [ticks String.length] in *. destruct (is_backtick c); [| lia].
      rewrite (ticks_strip3 (String.length s)) by lia.
      rewrite Nat.mod_small by lia. lia.
Qed.

Lemma startsWith_append (a t p : string) :
  startsWith a p = true -> startsWith (a ++ t) p = true.
Proof.
  revert a. induction p as [|b p IH]; intros a H; [reflexivity |].
  destruct a as [|c a]; [discriminate |].
  simpl in *. apply andb_true_iff in H as [H1 H2].
  now rewrite H1, (IH a H2).
Qed.

Lemma includes_append_false (a t p : string) :
  includes (a ++ t) p = false -> includes a p = false.
Proof.
  induction a as [|c a IH]; intros H.
  - destruct p; [destruct t; discriminate | reflexivity].
  - change (includes (String c a ++ t) p)
      with (startsWith (String c a ++ t) p || includes (a ++ t) p) in H.
    apply orb_false_iff in H as [H1 H2].
    change (includes (String c a) p)
      with (startsWith (String c a) p || includes a p).
    rewrite (IH H2), orb_false_r.
    destruct (startsWith (String c a) p) eqn:E; [| reflexivity].
    apply (startsWith_append _ t) in E. congruence.
Qed.

Lemma includes_tail_false (c : ascii) (s p : string) :
  includes (String c s) p = false -> includes s p = false.
Proof.
  intros H.
  change (includes (String c s) p)
    with (startsWith (String c s) p || includes s p) in H.
  now apply orb_false_iff in H.
Qed.

Lemma trimStart_includes (s p : string) :
  includes s p = false -> includes (trimStart s) p = false.
Proof.
  induction s as [|c s IH]; intros H; [exact H |].
  simpl. destruct (is_space c); [| exact H].
  apply IH. exact (includes_tail_false c s p H).
Qed.

Lemma trimEnd_prefix (s : string) : exists t, s = trimEnd s ++ t.
Proof.
  induction s as [|c s [t IH]]; [now exists "" |].
  simpl. destruct (trimEnd s) as [|c' r] eqn:E.
  - destruct (is_space c).
    + now exists (String c s).
    + exists s. reflexivity.
  - exists t. simpl. simpl in IH. now rewrite <- IH.
Qed.

Lemma trimEnd_includes (s p : string) :
  includes s p = false -> includes (trimEnd s) p = false.
Proof.
  intros H. destruct (trimEnd_prefix s) as [t E].
  rewrite E in H. exact (includes_append_false _ _ _ H).
Qed.

Lemma trimEnd_idem (s : string) : trimEnd (trimEnd s) = trimEnd s.
Proof.
  induction s as [|c s IH]; [reflexivity |].
  simpl. destruct (trimEnd s) as [|c' r] eqn:E.
  - destruct (is_space c) eqn:Ec; [reflexivity |]. simpl. now rewrite Ec.
  - simpl. simpl in IH. rewrite IH. reflexivity.
Qed.

Lemma trimEnd_head (c : ascii) (s : string) :
  is_space c = false -> exists r, trimEnd (String c s) = String c r.
Proof.
  intros H. simpl. destruct (trimEnd s) as [|c' r].
  - rewrite H. now exists "".
  - now exists (String c' r).
Qed.

Lemma trimStart_head (s : string) :
  trimStart s = "" \/ exists c r, trimStart s = String c r /\ is_space c = false.
Proof.
  induction s as [|c s IH]; [now left |].
  simpl. destruct (is_space c) eqn:E; [exact IH |].
  right. now exists c, s.
Qed.

Lemma trim_idem (s : string) : trim (trim s) = trim s.
Proof.
  unfold trim.
  destruct (trimStart_head s) as [E | (c & r & E & Hc)]; rewrite E.
  - reflexivity.
  - destruct (trimEnd_head c r Hc) as [r' E'].
    assert (Hs : trimStart (trimEnd (String c r)) = trimEnd (String c r)).
    { rewrite E'. simpl. now rewrite Hc. }
    rewrite Hs. apply trimEnd_idem.
Qed.

(** X16.  Whatever the model replies, the text handed to [JSON.parse]
    contains no triple-backtick fence and has no white space at either
    end (trimming it again changes nothing). *)
Theorem strip_fences_leaves_no_fence :
  forall content : string,
    includes (strip_fences content) "```" = false
    /\ trim (strip_fences content) = strip_fences content.
Proof.
  intros content. unfold strip_fences. split; [| apply trim_idem].
  unfold trim. apply trimEnd_includes, trimStart_includes.
  exact (strip3_no_fence _ _ (le_n _)).
Qed.

End CleanFacts.

Section PageFacts.
Import JS Store Sys Frame Shape Keeps Archive Page.

Lemma first_with_url_sound (upd : list UpdatedDoc) (e : UpdatedDoc) :
  first_with_url upd = Some e -> In e upd /\ truthy (upd_pdfStorageUrl e) = true.
Proof. unfold first_with_url. apply find_some. Qed.

(** X17.  The search page shows archived URLs that are in the collection.
    When the archive call answered 200, merging its [updatedDocs] into the
    saved records leaves every field but [pdfStorageUrl] alone, leaves a
    record without a [pdf] link alone, and any URL it puts on a record is
    non-empty and is the [pdfStorageUrl] of some document of the
    collection after the call (ids distinct). *)
Theorem merged_urls_are_recorded :
  forall (env : Env) (req : Request) (w w' : World) (msg : string)
         (upd : list UpdatedDoc) (savedData : list TournamentData),
    NoDup (ids (store w)) ->
    Archive.handler env req w
    = (Returned {| code := 200; json_body := BUpload msg upd |}, w') ->
    Forall2 (fun item item' =>
               same_but_url item item'
               /\ (truthy (pdf item) = false -> item' = item)
               /\ (pdfStorageUrl item' = pdfStorageUrl item
                   \/ (truthy (pdfStorageUrl item') = true
                       /\ exists d, In d (store w')
                                    /\ pdfStorageUrl (data d) = pdfStorageUrl item')))
            savedData (mergePdfData savedData upd).
Proof.
  intros env req w w' msg upd savedData Hnd H.
  unfold mergePdfData. apply Forall2_map_self. intros item _.
  unfold merge_item.
  destruct (first_with_url upd) as [e|] eqn:E.
  - apply first_with_url_sound in E as [He Hu].
    destruct (truthy (pdf item)) eqn:Hp.
    + split; [repeat split | split; [discriminate |]].
      right. split; [exact Hu |].
      destruct (archive_handler_recorded env req w w' msg upd Hnd H e He)
        as (d & Hd & _ & Hurl).
      now exists d.
    + split; [apply same_but_url_refl | split; [reflexivity | now left]].
  - split; [apply same_but_url_refl | split; [reflexivity | now left]].
Qed.

Lemma merged_urls_are_recorded_witness :
  let w := Sample.world_of [Sample.fresh_doc; Sample.plain_doc] in
  let run := Archive.handler Sample.env_ok Sample.spring_2026 w in
  let upd := [uploaded "doc1"
                "https://storage.example/ccl/spring/2026/1767225600000_ccl_spring_2026.pdf"] in
  let savedData := [data Sample.fresh_doc; data Sample.plain_doc] in
  Forall2 (fun item item' =>
             same_but_url item item'
             /\ (truthy (pdf item) = false -> item' = item)
             /\ (pdfStorageUrl item' = pdfStorageUrl item
                 \/ (truthy (pdfStorageUrl item') = true
                     /\ exists d, In d (store (snd run))
                                  /\ pdfStorageUrl (data d) = pdfStorageUrl item')))
          savedData (mergePdfData savedData upd).
Proof.
  cbv zeta.
  refine (merged_urls_are_recorded Sample.env_ok Sample.spring_2026
            (Sample.world_of [Sample.fresh_doc; Sample.plain_doc])
            (snd (Archive.handler Sample.env_ok Sample.spring_2026
                    (Sample.world_of [Sample.fresh_doc; Sample.plain_doc])))
            "PDF processing completed" _ _ _ _).
  - repeat constructor; simpl; intuition discriminate.
  - vm_compute. reflexivity.
Defined.

(** X18.  The merge does not match records to entries: once some entry of
    [updatedDocs] has a URL, every merged record with a [pdf] link shows
    the URL of the first such entry, so any two of them show the same
    URL, whatever their own links and records are. *)
Theorem merge_gives_one_url_to_all :
  forall (savedData : list TournamentData) (upd : list UpdatedDoc)
         (e : UpdatedDoc) (a b : TournamentData),
    first_with_url upd = Some e ->
    In a (mergePdfData savedData upd) ->
    In b (mergePdfData savedData upd) ->
    truthy (pdf a) = true ->
    truthy (pdf b) = true ->
    pdfStorageUrl a = upd_pdfStorageUrl e /\ pdfStorageUrl a = pdfStorageUrl b.
Proof.
  intros savedData upd e a b E Ha Hb Hpa Hpb.
  assert (Hone : forall x, In x (mergePdfData savedData upd) -> truthy (pdf x) = true ->
                           pdfStorageUrl x = upd_pdfStorageUrl e).
  { intros x Hx Hp. unfold mergePdfData in Hx. apply in_map_iff in Hx as (item & <- & _).
    unfold merge_item in *. rewrite E in *.
    destruct (truthy (pdf item)) eqn:Hi; [reflexivity | congruence]. }
  split; [now apply Hone |]. rewrite (Hone a Ha Hpa). symmetry. now apply Hone.
Qed.

Lemma merge_gives_one_url_to_all_witness :
  pdfStorageUrl (Sample.record Sample.drive_link Sample.blob_url) = Sample.blob_url
  /\ pdfStorageUrl (Sample.record Sample.drive_link Sample.blob_url)
     = pdfStorageUrl (Sample.record Sample.plain_link Sample.blob_url).
Proof.
  cbv zeta.
  refine (merge_gives_one_url_to_all
            [data Sample.fresh_doc; data Sample.plain_doc]
            [uploaded "doc1" ""; uploaded "doc2" Sample.blob_url]
            (uploaded "doc2" Sample.blob_url)
            (Sample.record Sample.drive_link Sample.blob_url)
            (Sample.record Sample.plain_link Sample.blob_url)
            eq_refl _ _ eq_refl eq_refl).
  - left. reflexivity.
  - right. left. reflexivity.
Defined.

Lemma for_of_existing env season year (docs : list Doc) :
  forall (acc out : list UpdatedDoc) (w w' : World),
    for_of docs (archive_doc env season year) acc w = (Returned out, w') ->
    forall e, In e out -> upd_exists e = true ->
              In e acc
              \/ exists d, In d docs /\ truthy (pdfStorageUrl (data d)) = true.
Proof.
  induction docs as [|d docs IH]; intros acc out w w' H e He Hex; simpl in H.
  - apply ret_inv in H as [H _]. injection H as ->. now left.
  - apply bind_inv in H as [(acc1 & w1 & H1 & H) | (e1 & _ & He1)]; [| discriminate].
    destruct (IH _ _ _ _ H e He Hex) as [Hacc | (d' & Hd' & Hu')].
    + apply archive_doc_effect in H1
        as [(Hu & Ho & _) | [(Hu & Ho & _) | (Hu & u & Ho & _)]];
        injection Ho as ->.
      * apply in_app_or in Hacc as [Hacc | _]; [now left |].
        right. exists d. split; [now left | exact Hu].
      * now left.
      * apply in_app_or in Hacc as [Hacc | [<- | []]]; [now left | discriminate].
    + right. exists d'. split; [now right | exact Hu'].
Qed.

(** X20.  After an archive call that answered 200, the manager page
    reports "PDF already uploaded." exactly when some record of the key had
    an archived copy before the call; records the same call archived do
    not change the message. *)
Theorem upload_toast_already :
  forall (env : Env) (req : Request) (w w' : World) (msg : string)
         (upd : list UpdatedDoc),
    Archive.handler env req w
    = (Returned {| code := 200; json_body := BUpload msg upd |}, w') ->
    (upload_toast upd = "PDF already uploaded."
     <-> exists d, In d (query (req_season req) (req_year req) (store w))
                   /\ truthy (pdfStorageUrl (data d)) = true).
Proof.
  intros env req w w' msg upd H.
  assert (Hiff : alreadyExists upd = true
                 <-> exists d, In d (query (req_season req) (req_year req) (store w))
                               /\ truthy (pdfStorageUrl (data d)) = true).
  { split.
    - intros Hex. unfold alreadyExists in Hex. apply existsb_exists in Hex as (e & He & Hx).
      unfold Archive.handler in H.
      destruct (negb (method req =? "POST")).
      { apply ret_inv in H as [H _]. discriminate. }
      destruct (negb (truthy (req_season req)) || negb (truthy (req_year req))).
      { apply ret_inv in H as [H _]. discriminate. }
      apply try_catch_inv in H as [(a & H & Ha) | (e1 & w1 & _ & Hc)].
      + injection Ha as <-. unfold archive_all in H.
        apply bind_inv in H as [(docs & w1 & Hq & H) | (e1 & _ & He1)]; [| discriminate].
        apply getDocs_inv in Hq as [-> ->].
        change (store (logged w (EvGetDocs (req_season req) (req_year req))))
          with (store w) in H.
        destruct (query (req_season req) (req_year req) (store w)) as [|d0 ds] eqn:Eq.
        { apply ret_inv in H as [H _]. discriminate. }
        apply bind_inv in H as [(out & w2 & Hloop & H) | (e1 & _ & He1)]; [| discriminate].
        apply ret_inv in H as [H ->]. injection H as _ <-.
        destruct (for_of_existing env _ _ _ _ _ _ _ Hloop e He Hx) as [[] | Hd].
        exact Hd.
      + unfold bind, console_error, log, respond, ret in Hc. discriminate.
    - intros (d & Hd & Hu). unfold alreadyExists. apply existsb_exists.
      exists (already (id d) (pdfStorageUrl (data d))).
      split; [| reflexivity].
      exact (archive_handler_reports env req w w' msg upd d H Hd Hu). }
  unfold upload_toast. rewrite <- Hiff.
  destruct (alreadyExists upd); split; intros; try reflexivity; discriminate.
Qed.

Lemma upload_toast_already_witness :
  let w := Sample.world_of [Sample.fresh_doc; Sample.archived_doc] in
  let upd :=
    [uploaded "doc1"
       "https://storage.example/ccl/spring/2026/1767225600000_ccl_spring_2026.pdf";
     already "doc3" Sample.blob_url] in
  upload_toast upd = "PDF already uploaded."
  <-> exists d, In d (query "spring" "2026" (store w))
                /\ truthy (pdfStorageUrl (data d)) = true.
Proof.
  cbv zeta.
  refine (upload_toast_already Sample.env_ok Sample.spring_2026
            (Sample.world_of [Sample.fresh_doc; Sample.archived_doc])
            (snd (Archive.handler Sample.env_ok Sample.spring_2026
                    (Sample.world_of [Sample.fresh_doc; Sample.archived_doc])))
            "PDF processing completed" _ _).
  vm_compute. reflexivity.
Defined.

End PageFacts.

Section ManagerPage.
Import JS Store Sys Frame Shape Keeps Answers Page Invariant.
Local Open Scope M_scope.

Lemma extract_and_save_200 (env : Env) (d : Doc) :
  returns_only (fun r => code r = 200) (Extract.extract_and_save env d).
Proof.
  unfold Extract.extract_and_save.
  do 3 (apply returns_only_bind; intros ?).
  apply returns_only_ret. reflexivity.
Qed.

(** X19.  The manager page and the extraction handler agree on when
    extraction may run.  After a status lookup that succeeded, step 3 is
    enabled exactly when an extraction call for the same key passes the
    handler's checks: enabled, the call answers 200 or 500; not enabled, it
    answers 404 or 400 having done nothing but its query. *)
Theorem page_gate_matches_extract_precondition :
  forall (env env' : Env) (req req' : Request) (w : World),
    method req = "GET" ->
    method req' = "POST" ->
    req_season req' = req_season req ->
    req_year req' = req_year req ->
    truthy (req_season req) = true ->
    truthy (req_year req) = true ->
    let w1 := logged w (EvGetDocs (req_season req) (req_year req)) in
    let w2 := logged w1 (EvGetDocs (req_season req) (req_year req)) in
    getDocs_answer env w1 = Ok tt ->
    getDocs_answer env' w2 = Ok tt ->
    let lookup := Status.handler env req w in
    let page := checkStatus (reply_of lookup) in
    let run := Extract.handler env' req' (snd lookup) in
    (extract_enabled page = true ->
     status_code run = Some 200 \/ status_code run = Some 500)
    /\ (extract_enabled page = false ->
        (status_code run = Some 404 \/ status_code run = Some 400)
        /\ snd run = w2).
Proof.
  intros env env' req req' w Hm Hm' Hs Hy Hts Hty w1 w2 Hg Hg' lookup page run.
  assert (Hlookup :
            lookup
            = (Returned
                 {| Status.s_code := 200;
                    Status.s_body :=
                      match query (req_season req) (req_year req) (store w) with
                      | [] => Status.SMissing
                      | first :: _ => Status.SFound (data first)
                      end |}, w1)).
  { unfold lookup, Status.handler. rewrite Hm, Hts, Hty. simpl.
    unfold try_catch, bind, getDocs, bind, log, ask. fold w1. rewrite Hg. simpl.
    replace (store w1) with (store w) by reflexivity.
    now destruct (query (req_season req) (req_year req) (store w)). }
  assert (Hrun :
            run
            = try_catch
                (match query (req_season req) (req_year req) (store w) with
                 | [] =>
                     respond 404
                       (BMessage ("No tournament info found for " ++ req_season req
                                  ++ " " ++ req_year req ++ "."))
                 | d :: _ =>
                     if negb (truthy (pdfStorageUrl (data d)))
                     then respond 400 (BMessage "PDF has not been uploaded yet.")
                     else Extract.extract_and_save env' d
                 end)
                (fun e =>
                   console_error ("Error extracting info: " ++ e) ;;;
                   respond 500 (BError "Internal server error" e))
                w2).
  { unfold run. rewrite Hlookup. cbn [snd].
    unfold Extract.handler. rewrite Hm', Hs, Hy, Hts, Hty. simpl.
    unfold try_catch, bind, getDocs, bind, log, ask. fold w2. rewrite Hg'. simpl.
    replace (store w2) with (store w) by reflexivity. reflexivity. }
  unfold page. rewrite Hlookup, Hrun. unfold reply_of. cbn [fst Status.s_body].
  destruct (query (req_season req) (req_year req) (store w)) as [|d ds].
  - split; [discriminate |]. intros _. split; [now left | reflexivity].
  - unfold checkStatus, extract_enabled. cbn [uploadStatus].
    destruct (truthy (pdfStorageUrl (data d))) eqn:Hu; cbn [negb].
    + split; [| discriminate]. intros _.
      unfold try_catch.
      destruct (Extract.extract_and_save env' d w2) as [[r|e] w3] eqn:E.
      * left. unfold status_code. cbn [fst].
        now rewrite (extract_and_save_200 env' d w2 r w3 E).
      * right. reflexivity.
    + split; [discriminate |]. intros _. split; [now right | reflexivity].
Qed.

Lemma page_gate_matches_extract_precondition_witness :
  let w := Sample.world_of [Sample.fresh_doc; Sample.archived_doc] in
  let lookup := Status.handler Sample.env_ok Sample2.lookup_spring_2026 w in
  let page := checkStatus (reply_of lookup) in
  let run := Extract.handler Sample.env_ok Sample.spring_2026 (snd lookup) in
  extract_enabled page = false
  /\ (status_code run = Some 404 \/ status_code run = Some 400)
  /\ snd run = logged (logged w (EvGetDocs "spring" "2026")) (EvGetDocs "spring" "2026").
Proof.
  cbv zeta. split; [reflexivity |].
  exact (proj2 (page_gate_matches_extract_precondition
                  Sample.env_ok Sample.env_ok Sample2.lookup_spring_2026
                  Sample.spring_2026
                  (Sample.world_of [Sample.fresh_doc; Sample.archived_doc])
                  eq_refl eq_refl eq_refl eq_refl eq_refl eq_refl eq_refl eq_refl)
               eq_refl).
Defined.

Lemma info_needs_copy_none (d : Doc) :
  tournamentInfo (data d) = None -> info_needs_copy d.
Proof. intros E H. contradiction. Qed.

Lemma Forall2_Forall_r {A} (R : A -> A -> Prop) (P : A -> Prop) (l l' : list A) :
  Forall2 R l l' -> Forall P l -> (forall x y, R x y -> P x -> P y) -> Forall P l'.
Proof.
  intros H2 HP Hstep. induction H2 as [|x y l l' Hxy _ IH]; [constructor |].
  inversion HP; subst. constructor; [now apply (Hstep x) | now apply IH].
Qed.

Lemma extract_200_first_archived (env : Env) (req : Request) (w w' : World)
      (msg : string) (info : json) :
  Extract.handler env req w
  = (Returned {| code := 200; json_body := BExtract msg info |}, w') ->
  exists d0 ds,
    query (req_season req) (req_year req) (store w) = d0 :: ds
    /\ truthy (pdfStorageUrl (data d0)) = true.
Proof.
  unfold Extract.handler. intros H.
  destruct (negb (method req =? "POST")).
  { apply ret_inv in H as [H _]. discriminate. }
  destruct (negb (truthy (req_season req)) || negb (truthy (req_year req))).
  { apply ret_inv in H as [H _]. discriminate. }
  apply try_catch_inv in H as [(a & H & Ha) | (e & w1 & _ & Hc)].
  - apply bind_inv in H as [(docs & w1 & Hq & H) | (e & _ & He)]; [| discriminate].
    apply getDocs_inv in Hq as [-> ->].
    change (store (logged w (EvGetDocs (req_season req) (req_year req))))
      with (store w) in H.
    destruct (query (req_season req) (req_year req) (store w)) as [|d0 ds].
    { apply ret_inv in H as [H _]. injection Ha as <-. discriminate. }
    destruct (truthy (pdfStorageUrl (data d0))) eqn:Hu.
    + now exists d0, ds.
    + apply ret_inv in H as [H _]. injection Ha as <-. discriminate.
  - unfold bind, console_error, log, respond, ret in Hc. discriminate.
Qed.

(** X21.  An invariant of the collection: a record has extracted
    information only if it has an archived copy.  With distinct ids, each
    of the three writing handlers keeps it, whatever the request and
    however the call ends. *)
Theorem info_only_with_archived_copy :
  forall (env : Env) (req : Request) (w : World),
    NoDup (ids (store w)) ->
    Forall info_needs_copy (store w) ->
    Forall info_needs_copy (store (snd (Discover.handler env req w)))
    /\ Forall info_needs_copy (store (snd (Archive.handler env req w)))
    /\ Forall info_needs_copy (store (snd (Extract.handler env req w))).
Proof.
  intros env req w Hnd Hinv. split; [| split].
  - destruct (Discover.handler env req w) as [r w'] eqn:H. cbn [snd].
    destruct (discover_handler_appends env req w r w' H) as (_ & new & -> & Hnew).
    apply Forall_app. split; [exact Hinv |].
    eapply Forall_impl; [| exact Hnew].
    intros d (_ & _ & _ & Hnone). now apply info_needs_copy_none.
  - destruct (Archive.handler env req w) as [r w'] eqn:H. cbn [snd].
    eapply Forall2_Forall_r;
      [exact (archive_handler_pointwise env req w w' r Hnd H) | exact Hinv |].
    intros d d' (_ & Hsame & Hkeep & _) Hd.
    destruct (truthy (pdfStorageUrl (data d))) eqn:Hu.
    + now rewrite (Hkeep eq_refl).
    + apply info_needs_copy_none.
      destruct Hsame as (_ & _ & _ & _ & _ & _ & _ & _ & <-).
      destruct (tournamentInfo (data d)) eqn:Hi; [| reflexivity].
      unfold info_needs_copy in Hd. rewrite Hi in Hd.
      assert (Hj : Some j <> None) by discriminate. rewrite (Hd Hj) in Hu. discriminate.
  - destruct (Extract.handler env req w) as [r w'] eqn:H. cbn [snd].
    pose proof H as H'.
    apply extract_effect in H as [[-> _] | (d0 & ds & info & Hq & -> & ->)];
      [exact Hinv |].
    apply extract_200_first_archived in H' as (d0' & ds' & Hq' & Hu).
    rewrite Hq in Hq'. injection Hq' as <- <-.
    assert (Hin : In d0 (store w)).
    { assert (Hin : In d0 (query (req_season req) (req_year req) (store w)))
        by (rewrite Hq; now left).
      unfold query in Hin. now apply filter_In in Hin. }
    unfold update. apply Forall_forall. intros d' Hd'.
    apply in_map_iff in Hd' as (d & <- & Hd).
    rewrite Forall_forall in Hinv.
    destruct (has_id (id d0) d) eqn:E.
    + apply has_id_true in E.
      assert (d = d0) by (apply (ids_inj (store w)); auto).
      subst d. intros _. exact Hu.
    + now apply Hinv.
Qed.

Lemma info_only_with_archived_copy_witness :
  let w := Sample.world_of [Sample.fresh_doc; Sample.archived_doc] in
  Forall info_needs_copy (store (snd (Discover.handler Sample.env_ok Sample.spring_2026 w)))
  /\ Forall info_needs_copy (store (snd (Archive.handler Sample.env_ok Sample.spring_2026 w)))
  /\ Forall info_needs_copy (store (snd (Extract.handler Sample.env_ok Sample.spring_2026 w))).
Proof.
  cbv zeta.
  refine (info_only_with_archived_copy Sample.env_ok Sample.spring_2026
            (Sample.world_of [Sample.fresh_doc; Sample.archived_doc]) _ _).
  - repeat constructor; simpl; intuition discriminate.
  - repeat constructor; intros H; exfalso; apply H; reflexivity.
Defined.

(** X22.  Over a collection where information implies an archived copy,
    the steps the manager page marks done after its status check are in
    order: step 3 done implies step 2 done, and step 2 done implies step 1
    done. *)
Theorem page_steps_in_order :
  forall (env : Env) (req : Request) (w : World),
    Forall info_needs_copy (store w) ->
    let page := checkStatus (reply_of (Status.handler env req w)) in
    (extractStatus page = Success -> uploadStatus page = Success)
    /\ (uploadStatus page = Success -> searchStatus page = Success).
Proof.
  intros env req w Hinv page.
  assert (Hshape :
            page = reset
            \/ exists d, In d (store w)
                         /\ page = checkStatus (Ok (Status.SFound (data d)))).
  { unfold page, Status.handler.
    destruct (negb (method req =? "GET")); [now left |].
    destruct (negb (truthy (req_season req)) || negb (truthy (req_year req)));
      [now left |].
    unfold try_catch, bind, getDocs, bind, log, ask.
    destruct (getDocs_answer env (logged w (EvGetDocs (req_season req) (req_year req))));
      simpl; [| now left].
    destruct (query (req_season req) (req_year req) (store w)) as [|d ds] eqn:Eq;
      [now left |].
    right. exists d. split; [| reflexivity].
    assert (Hin : In d (query (req_season req) (req_year req) (store w)))
      by (rewrite Eq; now left).
    unfold query in Hin. now apply filter_In in Hin. }
  destruct Hshape as [-> | (d & Hd & ->)]; [split; discriminate |].
  rewrite Forall_forall in Hinv. specialize (Hinv d Hd). unfold info_needs_copy in Hinv.
  cbn. split; [| reflexivity].
  destruct (tournamentInfo (data d)) as [j|] eqn:Hi; cbn; [| discriminate].
  rewrite Hinv by discriminate. reflexivity.
Qed.

Lemma page_steps_in_order_witness :
  let w := Sample.world_of [Sample.archived_doc] in
  let page := checkStatus (reply_of (Status.handler Sample.env_ok
                                       Sample2.lookup_spring_2026 w)) in
  (extractStatus page = Success -> uploadStatus page = Success)
  /\ (uploadStatus page = Success -> searchStatus page = Success).
Proof.
  cbv zeta.
  refine (page_steps_in_order Sample.env_ok Sample2.lookup_spring_2026
            (Sample.world_of [Sample.archived_doc]) _).
  repeat constructor; intros H; exfalso; apply H; reflexivity.
Defined.

End ManagerPage.

Section RagFacts.
Import Store Sys(Answer, Ok, Fails, Outcome, Returned, Thrown) Rag.
Local Open Scope P_scope.

Lemma loads_app (a b : list Call) : loads (a ++ b) = loads a + loads b.
Proof. unfold loads. now rewrite filter_app, length_app. Qed.

Lemma asked_app (a b : list Call) : asked (a ++ b) = (asked a ++ asked b)%list.
Proof.
  induction a as [|c a IH]; [reflexivity |].
  destruct c; simpl; now rewrite ?IH.
Qed.

Lemma budget_called (s : State) (c : Call) : budget (called s c) = budget s.
Proof. reflexivity. Qed.

Lemma loads_nil : loads [] = 0.
Proof. reflexivity. Qed.

Lemma within_ret {A} (a : A) : within [] (ret a).
Proof.
  intros s o s' H. injection H as <- <-. exists [].
  rewrite app_nil_r, loads_nil.
  split; [reflexivity | split; [auto | split; [lia |]]].
  intros a0 _. split; [lia | reflexivity].
Qed.

Lemma within_throw {A} (qs : list string) (e : string) : within qs (@throw A e).
Proof.
  intros s o s' H. injection H as <- <-. exists [].
  rewrite app_nil_r, loads_nil.
  split; [reflexivity | split; [auto | split; [lia | discriminate]]].
Qed.

Lemma within_bind {A B} (q1 q2 : list string) (m : P A) (k : A -> P B) :
  within q1 m -> (forall a, within q2 (k a)) -> within (q1 ++ q2) (bind m k).
Proof.
  intros Hm Hk s o s' H. unfold bind in H.
  destruct (m s) as [[a|e] s1] eqn:E.
  - destruct (Hm _ _ _ E) as (cs1 & Hc1 & Hf1 & Hl1 & Hr1).
    destruct (Hr1 a eq_refl) as [Hb1 Ha1].
    destruct (Hk a _ _ _ H) as (cs2 & Hc2 & Hf2 & Hl2 & Hr2).
    exists (cs1 ++ cs2)%list.
    split; [now rewrite Hc2, Hc1, app_assoc |].
    split; [auto |].
    rewrite loads_app. split; [lia |].
    intros b Hb. destruct (Hr2 b Hb) as [Hb2 Ha2].
    split; [lia | now rewrite asked_app, Ha1, Ha2].
  - injection H as <- <-.
    destruct (Hm _ _ _ E) as (cs1 & Hc1 & Hf1 & Hl1 & _).
    exists cs1. repeat split; auto; discriminate.
Qed.

Lemma within_call {A} (c : Call) (oracle : State -> Answer A) :
  is_load c = false -> within (asked [c]) (call c oracle).
Proof.
  intros Hc s o s' H. unfold call in H.
  exists [c].
  assert (Hl : loads [c] = 0) by (unfold loads; simpl; now rewrite Hc).
  destruct (oracle (called s c)); injection H as <- <-;
    (split; [reflexivity | split; [auto | split; [lia |]]]).
  - intros a0 _. rewrite budget_called. split; [lia | reflexivity].
  - discriminate.
Qed.

Lemma full_set (vs : VectorStore) (chain : QAChain) (cs : list Call) :
  full {| _vectorStore := Some vs; _qaChain := Some chain; calls := cs |} = true.
Proof. reflexivity. Qed.

(** What [initializePdfProcessing] does, by cases. *)
Lemma initialize_cases (lib : Lib) (s s' : State)
      (o : Outcome (option VectorStore * option QAChain)) :
  initializePdfProcessing lib s = (o, s') ->
  (full s = true /\ s' = s /\ o = Returned (_vectorStore s, _qaChain s))
  \/ (full s = false
      /\ exists cs,
          calls s' = (calls s ++ cs)%list /\ loads cs = 1 /\ asked cs = []
          /\ ((exists e, o = Thrown e
                         /\ _vectorStore s' = _vectorStore s
                         /\ _qaChain s' = _qaChain s)
              \/ (exists vs,
                     o = Returned (Some vs, Some {| chain_store := vs; chain_k := 5 |})
                     /\ _vectorStore s' = Some vs
                     /\ _qaChain s' = Some {| chain_store := vs; chain_k := 5 |}))).
Proof.
  unfold initializePdfProcessing, bind at 1. intros H.
  destruct (is_null (_vectorStore s) || is_null (_qaChain s)) eqn:E.
  - right.
    assert (Hf : full s = false).
    { unfold full. destruct (is_null (_vectorStore s)), (is_null (_qaChain s));
        simpl in *; congruence. }
    split; [exact Hf |].
    unfold bind, call, set_vectorStore, set_qaChain in H.
    set (s1 := called s (CLoad PDF_PATH)) in *.
    destruct (loader_load lib s1 PDF_PATH) as [documents|e1].
    2:{ injection H as <- <-. exists [CLoad PDF_PATH].
        repeat split. left. now exists e1. }
    set (s2 := called s1 CSplitDocuments) in *.
    destruct (splitDocuments lib s2 documents) as [texts|e2].
    2:{ injection H as <- <-. exists [CLoad PDF_PATH; CSplitDocuments].
        split; [simpl; now rewrite <- app_assoc |].
        repeat split. left. now exists e2. }
    set (s3 := called s2 (CFromDocuments texts)) in *.
    destruct (fromDocuments lib s3 texts) as [vs|e3].
    2:{ injection H as <- <-.
        exists [CLoad PDF_PATH; CSplitDocuments; CFromDocuments texts].
        split; [simpl; now rewrite <- !app_assoc |].
        repeat split. left. now exists e3. }
    injection H as <- <-.
    exists [CLoad PDF_PATH; CSplitDocuments; CFromDocuments texts].
    split; [simpl; now rewrite <- !app_assoc |].
    repeat split. right. now exists vs.
  - left. unfold ret in H. injection H as <- <-.
    repeat split. unfold full. apply orb_false_iff in E as [-> ->]. reflexivity.
Qed.

(** X23.  The index and the chain are built once.  When
    [initializePdfProcessing] returns, both globals are set and are what
    it returns, and calling it again in that state (with any libraries)
    returns the same pair without a call and without a change.  When it
    throws, the cache was not full and both globals are as they were. *)
Theorem initialize_builds_once :
  forall (lib lib' : Lib) (s : State),
    let run := initializePdfProcessing lib s in
    match fst run with
    | Returned c =>
        (exists vs chain,
            c = (Some vs, Some chain)
            /\ _vectorStore (snd run) = Some vs /\ _qaChain (snd run) = Some chain)
        /\ initializePdfProcessing lib' (snd run) = (Returned c, snd run)
    | Thrown _ =>
        full s = false
        /\ _vectorStore (snd run) = _vectorStore s
        /\ _qaChain (snd run) = _qaChain s
    end.
Proof.
  intros lib lib' s run. unfold run.
  destruct (initializePdfProcessing lib s) as [o s'] eqn:H. cbn [fst snd].
  assert (Hagain : forall vs chain,
             _vectorStore s' = Some vs -> _qaChain s' = Some chain ->
             initializePdfProcessing lib' s'
             = (Returned (Some vs, Some chain), s')).
  { intros vs chain Hv Hc. unfold initializePdfProcessing, bind.
    rewrite Hv, Hc. cbn. now rewrite Hv, Hc. }
  apply initialize_cases in H
    as [(Hf & -> & ->) | (Hf & cs & _ & _ & _ & [(e & -> & Hv & Hc) | (vs & -> & Hv & Hc)])].
  - unfold full in Hf.
    destruct (_vectorStore s) as [vs|] eqn:Ev; [| discriminate].
    destruct (_qaChain s) as [chain|] eqn:Ec; [| discriminate].
    split; [now exists vs, chain | now apply Hagain].
  - now repeat split.
  - split; [eexists _, _; now repeat split | now apply Hagain].
Qed.

Lemma within_initialize (lib : Lib) : within [] (initializePdfProcessing lib).
Proof.
  intros s o s' H.
  apply initialize_cases in H
    as [(Hf & -> & ->) | (Hf & cs & Hcs & Hl & Ha & Hout)].
  - exists []. rewrite app_nil_r, loads_nil.
    split; [reflexivity | split; [auto | split; [lia |]]].
    intros a _. split; [lia | reflexivity].
  - exists cs. unfold budget. rewrite Hf.
    split; [exact Hcs | split; [discriminate | split; [lia |]]].
    intros a ->. destruct Hout as [(e & He & _) | (vs & _ & Hv & Hc)]; [discriminate |].
    assert (Hfull : full s' = true) by (unfold full; now rewrite Hv, Hc).
    rewrite Hfull. split; [lia | exact Ha].
Qed.

Lemma within_query (lib : Lib) (question : string) :
  within [question] (queryPdfWithLangchain lib question).
Proof.
  unfold queryPdfWithLangchain.
  apply (within_bind [] [question]); [apply within_initialize |].
  intros cache. destruct (snd cache) as [qaChain|]; [| apply within_throw].
  change [question] with (asked [CChainCall qaChain question] ++ [])%list.
  apply within_bind; [now apply within_call |].
  intros result. apply within_ret.
Qed.

Lemma within_ask_all (lib : Lib) (qs : list string) :
  forall acc, within qs (for_of qs (ask_one lib) acc).
Proof.
  induction qs as [|q qs IH]; intros acc; [apply within_ret |].
  change (q :: qs) with ([q] ++ qs)%list at 1.
  cbn [for_of]. apply within_bind; [| intros acc'; apply IH].
  unfold ask_one.
  change [q] with ([q] ++ [])%list.
  apply within_bind; [apply within_query | intros result; apply within_ret].
Qed.

Lemma within_invoke (lib : Lib) (prompt : string) : within [] (invoke lib prompt).
Proof. unfold invoke. now apply (within_call (CInvoke prompt)). Qed.

Lemma within_parse (lib : Lib) (content : string) : within [] (parse lib content).
Proof.
  unfold parse. destruct (JSON_parse lib content); [apply within_ret | apply within_throw].
Qed.

Lemma within_send (c : nat) (b : RBody) : within [] (send c b).
Proof. apply within_ret. Qed.

Lemma within_bounded {A} (qs : list string) (m : P A) : within qs m -> bounded m.
Proof.
  intros H s o s' E. destruct (H s o s' E) as (cs & H1 & H2 & H3 & _).
  now exists cs.
Qed.

(** A [try] whose handler only sends a response. *)
Lemma bounded_try_send (qs : list string) (m : P Reply) (c : nat)
      (b : string -> RBody) :
  within qs m -> bounded (try_catch m (fun e => send c (b e))).
Proof.
  intros Hm s o s' H. unfold try_catch in H.
  destruct (m s) as [[a|e] s1] eqn:E.
  - injection H as <- <-. exact (within_bounded qs m Hm s _ _ E).
  - unfold send, ret in H. injection H as <- <-.
    exact (within_bounded qs m Hm s _ _ E).
Qed.

Lemma within_schedule (lib : Lib) :
  within questions
    (combinedAnswers <- for_of questions (ask_one lib) [] ;;
     response <- invoke lib (fill (schedule_prompt lib) (join newline combinedAnswers)) ;;
     structuredResponse <- parse lib response ;;
     send 200 (RJson structuredResponse)).
Proof.
  apply (within_bind questions []); [apply within_ask_all |]. intros combinedAnswers.
  apply (within_bind [] []); [apply within_invoke |]. intros response.
  apply (within_bind [] []); [apply within_parse |]. intros j.
  apply within_send.
Qed.

Lemma endpoints_bounded (lib : Lib) :
  (forall prompt, bounded (query_openai lib prompt))
  /\ (forall question, bounded (ask_question lib question))
  /\ bounded (ask_multiple_questions lib)
  /\ (forall b, bounded (get_final_rounds lib b))
  /\ bounded (get_player_requirements lib).
Proof.
  repeat split.
  - intros prompt. unfold query_openai. apply (bounded_try_send []).
    destruct (negb (JS.truthy prompt)); [apply within_send |].
    apply (within_bind [] []); [apply within_invoke | intros r; apply within_send].
  - intros question. unfold ask_question.
    destruct (negb (JS.truthy question)).
    + apply (bounded_try_send []). apply within_send.
    + apply (bounded_try_send ([question] ++ [])).
      apply within_bind; [apply within_query | intros r; apply within_send].
  - unfold ask_multiple_questions. apply (bounded_try_send questions).
    apply within_schedule.
  - intros [division1|]; unfold get_final_rounds.
    + apply (bounded_try_send
               ([if division1 then division1_question else division2_question]
                  ++ [])).
      apply within_bind; [apply within_query |]. intros result.
      apply (within_bind [] []); [apply within_invoke |]. intros r.
      apply (within_bind [] []); [apply within_parse |]. intros j.
      apply within_send.
    + apply (bounded_try_send []). apply within_send.
  - unfold get_player_requirements. apply (bounded_try_send []).
    apply (within_bind [] []); [apply within_initialize |]. intros cache.
    destruct (fst cache) as [vectorStore|]; [| apply within_throw].
    apply (within_bind [] []); [now apply within_call |]. intros docs.
    apply (within_bind [] []); [apply within_invoke |]. intros r.
    apply (within_bind [] []); [apply within_parse |]. intros j.
    apply within_send.
Qed.

(** X25.  Whatever the libraries answer, an operation on the module (a
    request to one of the five endpoints, or a call of an exported
    function) loads the document at most once, and not at all when the
    cache is full; and a full cache stays full unless the operation is
    [clearPdfCache]. *)
Theorem requests_load_at_most_once :
  forall (lib : Lib) (op : Op) (s : State),
    exists cs,
      calls (run_op lib op s) = (calls s ++ cs)%list
      /\ loads cs <= 1
      /\ (full s = true -> loads cs = 0)
      /\ (op <> OClearPdfCache -> full s = true -> full (run_op lib op s) = true).
Proof.
  intros lib op s.
  assert (Hb : forall A (m : P A),
             bounded m ->
             exists cs,
               calls (snd (m s)) = (calls s ++ cs)%list
               /\ loads cs <= 1
               /\ (full s = true -> loads cs = 0)
               /\ (full s = true -> full (snd (m s)) = true)).
  { intros A m Hm. destruct (m s) as [o s'] eqn:E.
    destruct (Hm s o s' E) as (cs & H1 & H2 & H3).
    exists cs. cbn [snd]. unfold budget in H3.
    split; [exact H1 |]. destruct (full s); repeat split; auto; lia. }
  destruct (endpoints_bounded lib) as (H1 & H2 & H3 & H4 & H5).
  assert (H6 : bounded (initializePdfProcessing lib))
    by exact (within_bounded [] _ (within_initialize lib)).
  assert (Hop : op = OClearPdfCache
                \/ exists A (m : P A), bounded m /\ run_op lib op s = snd (m s)).
  { destruct op; [right .. | left; reflexivity]; eexists _, _;
      (split; [| reflexivity]); auto. }
  destruct Hop as [-> | (A & m & Hm & ->)].
  - exists []. rewrite app_nil_r. repeat split; auto; congruence.
  - destruct (Hb A m Hm) as (cs & Ha & Hb1 & Hc & Hd).
    exists cs. repeat split; auto.
Qed.

(** X26.  A schedule request that answers 200 has put exactly the five
    fixed questions to the chain, in their order, and has loaded the
    document at most once for all five (not at all on a full cache). *)
Theorem schedule_request_asks_the_five :
  forall (lib : Lib) (s s' : State) (j : json),
    ask_multiple_questions lib s
    = (Returned {| r_code := 200; r_body := RJson j |}, s') ->
    exists cs,
      calls s' = (calls s ++ cs)%list
      /\ asked cs = questions
      /\ loads cs <= 1
      /\ (full s = true -> loads cs = 0).
Proof.
  intros lib s s' j H. unfold ask_multiple_questions, try_catch in H.
  match type of H with
  | context [match ?m s with _ => _ end] => destruct (m s) as [[a|e] s1] eqn:E
  end.
  - injection H as -> ->.
    destruct (within_schedule lib s _ _ E) as (cs & H1 & H2 & H3 & H4).
    destruct (H4 _ eq_refl) as [H5 H6].
    exists cs. unfold budget in *.
    split; [exact H1 | split; [exact H6 |]].
    destruct (full s); split; intros; try lia; discriminate.
  - discriminate.
Qed.

Lemma schedule_request_asks_the_five_witness :
  exists cs,
    calls (snd (ask_multiple_questions lib_ok initial)) = (calls initial ++ cs)%list
    /\ asked cs = questions
    /\ loads cs <= 1
    /\ (full initial = true -> loads cs = 0).
Proof.
  exact (schedule_request_asks_the_five lib_ok initial
           (snd (ask_multiple_questions lib_ok initial)) (JObject []) eq_refl).
Defined.

Lemma coherent_called (s : State) (c : Call) : coherent s -> coherent (called s c).
Proof. exact (fun H => H). Qed.

Lemma coherent_ret {A} (a : A) : keeps_coherent (ret a).
Proof. intros s o s' I H. now injection H as <- <-. Qed.

Lemma coherent_throw {A} (e : string) : keeps_coherent (@throw A e).
Proof. intros s o s' I H. now injection H as <- <-. Qed.

Lemma coherent_bind {A B} (m : P A) (k : A -> P B) :
  keeps_coherent m -> (forall a, keeps_coherent (k a)) -> keeps_coherent (bind m k).
Proof.
  intros Hm Hk s o s' I H. unfold bind in H.
  destruct (m s) as [[a|e] s1] eqn:E.
  - exact (Hk a s1 o s' (Hm _ _ _ I E) H).
  - injection H as <- <-. exact (Hm _ _ _ I E).
Qed.

Lemma coherent_try {A} (m : P A) (h : string -> P A) :
  keeps_coherent m -> (forall e, keeps_coherent (h e)) -> keeps_coherent (try_catch m h).
Proof.
  intros Hm Hh s o s' I H. unfold try_catch in H.
  destruct (m s) as [[a|e] s1] eqn:E.
  - injection H as <- <-. exact (Hm _ _ _ I E).
  - exact (Hh e s1 o s' (Hm _ _ _ I E) H).
Qed.

Lemma coherent_call {A} (c : Call) (oracle : State -> Answer A) :
  keeps_coherent (call c oracle).
Proof.
  intros s o s' I H. unfold call in H.
  destruct (oracle (called s c)); injection H as <- <-; exact I.
Qed.

Lemma coherent_for_of {A S} (xs : list A) (body : S -> A -> P S) :
  (forall acc x, keeps_coherent (body acc x)) ->
  forall acc, keeps_coherent (for_of xs body acc).
Proof.
  intros Hb. induction xs as [|x xs IH]; intros acc; [apply coherent_ret |].
  cbn [for_of]. apply coherent_bind; [apply Hb | exact IH].
Qed.

Lemma coherent_initialize (lib : Lib) : keeps_coherent (initializePdfProcessing lib).
Proof.
  intros s o s' I H.
  apply initialize_cases in H
    as [(_ & -> & _) | (_ & cs & _ & _ & _ & [(e & _ & Hv & Hc) | (vs & _ & Hv & Hc)])].
  - exact I.
  - unfold coherent in *. now rewrite Hv, Hc.
  - unfold coherent. now rewrite Hv, Hc.
Qed.

Lemma coherent_query (lib : Lib) (question : string) :
  keeps_coherent (queryPdfWithLangchain lib question).
Proof.
  unfold queryPdfWithLangchain.
  apply coherent_bind; [apply coherent_initialize |]. intros cache.
  destruct (snd cache); [| apply coherent_throw].
  apply coherent_bind; [apply coherent_call | intros r; apply coherent_ret].
Qed.

Lemma coherent_parse (lib : Lib) (content : string) : keeps_coherent (parse lib content).
Proof.
  unfold parse. destruct (JSON_parse lib content);
    [apply coherent_ret | apply coherent_throw].
Qed.

Lemma coherent_op (lib : Lib) (op : Op) (s : State) :
  coherent s -> coherent (run_op lib op s).
Proof.
  intros I.
  assert (Hk : forall A (m : P A), keeps_coherent m -> coherent (snd (m s))).
  { intros A m Hm. destruct (m s) as [o s'] eqn:E. exact (Hm s o s' I E). }
  destruct op; cbn [run_op]; try apply Hk.
  - unfold query_openai. apply coherent_try; [| intros e; apply coherent_ret].
    destruct (negb (JS.truthy prompt)); [apply coherent_ret |].
    apply coherent_bind; [apply coherent_call | intros r; apply coherent_ret].
  - unfold ask_question. apply coherent_try; [| intros e; apply coherent_ret].
    destruct (negb (JS.truthy question)); [apply coherent_ret |].
    apply coherent_bind; [apply coherent_query | intros r; apply coherent_ret].
  - unfold ask_multiple_questions. apply coherent_try; [| intros e; apply coherent_ret].
    apply coherent_bind.
    + apply coherent_for_of. intros acc x. unfold ask_one.
      apply coherent_bind; [apply coherent_query | intros r; apply coherent_ret].
    + intros acc. apply coherent_bind; [apply coherent_call |]. intros r.
      apply coherent_bind; [apply coherent_parse | intros j; apply coherent_ret].
  - unfold get_final_rounds. apply coherent_try; [| intros e; apply coherent_ret].
    destruct is_division_1 as [division1|]; [| apply coherent_ret].
    apply coherent_bind; [apply coherent_query |]. intros result.
    apply coherent_bind; [apply coherent_call |]. intros r.
    apply coherent_bind; [apply coherent_parse | intros j; apply coherent_ret].
  - unfold get_player_requirements.
    apply coherent_try; [| intros e; apply coherent_ret].
    apply coherent_bind; [apply coherent_initialize |]. intros cache.
    destruct (fst cache); [| apply coherent_throw].
    apply coherent_bind; [apply coherent_call |]. intros docs.
    apply coherent_bind; [apply coherent_call |]. intros r.
    apply coherent_bind; [apply coherent_parse | intros j; apply coherent_ret].
  - apply coherent_initialize.
  - intros s0 o s0' _ H. injection H as _ <-. exact Logic.I.
Qed.

(** X24.  In every state the module reaches from its start, by any
    sequence of requests and calls of the exported functions handled one
    at a time, the cache is coherent: the two globals are both null or
    both set, and the chain retrieves from the cached index. *)
Theorem cache_coherent_always :
  forall (ops : list (Lib * Op)),
    coherent (run ops initial)
    /\ (forall vs chain,
           _vectorStore (run ops initial) = Some vs ->
           _qaChain (run ops initial) = Some chain ->
           chain_store chain = vs)
    /\ (is_null (_vectorStore (run ops initial))
        = is_null (_qaChain (run ops initial))).
Proof.
  intros ops.
  assert (H : coherent (run ops initial)).
  { unfold run. generalize initial (I : coherent initial).
    induction ops as [|[lib op] ops IH]; intros s Hs; [exact Hs |].
    cbn [fold_left fst snd]. apply IH. now apply coherent_op. }
  split; [exact H |]. unfold coherent in H.
  destruct (_vectorStore (run ops initial)), (_qaChain (run ops initial));
    split; intros; try congruence; try contradiction; reflexivity.
Qed.

End RagFacts.

Section ClientFacts.
Import JS Store Sys Frame Shape Keeps Client.
Local Open Scope M_scope.

#[export] Instance extended_pre (s y : string) : PreOrder (extended s y).
Proof.
  split.
  - intros w. exists []. split; [now rewrite app_nil_r | constructor].
  - intros a b c (n1 & S1 & F1) (n2 & S2 & F2).
    exists (n1 ++ n2)%list. split.
    + now rewrite S2, S1, app_assoc.
    + apply Forall_app. now split.
Qed.

Lemma extended_same (s y : string) (w w' : World) :
  store w' = store w -> extended s y w w'.
Proof. intros Hs. exists []. split; [now rewrite app_nil_r | constructor]. Qed.

(** Scraping a cited page keeps every relation that logging keeps. *)
Lemma client_scrape_keeps (R : World -> World -> Prop) `{PreOrder _ R}
      (env : Env) (encode : string -> string) (acc : list Scrape.result) (u : string) :
  (forall w e, R w (logged w e)) ->
  preserves R (Client.scrape_source env encode acc u).
Proof.
  intros Hlog. unfold Client.scrape_source.
  apply preserves_try_catch; [exact _ | | intros e].
  - apply preserves_bind; [exact _ | | intros res].
    + apply keeps_fetch_with; [exact _ |]. intros w. apply Hlog.
    + destruct (negb (ok res)); [apply preserves_throw; exact _ |].
      apply preserves_bind; [exact _ | apply preserves_await; exact _ | intros html].
      destruct (Scrape.has_links _); apply preserves_ret; exact _.
  - apply preserves_bind; [exact _ | | intros _; apply preserves_ret; exact _].
    apply keeps_console_error. intros w. apply Hlog.
Qed.

Lemma addDoc_keeps (R : World -> World -> Prop) `{PreOrder _ R}
      (env : Env) (d : TournamentData) :
  (forall w e, R w (logged w e)) ->
  (forall w i, R w {| store := (store w ++ [{| id := i; data := d |}])%list;
                      bucket := bucket w; trace := trace w |}) ->
  preserves R (addDoc env d).
Proof.
  intros Hlog Hadd. unfold addDoc.
  apply preserves_bind; [exact _ | | intros _].
  - apply preserves_log. intros w. apply Hlog.
  - apply preserves_bind; [exact _ | apply preserves_ask; exact _ | intros i].
    intros w o w' E. injection E as _ <-. apply Hadd.
Qed.

Lemma upload_link_blobs (env : Env) (s y pdfLink : string) :
  preserves (blobs_added s y) (upload_link env s y pdfLink).
Proof.
  unfold upload_link.
  destruct (Archive.resolve pdfLink) as [url|]; [| apply preserves_ret; exact _].
  apply preserves_bind; [exact _ | | intros resp].
  { apply keeps_fetch_with; [exact _ |]. intros w. apply blobs_added_logged. }
  apply preserves_bind; [exact _ | apply preserves_await; exact _ | intros bytes].
  intros w o w' E. unfold bind, now in E. revert E.
  apply (preserves_bind (blobs_added s y)
           (uploadBytes env "" (Archive.fileName s y (Date_now env w)) bytes)
           (fun _ => getDownloadURL env "" (Archive.fileName s y (Date_now env w)))).
  - unfold uploadBytes.
    apply preserves_bind; [exact _ | | intros _].
    + apply preserves_log. intros w0. apply blobs_added_logged.
    + apply preserves_bind; [exact _ | apply preserves_ask; exact _ | intros _].
      intros w0 o0 w0' H0. injection H0 as _ <-.
      exists [(Archive.fileName s y (Date_now env w), bytes)].
      split; [reflexivity |]. constructor; [| constructor].
      now exists (Date_now env w).
  - intros _. apply keeps_getDownloadURL; [exact _ |].
    intros w0. apply blobs_added_logged.
Qed.

Lemma upload_link_extended (env : Env) (s y pdfLink : string) :
  preserves (extended s y) (upload_link env s y pdfLink).
Proof.
  unfold upload_link.
  destruct (Archive.resolve pdfLink) as [url|]; [| apply preserves_ret; exact _].
  apply preserves_bind; [exact _ | | intros resp].
  { apply keeps_fetch_with; [exact _ |]. intros w. now apply extended_same. }
  apply preserves_bind; [exact _ | apply preserves_await; exact _ | intros bytes].
  apply preserves_bind; [exact _ | apply preserves_now; exact _ | intros t].
  apply preserves_bind; [exact _ | | intros _].
  - apply keeps_uploadBytes; [exact _ | |]; intros; now apply extended_same.
  - apply keeps_getDownloadURL; [exact _ |]. intros w. now apply extended_same.
Qed.

Lemma client_save_keeps (R : World -> World -> Prop) `{PreOrder _ R}
      (env : Env) (s y : string) (r : Scrape.result) :
  (forall w e, R w (logged w e)) ->
  (forall w i u, R w {| store := (store w ++ [{| id := i;
                                                 data := Client.tournamentData s y u r |}])%list;
                        bucket := bucket w; trace := trace w |}) ->
  (forall pdfLink, preserves R (upload_link env s y pdfLink)) ->
  preserves R (Client.save env s y tt r).
Proof.
  intros Hlog Hadd Hup. unfold Client.save.
  apply preserves_bind; [exact _ | | intros u].
  - unfold archived_url. destruct (Scrape.pdf r) as [|pdfLink rest];
      [apply preserves_ret; exact _ |].
    destruct (truthy pdfLink); [| apply preserves_ret; exact _].
    apply preserves_try_catch; [exact _ | apply Hup | intros e].
    apply preserves_bind; [exact _ | | intros _; apply preserves_ret; exact _].
    apply keeps_console_error. intros w. apply Hlog.
  - apply preserves_try_catch; [exact _ | | intros e].
    + apply addDoc_keeps; [exact _ | exact Hlog | intros w i; apply Hadd].
    + apply keeps_console_error. intros w. apply Hlog.
Qed.

Lemma client_search_keeps (R : World -> World -> Prop) `{PreOrder _ R}
      (env : Env) (encode : string -> string) (s y : string) :
  (forall w e, R w (logged w e)) ->
  (forall w i u r,
      R w {| store := (store w ++ [{| id := i;
                                      data := Client.tournamentData s y u r |}])%list;
             bucket := bucket w; trace := trace w |}) ->
  (forall pdfLink, preserves R (upload_link env s y pdfLink)) ->
  preserves R (Client.search env encode s y).
Proof.
  intros Hlog Hadd Hup. unfold Client.search.
  apply preserves_try_catch; [exact _ | | intros e].
  - apply preserves_bind; [exact _ | | intros docs].
    + apply keeps_getDocs; [exact _ |]. intros w. apply Hlog.
    + destruct docs as [|d0 ds]; [| apply preserves_ret; exact _].
      apply preserves_bind; [exact _ | | intros resp].
      * apply keeps_fetch_with; [exact _ |]. intros w. apply Hlog.
      * destruct (negb (ok resp)); [apply preserves_throw; exact _ |].
        apply preserves_bind; [exact _ | apply preserves_await; exact _ | intros text].
        apply preserves_bind; [exact _ | apply preserves_await; exact _ | intros found].
        apply preserves_bind; [exact _ | | intros results].
        -- apply preserves_for_of; [exact _ |]. intros acc u _.
           now apply client_scrape_keeps.
        -- apply preserves_for_of; [exact _ |]. intros [] r _.
           apply client_save_keeps; [exact _ | exact Hlog | | exact Hup].
           intros w i u. apply Hadd.
  - apply keeps_console_error. intros w. apply Hlog.
Qed.

(** X27.  The client-side search never throws and only adds: whatever the
    outside answers, it ends normally; the collection afterwards is the
    old one followed by records it created for the season and year
    searched; the bucket is the old one followed by blobs named for that
    season and year.  When the key already has a record, nothing is
    written and no page is fetched. *)
Theorem client_search_only_adds :
  forall (env : Env) (encodeURIComponent : string -> string) (s y : string)
         (w : World),
    let run := Client.search env encodeURIComponent s y w in
    fst run = Returned tt
    /\ extended s y w (snd run)
    /\ blobs_added s y w (snd run)
    /\ (query s y (store w) <> [] -> same_data w (snd run) /\ no_fetch w (snd run)).
Proof.
  intros env encode s y w run. unfold run.
  split; [| split; [| split]].
  - unfold Client.search, try_catch.
    match goal with
    | |- context [match ?m w with _ => _ end] => destruct (m w) as [[[]|e] w1]
    end; reflexivity.
  - destruct (Client.search env encode s y w) as [o w'] eqn:E. cbn [snd].
    revert E. apply client_search_keeps; [exact _ | | |].
    + intros w0 e. now apply extended_same.
    + intros w0 i u r. exists [{| id := i; data := Client.tournamentData s y u r |}].
      split; [reflexivity |]. constructor; [| constructor]. now repeat split.
    + intros pdfLink. apply upload_link_extended.
  - destruct (Client.search env encode s y w) as [o w'] eqn:E. cbn [snd].
    revert E. apply client_search_keeps; [exact _ | | |].
    + intros w0 e. apply blobs_added_logged.
    + intros w0 i u r. now apply blobs_added_same.
    + intros pdfLink. apply upload_link_blobs.
  - intros Hq. unfold Client.search, try_catch, bind, getDocs, bind, log, ask.
    set (w1 := logged w (EvGetDocs s y)).
    destruct (getDocs_answer env w1) as [[]|e]; simpl.
    + replace (store w1) with (store w) by reflexivity.
      destruct (query s y (store w)) as [|d ds]; [contradiction |].
      simpl. split; [now split |]. exists [EvGetDocs s y]. now split.
    + unfold console_error, log. simpl. split; [now split |].
      exists [EvGetDocs s y; EvConsoleError e].
      split; [simpl; now rewrite <- app_assoc | reflexivity].
Qed.

(** X28.  The client-side search stores whatever the download gives.  For
    a page whose first document link is a viewer link, once the download
    answers and its body can be read (whatever the response's [ok] flag
    and status), the body is uploaded under the time-stamped name and the
    record's [pdfStorageUrl] is the URL the blob store gives for it. *)
Theorem client_uploads_whatever_it_downloads :
  forall (env : Env) (s y : string) (result : Scrape.result)
         (pdfLink : string) (rest : list string) (url : string)
         (response : FetchResponse) (bytes u : string) (w : World),
    Scrape.pdf result = pdfLink :: rest ->
    truthy pdfLink = true ->
    Archive.resolve pdfLink = Some url ->
    let w1 := logged w (EvFetch url None) in
    fetch_answer env w1 url = Ok response ->
    body response = Ok bytes ->
    let file := Archive.fileName s y (Date_now env w1) in
    let w2 := logged w1 (EvUploadBytes "" file bytes) in
    uploadBytes_answer env w2 file = Ok tt ->
    let w3 := {| store := store w; bucket := (bucket w ++ [(file, bytes)])%list;
                 trace := trace w2 |} in
    let w4 := logged w3 (EvGetDownloadURL "" file) in
    getDownloadURL_answer env w4 file = Ok u ->
    archived_url env s y result w = (Returned u, w4).
Proof.
  intros env s y result pdfLink rest url response bytes u w Hp Ht Hr w1 Hf Hb
         file w2 Hu w3 w4 Hg.
  unfold archived_url. rewrite Hp, Ht. unfold upload_link. rewrite Hr.
  unfold try_catch, fetch, fetch_with, bind, log, ask. fold w1. rewrite Hf. simpl.
  rewrite Hb. simpl. unfold now. fold file.
  unfold uploadBytes, getDownloadURL, bind, log, ask. fold w2. rewrite Hu. simpl.
  match goal with
  | |- context [getDownloadURL_answer env ?x ?f] => change x with w4
  end.
  rewrite Hg. reflexivity.
Qed.

Lemma client_uploads_whatever_it_downloads_witness :
  let result := Scrape.scrape Sample2.league_page Sample2.league_anchors in
  let run := archived_url Sample2.env_search_down "spring" "2026" result
                          (Sample.world_of []) in
  fst run
  = Returned "https://storage.example/ccl/spring/2026/1767225600000_ccl_spring_2026.pdf"
  /\ bucket (snd run) = [("ccl/spring/2026/1767225600000_ccl_spring_2026.pdf", "")].
Proof.
  cbv zeta.
  pose proof (client_uploads_whatever_it_downloads
                Sample2.env_search_down "spring" "2026"
                (Scrape.scrape Sample2.league_page Sample2.league_anchors)
                Sample.drive_link []
                "https://drive.google.com/uc?export=download&id=XYZ789"
                {| ok := false; status := 503; statusText := "Service Unavailable";
                   body := Ok "" |}
                ""
                "https://storage.example/ccl/spring/2026/1767225600000_ccl_spring_2026.pdf"
                (Sample.world_of [])
                eq_refl eq_refl eq_refl eq_refl eq_refl eq_refl eq_refl) as E.
  cbv zeta in E. rewrite E. split; reflexivity.
Defined.

End ClientFacts.
